(** * PL-spectroscopy automation: filter wheel, acquisition pipeline, orchestration

    A shallow embedding of [flywheel.py], [utils.py], [spectrometer.py],
    [experiment.py] and [main.py].

    Python objects are mutable and the vendor layer is stateful, so the
    methods are written in a state-and-exception monad [M] over a [World]
    holding the attributes of the controller objects, the wall clock, and a
    trace of what was asked of the hardware and of the disk.

    Numbers: slot numbers and counters are [Z]; optical powers, intensities
    and wavelengths are exact rationals [Q] (the arithmetic of the pipeline
    is the ideal one: rounding, infinities and nan of binary64 are not
    represented). *)

From Stdlib Require Import ZArith QArith Qminmax List String Bool Lia Lqa.
Import ListNotations.

Local Open Scope Z_scope.

(* ================================================================== *)
(** * Outcomes, exceptions and the world *)

Inductive HwCall : Type :=
| tlccs_init | tlccs_setIntegrationTime | tlccs_close
| tlccs_startScan | tlccs_getWavelengthData | tlccs_getScanData
| PM100D_init | PM100D_measPower | PM100D_close
| visa_open | gen_configure | gen_output (on : bool) | gen_trigger | visa_close.

Inductive Hook : Type := spec_shutdown | pm_close | fw_close.

Inductive PyExn : Type :=
| ValueError | RuntimeError | KeyError | NameError | IndexError
| ZeroDivisionError
| DeviceError (c : HwCall)        (* raised inside the vendor layer *)
| NanResult.                      (* numpy went on with nan: outside the
                                     rational model, the run is cut here *)

Inductive Event : Type :=
| Hw (c : HwCall)                        (* a call into the vendor layer *)
| Enter (h : Hook)                       (* a shutdown hook is entered *)
| Prompt (sample : Z)                    (* input("Insert Sample ...") *)
| SaveCsv (wl inten : list Q)            (* save_csv_spectrum *)
| SavePlot                               (* a chart written to disk *)
| ShowPlot                               (* a figure shown or redrawn *)
| SummaryPlots.                          (* plot_spectra_from_csv *)

Record FlywheelController : Type := mkFw {
  slot_count : Z;
  slot_mapping : list (string * Z);
  current_slot : Z
}.

Record CCS_Spectrometer : Type := mkSpec {
  simulate : bool;
  integration_time : Q;
  background : option (list Q);
  mask_range : option Q * option Q
}.

Record World : Type := mkWorld {
  trace : list Event;                      (* newest first *)
  clock : Q;                               (* time.time() *)
  scans : nat;                             (* scans delivered so far *)
  reads : nat;                             (* power readings delivered so far *)
  fw : FlywheelController;                 (* the FlywheelController object *)
  spec : CCS_Spectrometer;                 (* the CCS_Spectrometer object *)
  (* the laboratory: never written by the program *)
  device_spectrum : nat -> list Q * list Q;  (* n-th scan: wavelengths, intensities *)
  device_power : nat -> Q;                 (* n-th power reading *)
  faulty : HwCall -> bool                  (* vendor calls that raise *)
}.

Inductive Outcome (A : Type) : Type :=
| Ret (a : A)
| Raise (e : PyExn)
| OutOfFuel.
Arguments Ret {A} a.
Arguments Raise {A} e.
Arguments OutOfFuel {A}.

Definition M (A : Type) : Type := World -> Outcome A * World.

Definition ret {A} (a : A) : M A := fun w => (Ret a, w).
Definition raise {A} (e : PyExn) : M A := fun w => (Raise e, w).
Definition out_of_fuel {A} : M A := fun w => (OutOfFuel, w).
Definition bind {A B} (m : M A) (k : A -> M B) : M B :=
  fun w => match m w with
           | (Ret a, w') => k a w'
           | (Raise e, w') => (Raise e, w')
           | (OutOfFuel, w') => (OutOfFuel, w')
           end.

Notation "x <- m ;; k" := (bind m (fun x => k))
  (at level 61, m at next level, right associativity).
Notation "m ;; k" := (bind m (fun _ => k))
  (at level 61, right associativity).

(** [try: body finally: fin].  The finaliser runs whether the body returned
    or raised; an exception of the finaliser replaces the body's. *)
Definition try_finally {A} (body : M A) (fin : M unit) : M A :=
  fun w => match body w with
           | (OutOfFuel, w') => (OutOfFuel, w')
           | (o, w') => match fin w' with
                        | (Ret _, w'') => (o, w'')
                        | (Raise e, w'') => (Raise e, w'')
                        | (OutOfFuel, w'') => (OutOfFuel, w'')
                        end
           end.

(** [try: body except Exception: handler]. *)
Definition try_except {A} (body : M A) (handler : PyExn -> M A) : M A :=
  fun w => match body w with
           | (Raise e, w') => handler e w'
           | r => r
           end.

Definition set_trace (t : list Event) (w : World) : World :=
  mkWorld t (clock w) (scans w) (reads w) (fw w) (spec w)
          (device_spectrum w) (device_power w) (faulty w).
Definition set_clock (c : Q) (w : World) : World :=
  mkWorld (trace w) c (scans w) (reads w) (fw w) (spec w)
          (device_spectrum w) (device_power w) (faulty w).
Definition set_scans (n : nat) (w : World) : World :=
  mkWorld (trace w) (clock w) n (reads w) (fw w) (spec w)
          (device_spectrum w) (device_power w) (faulty w).
Definition set_reads (n : nat) (w : World) : World :=
  mkWorld (trace w) (clock w) (scans w) n (fw w) (spec w)
          (device_spectrum w) (device_power w) (faulty w).
Definition set_fw (f : FlywheelController) (w : World) : World :=
  mkWorld (trace w) (clock w) (scans w) (reads w) f (spec w)
          (device_spectrum w) (device_power w) (faulty w).
Definition set_spec (s : CCS_Spectrometer) (w : World) : World :=
  mkWorld (trace w) (clock w) (scans w) (reads w) (fw w) s
          (device_spectrum w) (device_power w) (faulty w).

Definition get {A} (f : World -> A) : M A := fun w => (Ret (f w), w).
Definition modify (f : World -> World) : M unit := fun w => (Ret tt, f w).

Definition emit (e : Event) : M unit :=
  modify (fun w => set_trace (e :: trace w) w).

(** A call into the vendor layer: the attempt is traced, and the call raises
    when the laboratory says this call is faulty. *)
Definition hw (c : HwCall) : M unit :=
  emit (Hw c) ;;
  fun w => if faulty w c then (Raise (DeviceError c), w) else (Ret tt, w).

(** A session is opened; a non-zero status is turned into [RuntimeError]. *)
Definition open_session (c : HwCall) : M unit :=
  emit (Hw c) ;;
  fun w => if faulty w c then (Raise RuntimeError, w) else (Ret tt, w).

(** [time.sleep(d)]: a negative argument is a [ValueError]. *)
Definition sleep (d : Q) : M unit :=
  fun w => if Qle_bool 0 d then (Ret tt, set_clock (clock w + d)%Q w)
           else (Raise ValueError, w).

Definition time_time : M Q := get clock.

Fixpoint repeat_m (n : nat) (m : M unit) : M unit :=
  match n with
  | O => ret tt
  | S n' => m ;; repeat_m n' m
  end.

(** The part of [config_setup.json] the program reads.  Keys read with
    [.get(key, default)] are optional; the connection strings are taken to
    be present. *)
Record SetupConfig : Type := mkSetup {
  spectrometer_simulate : option bool;
  flywheel_slot_count : option Z;
  flywheel_slot_mapping : option (list (string * Z))
}.

Definition dict_get {A} (o : option A) (default : A) : A :=
  match o with Some a => a | None => default end.

(* ================================================================== *)
(** * flywheel.py *)

Module flywheel.

Definition set_current_slot (s : Z) : M unit :=
  modify (fun w => set_fw (mkFw (slot_count (fw w)) (slot_mapping (fw w)) s) w).

(** The actuator half of [_pulse_once] (lines 36-39). *)
Definition trigger_cycle : M unit :=
  hw (gen_output true) ;;
  hw gen_trigger ;;
  sleep (12 # 10) ;;
  hw (gen_output false).

Definition _pulse_once : M unit :=
  trigger_cycle ;;
  self <- get fw ;;
  set_current_slot (current_slot self + 1) ;;
  self <- get fw ;;
  if current_slot self >? slot_count self then set_current_slot 1 else ret tt.

(** [while self.current_slot != target_slot and attempts < max_attempts]. *)
Fixpoint go_to_slot_while (fuel : nat) (pulse : M unit)
    (target_slot max_attempts attempts : Z) : M Z :=
  fun w =>
    if negb (current_slot (fw w) =? target_slot) && (attempts <? max_attempts)
    then match fuel with
         | O => (OutOfFuel, w)
         | S fuel' =>
             (pulse ;;
              go_to_slot_while fuel' pulse target_slot max_attempts (attempts + 1)) w
         end
    else (Ret attempts, w).

(** [go_to_slot], with the method bound to [self._pulse_once] as a parameter. *)
Definition go_to_slot_with (pulse : M unit) (target_slot : Z) : M Z :=
  self <- get fw ;;
  if negb ((1 <=? target_slot) && (target_slot <=? slot_count self))
  then raise ValueError
  else if target_slot =? current_slot self
  then ret (current_slot self)
  else
    let max_attempts := slot_count self in
    go_to_slot_while (Z.to_nat max_attempts) pulse target_slot max_attempts 0 ;;
    self <- get fw ;;
    if negb (current_slot self =? target_slot)
    then raise RuntimeError
    else ret (current_slot self).

Definition go_to_slot : Z -> M Z := go_to_slot_with _pulse_once.

(** [for _ in range(n % self.slot_count)]: Python's [%] has the sign of the
    divisor, as [Z.modulo] has, and raises for a zero divisor. *)
Definition step (n : Z) : M unit :=
  self <- get fw ;;
  if slot_count self =? 0 then raise ZeroDivisionError
  else repeat_m (Z.to_nat (n mod slot_count self)) _pulse_once.

Definition reset_slot (known_slot : Z) : M unit :=
  self <- get fw ;;
  if negb ((1 <=? known_slot) && (known_slot <=? slot_count self))
  then raise ValueError
  else set_current_slot known_slot.

Definition get_current_slot : M Z :=
  self <- get fw ;; ret (current_slot self).

Definition __init__ (setup : SetupConfig) : M unit :=
  modify (set_fw (mkFw (dict_get (flywheel_slot_count setup) 6)
                       (dict_get (flywheel_slot_mapping setup) [])
                       1)) ;;
  hw visa_open ;;
  hw gen_configure ;;          (* shape, frequency, amplitude, offset, burst, trigger source *)
  hw (gen_output false).

Definition close : M unit :=
  emit (Enter fw_close) ;;
  hw (gen_output false) ;;
  hw visa_close.

End flywheel.
Import flywheel.

(* ================================================================== *)
(** * Python built-ins and numpy on one-dimensional arrays *)

Definition Qltb (x y : Q) : bool := negb (Qle_bool y x).

(** Python's [max(iterable, key=...)]: the first item is the candidate, a
    later item replaces it only when its key is strictly greater; an empty
    iterable is a [ValueError]. *)
Definition py_max_by {A} (key : A -> Q) (l : list A) : option A :=
  match l with
  | [] => None
  | x :: xs =>
      Some (fold_left (fun best item =>
                         if Qltb (key best) (key item) then item else best)
                      xs x)
  end.

Fixpoint zip_with {A B C} (f : A -> B -> C) (a : list A) (b : list B) : list C :=
  match a, b with
  | x :: a', y :: b' => f x y :: zip_with f a' b'
  | _, _ => []
  end.

(** [a - b] with numpy's broadcasting: equal lengths, or one side of
    length one; anything else is a [ValueError]. *)
Definition np_sub (a b : list Q) : option (list Q) :=
  if (List.length a =? List.length b)%nat then Some (zip_with Qminus a b)
  else match a, b with
       | _, [y] => Some (map (fun x => x - y)%Q a)
       | [x], _ => Some (map (fun y => x - y)%Q b)
       | _, _ => None
       end.

(** [np.clip(a, 0, None)]. *)
Definition clip0 (x : Q) : Q := if Qle_bool 0 x then x else 0%Q.
Definition np_clip0 (a : list Q) : list Q := map clip0 a.

(** [inten / power] for a scalar [power]. *)
Definition np_div_scalar (a : list Q) (power : Q) : list Q :=
  map (fun x => x / power)%Q a.

(** The two lines [inten = inten - background; inten = np.clip(inten, 0, None)]
    of [run_steady_state], [run_degradation_study] and [get_spectrum]. *)
Definition subtract_and_clip (inten background : list Q) : M (list Q) :=
  match np_sub inten background with
  | Some d => ret (np_clip0 d)
  | None => raise ValueError
  end.

Inductive MeanResult : Type :=
| MeanOk (a : list Q)
| MeanNan          (* empty stack: numpy warns and returns nan *)
| MeanRagged.      (* rows of different lengths: [ValueError] *)

Definition np_add (a b : list Q) : list Q := zip_with Qplus a b.

(** [np.mean(stack, axis=0)]: the rows are summed element by element and the
    sum is divided by the number of rows. *)
Definition np_mean_axis0 (stack : list (list Q)) : MeanResult :=
  match stack with
  | [] => MeanNan
  | row :: rows =>
      if forallb (fun r => (List.length r =? List.length row)%nat) rows
      then MeanOk (np_div_scalar (fold_left np_add rows row)
                                 (inject_Z (Z.of_nat (List.length stack))))
      else MeanRagged
  end.

Definition mean_or_raise (r : MeanResult) : M (list Q) :=
  match r with
  | MeanOk a => ret a
  | MeanNan => raise NanResult
  | MeanRagged => raise ValueError
  end.

(** [np.argmax]: index of the first maximum; [ValueError] on an empty array. *)
Fixpoint argmax_from (best : Q) (best_i i : nat) (a : list Q) : nat :=
  match a with
  | [] => best_i
  | x :: a' =>
      if Qltb best x then argmax_from x i (S i) a'
      else argmax_from best best_i (S i) a'
  end.

Definition np_argmax (a : list Q) : option nat :=
  match a with
  | [] => None
  | x :: a' => Some (argmax_from x 0%nat 1%nat a')
  end.

(** [wl[np.argmax(inten)]] and [np.max(inten)]. *)
Definition peak (wl inten : list Q) : M (Q * Q) :=
  match np_argmax inten with
  | None => raise ValueError
  | Some i =>
      match nth_error wl i, nth_error inten i with
      | Some peak_wl, Some peak_val => ret (peak_wl, peak_val)
      | _, _ => raise IndexError
      end
  end.

(** [plot_spectrum_single]: a chart of one spectrum with its peak marked,
    written to disk; [plt.plot] wants arrays of one length. *)
Definition plot_spectrum_single (wl inten : list Q) : M unit :=
  if (List.length wl =? List.length inten)%nat
  then peak wl inten ;; emit SavePlot
  else raise ValueError.

(** The live figure of a degradation cycle: the peak is looked up, the
    figure is redrawn (arrays of one length are wanted) and saved. *)
Definition live_plot (wl inten : list Q) : M unit :=
  peak wl inten ;;
  if (List.length wl =? List.length inten)%nat
  then emit SavePlot
  else raise ValueError.

(** Python truth of a mask bound: [None] and [0] are false. *)
Definition truthy (bound : option Q) : bool :=
  match bound with
  | Some q => negb (Qeq_bool q 0)
  | None => false
  end.

Definition in_mask (lo hi : Q) (x : Q) : bool := Qle_bool lo x && Qle_bool x hi.

(** [a[mask]] for a boolean [mask] computed from [wl]: an [IndexError] when
    the lengths differ. *)
Fixpoint select {A} (mask : list bool) (a : list A) : list A :=
  match mask, a with
  | true :: mask', x :: a' => x :: select mask' a'
  | false :: mask', _ :: a' => select mask' a'
  | _, _ => []
  end.

Definition np_select (mask : list bool) (a : list Q) : M (list Q) :=
  if (List.length mask =? List.length a)%nat then ret (select mask a)
  else raise IndexError.

(* ================================================================== *)
(** * pm.py *)

Module pm.

Definition __init__ : M unit := open_session PM100D_init.

Definition get_power : M Q :=
  hw PM100D_measPower ;;
  n <- get reads ;;
  power <- get (fun w => device_power w n) ;;
  modify (set_reads (S n)) ;;
  ret power.

Definition close : M unit :=
  emit (Enter pm_close) ;;
  hw PM100D_close.

(** [while (time.time() - start) < duration_s] of [get_power_over_time]. *)
Fixpoint get_power_over_time_while (fuel : nat) (start duration_s interval_s : Q)
    (readings timestamps : list Q) : M (list Q * list Q) :=
  now <- time_time ;;
  if Qltb (now - start) duration_s then
    match fuel with
    | O => out_of_fuel
    | S fuel' =>
        now <- time_time ;;
        let t := (now - start)%Q in
        p <- get_power ;;
        let readings := readings ++ [p] in
        let timestamps := timestamps ++ [t] in
        sleep interval_s ;;
        get_power_over_time_while fuel' start duration_s interval_s
                                  readings timestamps
    end
  else ret (timestamps, readings).

Definition get_power_over_time (fuel : nat) (duration_s interval_s : Q)
    : M (list Q * list Q) :=
  start <- time_time ;;
  get_power_over_time_while fuel start duration_s interval_s [] [].

End pm.

(* ================================================================== *)
(** * utils.py *)

Module utils.

(** The [for _ in range(fw.slot_count)] loop of
    [configure_flywheel_with_powermeter]. *)
Fixpoint scan_slots (n : nat) (measurements : list (Z * Q)) : M (list (Z * Q)) :=
  match n with
  | O => ret measurements
  | S n' =>
      slot <- get_current_slot ;;
      power <- pm.get_power ;;
      let measurements := measurements ++ [(slot, power)] in
      _pulse_once ;;
      scan_slots n' measurements
  end.

Definition configure_flywheel_with_powermeter : M unit :=
  self <- get fw ;;
  measurements <- scan_slots (Z.to_nat (slot_count self)) [] ;;
  match py_max_by snd measurements with
  | None => raise ValueError
  | Some (best_slot, best_power) =>
      go_to_slot best_slot ;;
      reset_slot 1
  end.

(** [save_csv_spectrum]: [np.column_stack] wants columns of one length. *)
Definition save_csv_spectrum (wavelengths intensities : list Q) : M unit :=
  if (List.length wavelengths =? List.length intensities)%nat
  then emit (SaveCsv wavelengths intensities)
  else raise ValueError.

End utils.
Import utils.


(* ================================================================== *)
(** * spectrometer.py *)

Module spectrometer.

Definition set_integration_time (seconds : Q) : M unit :=
  self <- get spec ;;
  modify (set_spec (mkSpec (simulate self) seconds (background self) (mask_range self))) ;;
  if negb (simulate self) then hw tlccs_setIntegrationTime else ret tt.

Definition __init__ (setup : SetupConfig) : M unit :=
  let simulate := dict_get (spectrometer_simulate setup) false in
  modify (set_spec (mkSpec simulate (1 # 2) None (None, None))) ;;
  if simulate then ret tt
  else open_session tlccs_init ;; set_integration_time (1 # 2).

Definition set_mask_range (min_nm max_nm : option Q) : M unit :=
  self <- get spec ;;
  modify (set_spec (mkSpec (simulate self) (integration_time self)
                           (background self) (min_nm, max_nm))).

(** A scan: the laboratory delivers its next spectrum.  In simulate mode the
    spectrum is synthesised and no vendor call is made. *)
Definition get_raw_spectrum : M (list Q * list Q) :=
  self <- get spec ;;
  (if simulate self then ret tt
   else hw tlccs_startScan ;; hw tlccs_getWavelengthData ;; hw tlccs_getScanData) ;;
  n <- get scans ;;
  raw <- get (fun w => device_spectrum w n) ;;
  modify (set_scans (S n)) ;;
  ret raw.

Definition capture_background : M (list Q) :=
  raw <- get_raw_spectrum ;;
  let bg := snd raw in
  self <- get spec ;;
  bg <- (if truthy (fst (mask_range self)) && truthy (snd (mask_range self))
         then raw2 <- get_raw_spectrum ;;
              let wl := fst raw2 in
              let lo := dict_get (fst (mask_range self)) 0%Q in
              let hi := dict_get (snd (mask_range self)) 0%Q in
              np_select (map (in_mask lo hi) wl) bg
         else ret bg) ;;
  self <- get spec ;;
  modify (set_spec (mkSpec (simulate self) (integration_time self)
                           (Some bg) (mask_range self))) ;;
  ret bg.

Definition get_spectrum (correct_bg : bool) : M (list Q * list Q) :=
  raw <- get_raw_spectrum ;;
  let wl := fst raw in
  let inten := snd raw in
  self <- get spec ;;
  masked <- (if truthy (fst (mask_range self)) && truthy (snd (mask_range self))
             then let lo := dict_get (fst (mask_range self)) 0%Q in
                  let hi := dict_get (snd (mask_range self)) 0%Q in
                  let mask := map (in_mask lo hi) wl in
                  wl' <- np_select mask wl ;;
                  inten' <- np_select mask inten ;;
                  ret (wl', inten')
             else ret (wl, inten)) ;;
  let wl := fst masked in
  let inten := snd masked in
  match correct_bg, background self with
  | true, Some bg =>
      inten <- subtract_and_clip inten bg ;;
      ret (wl, inten)
  | _, _ => ret (wl, inten)
  end.

Definition shutdown : M unit :=
  emit (Enter spec_shutdown) ;;
  self <- get spec ;;
  if negb (simulate self) then hw tlccs_close else ret tt.

End spectrometer.

(* ================================================================== *)
(** * experiment.py *)

(** The part of [config_user.json] the program reads; a key that is absent
    is [None]. *)
Record UserConfig : Type := mkUser {
  experiment_type : option string;
  mask_range_nm : option (option Q * option Q);
  integration_time_ms : option Q;
  auto_configure_flywheel : option bool;
  average_count : option Z;
  enable_averaging_key : option bool;
  background_mode : option string;
  background_correction : option bool;
  sample_count : option Z;
  degradation_duration_s : option Q;
  sampling_interval_s : option Q;
  normalization : option string;
  flywheel_mode : option string;
  repeated_bg : option bool
}.

Record PLExperiment : Type := mkExp {
  user_cfg : UserConfig;
  slots : list (string * Z);
  avg_count : Z;
  enable_averaging : bool;
  bg_mode : string
}.

(** [d[key]]: a missing key is a [KeyError]. *)
Definition dict_item {A} (o : option A) : M A :=
  match o with Some a => ret a | None => raise KeyError end.

Fixpoint assoc (key : string) (d : list (string * Z)) : option Z :=
  match d with
  | [] => None
  | (k, v) :: d' => if String.eqb k key then Some v else assoc key d'
  end.

(** [[m() for _ in range(n)]]. *)
Fixpoint comprehension {A} (n : nat) (m : M A) : M (list A) :=
  match n with
  | O => ret []
  | S n' => x <- m ;; xs <- comprehension n' m ;; ret (x :: xs)
  end.

(** An unbound local variable is read: [UnboundLocalError], a [NameError]. *)
Definition read_local {A} (v : option A) : M A :=
  match v with Some a => ret a | None => raise NameError end.

Module experiment.

Definition __init__ (user : UserConfig) (setup : SetupConfig) : M PLExperiment :=
  spectrometer.__init__ setup ;;
  pm.__init__ ;;
  flywheel.__init__ setup ;;
  (match mask_range_nm user with
   | Some (min_nm, max_nm) => spectrometer.set_mask_range min_nm max_nm
   | None => ret tt
   end) ;;
  ms <- dict_item (integration_time_ms user) ;;
  spectrometer.set_integration_time (ms / 1000) ;;
  (if dict_get (auto_configure_flywheel user) true
   then configure_flywheel_with_powermeter
   else ret tt) ;;
  self_fw <- get fw ;;
  ret (mkExp user
             (slot_mapping self_fw)
             (dict_get (average_count user) 1)
             (dict_get (enable_averaging_key user) false)
             (dict_get (background_mode user) "each"%string)).

Definition raw_intensity : M (list Q) :=
  raw <- spectrometer.get_raw_spectrum ;; ret (snd raw).

Definition average_spectrum (self : PLExperiment) : M (list Q * list Q) :=
  spectra <- comprehension (Z.to_nat (avg_count self)) raw_intensity ;;
  avg_inten <- mean_or_raise (np_mean_axis0 spectra) ;;
  raw <- spectrometer.get_raw_spectrum ;;
  let wl := fst raw in
  ret (wl, avg_inten).

(** [self.average_spectrum() if self.enable_averaging else
    self.spec.get_raw_spectrum()]. *)
Definition capture (self : PLExperiment) : M (list Q * list Q) :=
  if enable_averaging self then average_spectrum self
  else spectrometer.get_raw_spectrum.

(** The background frame: the mean of [avg_count] raw intensities when
    averaging is enabled, of one otherwise. *)
Definition background_frame (self : PLExperiment) : M (list Q) :=
  bg_stack <- (if enable_averaging self
               then comprehension (Z.to_nat (avg_count self)) raw_intensity
               else x <- raw_intensity ;; ret [x]) ;;
  mean_or_raise (np_mean_axis0 bg_stack).

Definition go_to_named_slot (self : PLExperiment) (name : string) : M Z :=
  s <- dict_item (assoc name (slots self)) ;;
  go_to_slot s.

Definition mirror_background (self : PLExperiment) : M (list Q) :=
  go_to_named_slot self "mirror" ;;
  sleep (1 # 2) ;;
  background_frame self.

(** One iteration of the sample loop of [run_steady_state]; [background] is
    the local variable of that name, [None] while it is unbound. *)
Definition steady_state_sample (self : PLExperiment) (i : Z)
    (background : option (list Q)) : M (option (list Q)) :=
  let bgcorr := dict_get (background_correction (user_cfg self)) true in
  emit (Prompt i) ;;
  background <- (if bgcorr && String.eqb (bg_mode self) "each"
                 then b <- mirror_background self ;; ret (Some b)
                 else ret background) ;;
  go_to_named_slot self "empty" ;;
  sleep (1 # 2) ;;
  captured <- capture self ;;
  let wl := fst captured in
  let inten := snd captured in
  inten <- (if bgcorr
            then b <- read_local background ;;
                 subtract_and_clip inten b
            else ret inten) ;;
  save_csv_spectrum wl inten ;;
  plot_spectrum_single wl inten ;;
  peak wl inten ;;
  emit ShowPlot ;;
  ret background.

Fixpoint steady_state_samples (self : PLExperiment) (indices : list Z)
    (background : option (list Q)) : M unit :=
  match indices with
  | [] => ret tt
  | i :: rest =>
      background <- steady_state_sample self i background ;;
      steady_state_samples self rest background
  end.

(** [range(1, n + 1)]. *)
Definition range1 (n : Z) : list Z :=
  map (fun k => Z.of_nat k + 1) (seq 0 (Z.to_nat n)).

Definition run_steady_state (self : PLExperiment) : M unit :=
  let bgcorr := dict_get (background_correction (user_cfg self)) true in
  background <- (if bgcorr && String.eqb (bg_mode self) "once"
                 then b <- mirror_background self ;; ret (Some b)
                 else ret None) ;;
  n <- dict_item (sample_count (user_cfg self)) ;;
  steady_state_samples self (range1 n) background ;;
  emit SavePlot.

(** Lines 155-171: the optical path of one degradation cycle.  Returns the
    reference power and the (possibly refreshed) local [background]. *)
Definition select_path (self : PLExperiment) (normalization flywheel_mode : string)
    (background : option (list Q)) : M (Q * option (list Q)) :=
  let cfg := user_cfg self in
  if negb (String.eqb flywheel_mode "skip") then
    if String.eqb normalization "mirror" then
      go_to_named_slot self "mirror" ;;
      sleep (1 # 2) ;;
      power <- pm.get_power ;;
      background <- (if dict_get (background_correction cfg) false
                        && dict_get (repeated_bg cfg) true
                     then b <- background_frame self ;; ret (Some b)
                     else ret background) ;;
      go_to_named_slot self "empty" ;;
      ret (power, background)
    else if String.eqb normalization "beam_splitter" then
      go_to_named_slot self "beam_splitter" ;;
      power <- pm.get_power ;;
      ret (power, background)
    else
      go_to_named_slot self "empty" ;;
      ret (1%Q, background)
  else ret (1%Q, background).

(** Lines 176-177. *)
Definition normalize (normalization : string) (power : Q) (inten : list Q) : list Q :=
  if negb (String.eqb normalization "none") && Qltb 0 power
  then np_div_scalar inten power
  else inten.

(** Lines 179-181. *)
Definition correct_background (cfg : UserConfig) (background : option (list Q))
    (inten : list Q) : M (list Q) :=
  if dict_get (background_correction cfg) false
  then b <- read_local background ;;
       subtract_and_clip inten b
  else ret inten.

(** The body of the [while] loop of [run_degradation_study]. *)
Definition degradation_cycle (self : PLExperiment)
    (interval : Q) (normalization flywheel_mode : string)
    (background : option (list Q)) : M (option (list Q)) :=
  path <- select_path self normalization flywheel_mode background ;;
  let power := fst path in
  let background := snd path in
  sleep (1 # 2) ;;
  captured <- capture self ;;
  let wl := fst captured in
  let inten := snd captured in
  let inten := normalize normalization power inten in
  inten <- correct_background (user_cfg self) background inten ;;
  live_plot wl inten ;;
  save_csv_spectrum wl inten ;;
  sleep (5 # 100) ;;
  sleep interval ;;
  ret background.

(** [while (time.time() - t0) < duration]. *)
Fixpoint degradation_while (fuel : nat) (self : PLExperiment)
    (t0 duration interval : Q) (normalization flywheel_mode : string)
    (background : option (list Q)) : M unit :=
  now <- time_time ;;
  if Qltb (now - t0) duration then
    match fuel with
    | O => out_of_fuel
    | S fuel' =>
        background <- degradation_cycle self interval normalization
                                        flywheel_mode background ;;
        degradation_while fuel' self t0 duration interval normalization
                          flywheel_mode background
    end
  else ret tt.

Definition run_degradation_study (fuel : nat) (self : PLExperiment) : M unit :=
  let cfg := user_cfg self in
  duration <- dict_item (degradation_duration_s cfg) ;;
  interval <- dict_item (sampling_interval_s cfg) ;;
  normalization <- dict_item (normalization cfg) ;;
  flywheel_mode <- dict_item (flywheel_mode cfg) ;;
  t0 <- time_time ;;
  background <- (if dict_get (background_correction cfg) false
                    && negb (dict_get (repeated_bg cfg) true)
                 then b <- mirror_background self ;; ret (Some b)
                 else ret None) ;;
  degradation_while fuel self t0 duration interval normalization
                    flywheel_mode background ;;
  try_except (emit SummaryPlots) (fun _ => ret tt).

(** [run_pre_tuning]: the wheel goes to the empty slot; the streaming thread,
    the input thread and the display loop that follow are the parameter
    [live_tuning]. *)
Definition run_pre_tuning (live_tuning : M unit) (self : PLExperiment) : M unit :=
  go_to_named_slot self "empty" ;;
  live_tuning.

Definition shutdown : M unit :=
  spectrometer.shutdown ;;
  pm.close ;;
  flywheel.close.

End experiment.

(* ================================================================== *)
(** * main.py *)

(** The body of the [try] block: the [if]/[elif] chain on the experiment
    type. *)
Definition run_selected_mode (live_tuning : M unit) (fuel : nat)
    (experiment_type : string) (exp : PLExperiment) : M unit :=
  if String.eqb experiment_type "steady_state" then
    experiment.run_steady_state exp
  else if String.eqb experiment_type "degradation" then
    experiment.run_degradation_study fuel exp
  else if String.eqb experiment_type "pre_tuning" then
    experiment.run_pre_tuning live_tuning exp
  else raise ValueError.

Definition main (live_tuning : M unit) (fuel : nat)
    (config : UserConfig) (setup : SetupConfig) : M unit :=
  let experiment_type := dict_get (experiment_type config) "degradation"%string in
  exp <- experiment.__init__ config setup ;;
  try_finally
    (run_selected_mode live_tuning fuel experiment_type exp)
    experiment.shutdown.
(* ================================================================== *)
(** * Notions used in the statements *)

(** Pulses sent to the actuator so far; the physical wheel has advanced by
    this many slots since the trace began. *)
Definition is_pulse (e : Event) : bool :=
  match e with Hw gen_trigger => true | _ => false end.
Definition pulses (w : World) : Z :=
  Z.of_nat (List.length (filter is_pulse (trace w))).

Definition gen_healthy (w : World) : Prop :=
  faulty w (gen_output true) = false /\
  faulty w gen_trigger = false /\
  faulty w (gen_output false) = false.

(** A tracker that lost its bookkeeping: the actuator is driven, the tracked
    position is not touched. *)
Definition _pulse_once_untracked : M unit := trigger_cycle.

(** The world after one healthy actuator cycle. *)
Definition triggered (w : World) : World :=
  set_trace (Hw (gen_output false) :: Hw gen_trigger :: Hw (gen_output true) :: trace w)
            (set_clock (clock w + (12 # 10))%Q w).

Definition next_slot (N c : Z) : Z := if c + 1 >? N then 1 else c + 1.

Definition pulsed (w : World) : World :=
  set_fw (mkFw (slot_count (fw w)) (slot_mapping (fw w))
               (next_slot (slot_count (fw w)) (current_slot (fw w))))
         (triggered w).

(** Pulses needed to bring the tracked position from [c] to [s]. *)
Definition distance (N c s : Z) : Z := (s - c) mod N.

(** A laboratory with a six-slot wheel where nothing fails, used to run the
    definitions on concrete inputs. *)
Definition demo_spectrum (n : nat) : list Q * list Q :=
  ([700; 800; 900]%Q, [inject_Z (Z.of_nat n) + 2; 40; 3 # 2]%Q).

Definition demo_power (n : nat) : Q :=
  nth n [2 # 10; 5 # 10; 9 # 10; 9 # 10; 1 # 10; 3 # 10]%Q (1 # 100)%Q.

Definition demo_mapping : list (string * Z) :=
  [("mirror"%string, 1); ("empty"%string, 2); ("beam_splitter"%string, 3)].

Definition demo_world (current : Z) : World :=
  mkWorld [] 0%Q 0%nat 0%nat
          (mkFw 6 demo_mapping current)
          (mkSpec false (1 # 2)%Q None (None, None))
          demo_spectrum demo_power (fun _ => false).


(** The world after one healthy power reading, and after one step of the
    calibration scan (a reading, then a pulse). *)
Definition metered (w : World) : World :=
  set_reads (S (reads w)) (set_trace (Hw PM100D_measPower :: trace w) w).

Definition scanned (w : World) : World := pulsed (metered w).

Definition lab_healthy (w : World) : Prop :=
  gen_healthy w /\ faulty w PM100D_measPower = false.

(** What the calibration scan records on a wheel of [N] slots started at
    tracked position 1: slot [k + 1] with the [k]-th reading from now. *)
Definition recorded (w : World) : list (Z * Q) :=
  map (fun k => (Z.of_nat k + 1, device_power w (reads w + k)%nat))
      (seq 0 (Z.to_nat (slot_count (fw w)))).

(** The world after one healthy scan of the spectrometer. *)
Definition scan_events (w : World) : list Event :=
  if simulate (spec w) then []
  else [Hw tlccs_getScanData; Hw tlccs_getWavelengthData; Hw tlccs_startScan].

Definition acquired (w : World) : World :=
  set_scans (S (scans w)) (set_trace (scan_events w ++ trace w) w).

Definition spec_healthy (w : World) : Prop :=
  simulate (spec w) = true
  \/ (faulty w tlccs_startScan = false
      /\ faulty w tlccs_getWavelengthData = false
      /\ faulty w tlccs_getScanData = false).

(** A degradation configuration and the experiment object built from it. *)
Definition demo_user (experiment : string) (flywheel : string) : UserConfig :=
  mkUser (Some experiment) None (Some 500%Q) (Some false) (Some 1) (Some true)
         (Some "each"%string) (Some true) (Some 0) (Some 2%Q) (Some 1%Q)
         (Some "mirror"%string) (Some flywheel) None.

Definition demo_exp (flywheel : string) : PLExperiment :=
  mkExp (demo_user "degradation" flywheel) demo_mapping 1 true "each".

(** The wavelength axis of the spectrometer does not depend on the scan: in
    simulate mode it is [np.linspace(200, 1100, 3648)] (line 57), on the
    instrument it is calibration data set 0 read back by
    [tlccs_getWavelengthData] (line 66). *)
Definition fixed_axis (w : World) : Prop :=
  forall k, fst (device_spectrum w k) = fst (device_spectrum w 0%nat).

(** The next scan after the mask of [get_spectrum] (lines 74-76): the points
    whose wavelength lies within the two bounds when both bounds are true
    for Python, the whole scan otherwise. *)
Definition masked_scan (w : World) : list Q * list Q :=
  let raw := device_spectrum w (scans w) in
  let lo := fst (mask_range (spec w)) in
  let hi := snd (mask_range (spec w)) in
  if truthy lo && truthy hi
  then let mask := map (in_mask (dict_get lo 0%Q) (dict_get hi 0%Q)) (fst raw) in
       (select mask (fst raw), select mask (snd raw))
  else raw.

(** The demonstration laboratory with a power meter that reads slightly
    below zero at every place, as a zeroed meter does in the dark. *)
Definition dark_power (n : nat) : Q := (- (1 # 10))%Q.

Definition dark_world : World :=
  mkWorld [] 0%Q 0%nat 0%nat
          (mkFw 6 demo_mapping 1)
          (mkSpec false (1 # 2)%Q None (None, None))
          demo_spectrum dark_power (fun _ => false).

(** A configuration with an experiment type that is none of the three and
    no [auto_configure_flywheel] key, so that auto-configuration is on. *)
Definition calibration_user : UserConfig :=
  mkUser (Some "calibration"%string) None (Some 500%Q) None (Some 1) (Some true)
         (Some "each"%string) (Some true) (Some 0) (Some 2%Q) (Some 1%Q)
         (Some "mirror"%string) (Some "skip"%string) None.

(** The spectra written to disk so far, newest first. *)
Definition is_save (e : Event) : bool :=
  match e with SaveCsv _ _ => true | _ => false end.
Definition persisted (w : World) : list Event := filter is_save (trace w).

(** A computation that writes no spectrum to disk, however it ends. *)
Definition quiet {A} (m : M A) : Prop :=
  forall w o w', m w = (o, w') -> persisted w' = persisted w.

(** A computation that writes no spectrum to disk and never returns
    normally. *)
Definition fails_quietly {A} (m : M A) : Prop :=
  forall w o w', m w = (o, w') ->
                 persisted w' = persisted w /\ forall a, o <> Ret a.

(** A computation that only adds to the trace. *)
Definition grows {A} (m : M A) : Prop :=
  forall w o w', m w = (o, w') -> exists events, trace w' = events ++ trace w.

(** An experiment type that [main] does not know. *)
Definition unrecognized (experiment_type : string) : Prop :=
  String.eqb experiment_type "steady_state" = false
  /\ String.eqb experiment_type "degradation" = false
  /\ String.eqb experiment_type "pre_tuning" = false.

(** How a [finally] block that ended with [o_fin] changes the outcome [o] of
    the [try] block. *)
Definition after_finally {A} (o : Outcome A) (o_fin : Outcome unit) : Outcome A :=
  match o_fin with
  | Ret _ => o
  | Raise e => Raise e
  | OutOfFuel => OutOfFuel
  end.

(** What the spectrometer's shutdown hook adds to the trace. *)
Definition spec_shutdown_events (w : World) : list Event :=
  if simulate (spec w) then [Enter spec_shutdown]
  else [Hw tlccs_close; Enter spec_shutdown].

Definition spec_hook_returns (w : World) : Prop :=
  simulate (spec w) = true \/ faulty w tlccs_close = false.

Definition demo_setup : SetupConfig := mkSetup None (Some 6) (Some demo_mapping).

(** The demonstration laboratory with a spectrometer whose close call fails. *)
Definition stuck_close_world : World :=
  mkWorld [] 0%Q 0%nat 0%nat
          (mkFw 6 demo_mapping 1)
          (mkSpec false (1 # 2)%Q None (None, None))
          demo_spectrum demo_power
          (fun c => match c with tlccs_close => true | _ => false end).

(** The hardware sessions opened so far, newest first. *)
Definition opens_session (e : Event) : bool :=
  match e with
  | Hw tlccs_init | Hw PM100D_init | Hw visa_open => true
  | _ => false
  end.
Definition sessions_opened (w : World) : list Event :=
  filter opens_session (trace w).

(** The shutdown hooks entered so far, newest first. *)
Definition enters_hook (e : Event) : bool :=
  match e with Enter _ => true | _ => false end.
Definition hooks_entered (w : World) : list Event :=
  filter enters_hook (trace w).
From Stdlib Require Import Qround.


(* ================================================================== *)
(** * Further notions used in the statements *)

(** A property of the world that a computation keeps, however it ends. *)
Definition preserves {A} (P : World -> Prop) (m : M A) : Prop :=
  forall w o w', m w = (o, w') -> P w -> P w'.

(** Properties that do not look at the trace, or at the clock. *)
Definition trace_blind (P : World -> Prop) : Prop :=
  forall t w, P w -> P (set_trace t w).
Definition clock_blind (P : World -> Prop) : Prop :=
  forall c w, P w -> P (set_clock c w).

(** The tracked position is a slot of the wheel. *)
Definition slot_in_range (w : World) : Prop :=
  1 <= current_slot (fw w) <= slot_count (fw w).

(** The offset between the tracked position and the pulses sent: it stays
    the same, modulo the slot count, as long as tracker and wheel agree. *)
Definition tracker_offset (w : World) : Z :=
  (current_slot (fw w) - pulses w) mod slot_count (fw w).

(** The tracked position [k] slots after [c] on a wheel of [N] slots. *)
Definition slot_after (N c : Z) (k : Z) : Z := (c - 1 + k) mod N + 1.

(** A wheel whose generator accepts the output-on and trigger commands and
    raises on the output-off command that ends the pulse. *)
Definition output_off_fails (w : World) : Prop :=
  faulty w (gen_output true) = false
  /\ faulty w gen_trigger = false
  /\ faulty w (gen_output false) = true.

Definition output_off_broken_world (current : Z) : World :=
  mkWorld [] 0%Q 0%nat 0%nat
          (mkFw 6 demo_mapping current)
          (mkSpec false (1 # 2)%Q None (None, None))
          demo_spectrum demo_power
          (fun c => match c with gen_output false => true | _ => false end).

(** A natural number as a rational. *)
Definition Qnat (k : nat) : Q := inject_Z (Z.of_nat k).

(** The world after one turn of [get_power_over_time]: a reading, then a
    sleep of [interval_s]. *)
Definition sampled (interval_s : Q) (w : World) : World :=
  set_clock (clock (metered w) + interval_s)%Q (metered w).

(** A mask bound that Python takes for false: absent, or zero. *)
Definition falsy_bound (bound : option Q) : Prop :=
  bound = None \/ exists q, bound = Some q /\ (q == 0)%Q.

(** The spectrometer is simulated and the trace is [t]. *)
Definition simulated_with_trace (t : list Event) (w : World) : Prop :=
  simulate (spec w) = true /\ trace w = t.

(** A laboratory whose spectrometer is simulated, with a mask range. *)
Definition masked_world (sim : bool) (lo hi : option Q) : World :=
  mkWorld [] 0%Q 0%nat 0%nat
          (mkFw 6 demo_mapping 1)
          (mkSpec sim (1 # 2)%Q None (lo, hi))
          (fun _ => ([700; 800; 900]%Q, [3; 40; 3 # 2]%Q))
          demo_power (fun _ => false).

(** A computation that only adds events satisfying [q] to the trace. *)
Definition emits_only {A} (q : Event -> bool) (m : M A) : Prop :=
  forall w o w', m w = (o, w') ->
                 exists events, trace w' = events ++ trace w
                                /\ forallb q events = true.

(** Events of the shutdown: a hook is entered, or a close call is made. *)
Definition closes (e : Event) : bool :=
  match e with
  | Enter _ | Hw tlccs_close | Hw PM100D_close | Hw visa_close => true
  | _ => false
  end.
Definition shutdown_events (w : World) : list Event := filter closes (trace w).

(** The wheel has [N] slots named by [mapping]. *)
Definition wheel_shape (N : Z) (mapping : list (string * Z)) (w : World) : Prop :=
  slot_count (fw w) = N /\ slot_mapping (fw w) = mapping.

(** The demonstration laboratory with a power meter that does not open. *)
Definition no_power_meter_world : World :=
  mkWorld [] 0%Q 0%nat 0%nat
          (mkFw 6 demo_mapping 1)
          (mkSpec false (1 # 2)%Q None (None, None))
          demo_spectrum demo_power
          (fun c => match c with PM100D_init => true | _ => false end).

(** An experiment object that averages three scans. *)
Definition averaging_exp : PLExperiment :=
  mkExp (demo_user "steady_state" "skip") demo_mapping 3 true "each".

(** A steady-state configuration, and objects with a given background mode. *)
Definition steady_user (mode : string) (samples : option Z) : UserConfig :=
  mkUser (Some "steady_state"%string) None (Some 500%Q) (Some false) (Some 1)
         (Some false) (Some mode) None samples None None None None None.

Definition steady_exp (mode : string) (samples : option Z) : PLExperiment :=
  mkExp (steady_user mode samples) demo_mapping 1 false mode.

(** The world after the prompt for sample [i]. *)
Definition prompted (i : Z) (w : World) : World :=
  set_trace (Prompt i :: trace w) w.

(** The world after a sleep of [d] seconds. *)
Definition slept (d : Q) (w : World) : World := set_clock (clock w + d)%Q w.

(** Every scan of the laboratory has as many wavelengths as intensities,
    and at least one. *)
Definition well_formed_scans (w : World) : Prop :=
  forall k, List.length (fst (device_spectrum w k))
            = List.length (snd (device_spectrum w k))
            /\ snd (device_spectrum w k) <> [].

(** The world after one degradation cycle in skip mode without background
    correction: half a second of settling, one scan, the chart and the CSV
    of that scan, the pause of the plot and the sampling interval. *)
Definition skip_cycled (interval : Q) (w : World) : World :=
  let raw := device_spectrum w (scans w) in
  let w2 := acquired (slept (1 # 2) w) in
  let w3 := set_trace (SavePlot :: trace w2) w2 in
  let w4 := set_trace (SaveCsv (fst raw) (snd raw) :: trace w3) w3 in
  slept interval (slept (5 # 100) w4).

(** The length of such a cycle on the clock of the model. *)
Definition skip_period (interval : Q) : Q := ((1 # 2) + (5 # 100) + interval)%Q.

(** The spectra of the scans [s], [s + 1], ..., [s + m - 1] as they stand in
    the trace, newest first. *)
Definition saved_scans (w : World) (s m : nat) : list Event :=
  rev (map (fun k => SaveCsv (fst (device_spectrum w (s + k)%nat))
                             (snd (device_spectrum w (s + k)%nat)))
           (seq 0 m)).

(** A degradation configuration in skip mode without background correction,
    and its experiment object (no averaging). *)
Definition skip_user (duration interval : Q) (norm : string) : UserConfig :=
  mkUser (Some "degradation"%string) None (Some 500%Q) (Some false) (Some 1)
         (Some false) None (Some false) None (Some duration) (Some interval)
         (Some norm) (Some "skip"%string) None.

Definition skip_exp (duration interval : Q) (norm : string) : PLExperiment :=
  mkExp (skip_user duration interval norm) demo_mapping 1 false "each".

(** The world after one sample of a steady-state run without background
    correction: the prompt, the move to slot [e], half a second of settling,
    one scan, then the CSV, the chart and the live figure of that scan. *)
Definition steady_cycled (e i : Z) (w : World) : World :=
  let raw := device_spectrum w (scans w) in
  let w1 := Nat.iter (Z.to_nat (distance (slot_count (fw w)) (current_slot (fw w)) e))
                     pulsed (prompted i w) in
  let w2 := acquired (slept (1 # 2) w1) in
  set_trace (ShowPlot :: SavePlot :: SaveCsv (fst raw) (snd raw) :: trace w2) w2.

(** A steady-state configuration with background correction switched off,
    and its experiment object (no averaging). *)
Definition uncorrected_user (samples : Z) : UserConfig :=
  mkUser (Some "steady_state"%string) None (Some 500%Q) (Some false) (Some 1)
         (Some false) (Some "each"%string) (Some false) (Some samples)
         None None None None None.

Definition uncorrected_exp (samples : Z) : PLExperiment :=
  mkExp (uncorrected_user samples) demo_mapping 1 false "each".

(** What the laboratory must satisfy for the samples of a steady-state run
    to go through with the empty slot at [e]. *)
Definition ready_for_samples (e : Z) (w : World) : Prop :=
  gen_healthy w /\ spec_healthy w /\ well_formed_scans w
  /\ slot_in_range w /\ 1 <= e <= slot_count (fw w).
(* ================================================================== *)
(** * Theorems: the filter-wheel position tracker *)

Lemma trigger_cycle_healthy (w : World) :
  gen_healthy w -> trigger_cycle w = (Ret tt, triggered w).
Proof.
  intros (Hon & Htr & Hoff).
  unfold trigger_cycle, hw, bind, emit, modify, sleep, triggered; simpl.
  rewrite Hon; simpl. rewrite Htr; simpl. rewrite Hoff. reflexivity.
Qed.

Lemma pulse_once_healthy (w : World) :
  gen_healthy w -> _pulse_once w = (Ret tt, pulsed w).
Proof.
  intros H. unfold _pulse_once, bind at 1.
  rewrite (trigger_cycle_healthy w H).
  unfold bind, get, set_current_slot, modify, pulsed, next_slot; simpl.
  destruct (current_slot (fw w) + 1 >? slot_count (fw w)); reflexivity.
Qed.

Lemma triggered_pulses (w : World) : pulses (triggered w) = pulses w + 1.
Proof. unfold pulses, triggered; simpl. lia. Qed.

Lemma pulsed_pulses (w : World) : pulses (pulsed w) = pulses w + 1.
Proof. unfold pulsed. apply triggered_pulses. Qed.

Lemma pulsed_fw (w : World) :
  fw (pulsed w) = mkFw (slot_count (fw w)) (slot_mapping (fw w))
                       (next_slot (slot_count (fw w)) (current_slot (fw w))).
Proof. reflexivity. Qed.

Lemma triggered_healthy (w : World) : gen_healthy w -> gen_healthy (triggered w).
Proof. exact (fun H => H). Qed.

Lemma pulsed_healthy (w : World) : gen_healthy w -> gen_healthy (pulsed w).
Proof. exact (fun H => H). Qed.

Lemma distance_same (N c : Z) : distance N c c = 0.
Proof. unfold distance. rewrite Z.sub_diag. apply Zmod_0_l. Qed.

Lemma distance_range (N c s : Z) : 0 < N -> 0 <= distance N c s < N.
Proof. intros; unfold distance; apply Z.mod_pos_bound; lia. Qed.

Lemma distance_next (N c s : Z) :
  1 <= c <= N -> 1 <= s <= N -> c <> s ->
  distance N c s = distance N (next_slot N c) s + 1.
Proof.
  intros Hc Hs Hne. unfold distance, next_slot.
  destruct (Z.gtb_spec (c + 1) N) as [Hw | Hw].
  - assert (c = N) by lia; subst c.
    rewrite (Z.mod_small (s - 1)) by lia.
    replace (s - N) with (s + (-1) * N) by lia.
    rewrite Z.mod_add by lia. rewrite Z.mod_small; lia.
  - destruct (Z.lt_ge_cases c s).
    + rewrite !Z.mod_small; lia.
    + replace (s - c) with (s - c + N + (-1) * N) by lia.
      replace (s - (c + 1)) with (s - (c + 1) + N + (-1) * N) by lia.
      rewrite !Z.mod_add by lia. rewrite !Z.mod_small; lia.
Qed.

Lemma next_slot_range (N c : Z) : 1 <= c <= N -> 1 <= next_slot N c <= N.
Proof. unfold next_slot; destruct (Z.gtb_spec (c + 1) N); lia. Qed.

(** The loop with the real [_pulse_once]: it stops at the target after
    [distance] pulses, whatever the attempt counter started at, as long as
    the remaining budget covers the distance. *)
Lemma go_to_slot_while_reaches (fuel : nat) :
  forall (w : World) (s attempts : Z),
    gen_healthy w ->
    1 <= current_slot (fw w) <= slot_count (fw w) ->
    1 <= s <= slot_count (fw w) ->
    attempts + distance (slot_count (fw w)) (current_slot (fw w)) s
      <= slot_count (fw w) ->
    distance (slot_count (fw w)) (current_slot (fw w)) s <= Z.of_nat fuel ->
    exists w',
      go_to_slot_while fuel _pulse_once s (slot_count (fw w)) attempts w
        = (Ret (attempts + distance (slot_count (fw w)) (current_slot (fw w)) s), w')
      /\ current_slot (fw w') = s
      /\ slot_count (fw w') = slot_count (fw w)
      /\ slot_mapping (fw w') = slot_mapping (fw w)
      /\ pulses w' = pulses w + distance (slot_count (fw w)) (current_slot (fw w)) s.
Proof.
  induction fuel as [| fuel IH]; intros w s attempts Hh Hc Hs Hbudget Hfuel.
  - assert (Hd : distance (slot_count (fw w)) (current_slot (fw w)) s = 0).
    { pose proof (distance_range (slot_count (fw w)) (current_slot (fw w)) s). lia. }
    destruct (Z.eq_dec (current_slot (fw w)) s) as [He | Hne].
    + exists w. simpl. rewrite He, Z.eqb_refl. simpl.
      rewrite He in Hd. rewrite Hd. repeat split; try lia. f_equal. f_equal. lia.
    + rewrite (distance_next _ _ _ Hc Hs Hne) in Hd.
      pose proof (distance_range (slot_count (fw w))
                    (next_slot (slot_count (fw w)) (current_slot (fw w))) s). lia.
  - destruct (Z.eq_dec (current_slot (fw w)) s) as [He | Hne].
    + exists w. simpl. rewrite He, Z.eqb_refl. simpl.
      rewrite distance_same. repeat split; try lia. f_equal. f_equal. lia.
    + pose proof (distance_next _ _ _ Hc Hs Hne) as Hd.
      pose proof (distance_range (slot_count (fw w))
                    (next_slot (slot_count (fw w)) (current_slot (fw w))) s) as Hr.
      simpl. apply Z.eqb_neq in Hne. rewrite Hne. simpl.
      replace (attempts <? slot_count (fw w)) with true
        by (symmetry; apply Z.ltb_lt; lia).
      unfold bind at 1. rewrite (pulse_once_healthy w Hh).
      destruct (IH (pulsed w) s (attempts + 1)) as (w' & Hrun & Hcur & Hn & Hm & Hp);
        rewrite ?pulsed_fw; cbn [slot_count current_slot slot_mapping].
      * apply pulsed_healthy, Hh.
      * apply next_slot_range, Hc.
      * exact Hs.
      * lia.
      * lia.
      * rewrite pulsed_fw in Hrun, Hn, Hm, Hp.
        cbn [slot_count current_slot slot_mapping] in Hrun, Hn, Hm, Hp.
        exists w'. rewrite Hrun. rewrite pulsed_pulses in Hp.
        repeat split; try assumption; try lia. f_equal. f_equal. lia.
Qed.

(** The loop with a pulse that leaves the tracked position alone: it spends
    the whole budget. *)
Lemma go_to_slot_while_untracked (fuel : nat) :
  forall (w : World) (s N attempts : Z),
    gen_healthy w ->
    current_slot (fw w) <> s ->
    attempts <= N ->
    Z.of_nat fuel = N - attempts ->
    exists w',
      go_to_slot_while fuel _pulse_once_untracked s N attempts w = (Ret N, w')
      /\ fw w' = fw w
      /\ pulses w' = pulses w + (N - attempts).
Proof.
  induction fuel as [| fuel IH]; intros w s N attempts Hh Hne Hle Hfuel.
  - exists w. simpl. replace (attempts <? N) with false
      by (symmetry; apply Z.ltb_ge; lia).
    rewrite andb_false_r. repeat split; try lia. f_equal. f_equal. lia.
  - simpl. pose proof Hne as Hne'. apply Z.eqb_neq in Hne'. rewrite Hne'. simpl.
    replace (attempts <? N) with true by (symmetry; apply Z.ltb_lt; lia).
    unfold bind at 1. unfold _pulse_once_untracked at 1.
    rewrite (trigger_cycle_healthy w Hh).
    destruct (IH (triggered w) s N (attempts + 1)) as (w' & Hrun & Hfw & Hp);
      try assumption; try lia.
    exists w'. rewrite Hrun. rewrite triggered_pulses in Hp.
    repeat split; try assumption. lia.
Qed.

(** [go_to_slot] on a healthy wheel whose tracked position is a slot. *)
Lemma go_to_slot_reaches (w : World) (s : Z) :
  gen_healthy w ->
  1 <= s <= slot_count (fw w) ->
  1 <= current_slot (fw w) <= slot_count (fw w) ->
  exists w',
    go_to_slot s w = (Ret s, w')
    /\ current_slot (fw w') = s
    /\ slot_count (fw w') = slot_count (fw w)
    /\ slot_mapping (fw w') = slot_mapping (fw w)
    /\ pulses w' = pulses w + distance (slot_count (fw w)) (current_slot (fw w)) s.
Proof.
  intros Hh Hs Hc.
  assert (Hvalid : (1 <=? s) && (s <=? slot_count (fw w)) = true).
  { apply andb_true_iff; split; apply Z.leb_le; lia. }
  pose proof (distance_range (slot_count (fw w)) (current_slot (fw w)) s) as Hr.
  unfold go_to_slot, go_to_slot_with, bind at 1, get. rewrite Hvalid. simpl.
  destruct (Z.eqb_spec s (current_slot (fw w))) as [He | Hne].
  - exists w. unfold ret. rewrite <- He. rewrite distance_same.
    repeat split; lia.
  - destruct (go_to_slot_while_reaches (Z.to_nat (slot_count (fw w))) w s 0)
      as (w' & Hrun & Hcur & Hn & Hm & Hp); try assumption; try lia.
    exists w'. unfold bind at 1. rewrite Hrun.
    unfold bind. rewrite Hcur, Z.eqb_refl. simpl. unfold ret.
    repeat split; assumption.
Qed.

(** C1.  On a wheel with [N >= 1] slots whose tracked position is a slot,
    [go_to_slot s] for a slot [s] returns [s] with the tracked position at
    [s], after [(s - current) mod N] pulses, which is fewer than [N]: the
    [RuntimeError] branch is not taken.  With a pulse that drives the
    actuator and leaves the tracked position alone, a call for a slot other
    than the current one raises [RuntimeError] after exactly [N] pulses. *)
Theorem go_to_slot_terminates_within_slot_count (w : World) (s : Z) :
  gen_healthy w ->
  1 <= s <= slot_count (fw w) ->
  1 <= current_slot (fw w) <= slot_count (fw w) ->
  (exists w',
      go_to_slot s w = (Ret s, w')
      /\ current_slot (fw w') = s
      /\ pulses w' - pulses w = (s - current_slot (fw w)) mod slot_count (fw w)
      /\ pulses w' - pulses w <= slot_count (fw w))
  /\ (current_slot (fw w) <> s ->
      exists w',
        go_to_slot_with _pulse_once_untracked s w = (Raise RuntimeError, w')
        /\ current_slot (fw w') = current_slot (fw w)
        /\ pulses w' - pulses w = slot_count (fw w)).
Proof.
  intros Hh Hs Hc.
  split.
  - destruct (go_to_slot_reaches w s Hh Hs Hc) as (w' & Hrun & Hcur & _ & _ & Hp).
    pose proof (distance_range (slot_count (fw w)) (current_slot (fw w)) s) as Hr.
    unfold distance in Hp, Hr.
    set (d := (s - current_slot (fw w)) mod slot_count (fw w)) in *.
    exists w'. repeat split; try assumption; lia.
  - intros Hne.
    assert (Hvalid : (1 <=? s) && (s <=? slot_count (fw w)) = true).
    { apply andb_true_iff; split; apply Z.leb_le; lia. }
    unfold go_to_slot_with, bind at 1, get. rewrite Hvalid. simpl.
    replace (s =? current_slot (fw w)) with false
      by (symmetry; apply Z.eqb_neq; lia).
    destruct (go_to_slot_while_untracked (Z.to_nat (slot_count (fw w))) w s
                (slot_count (fw w)) 0) as (w' & Hrun & Hfw & Hp);
      try assumption; try lia.
    exists w'. unfold bind at 1. rewrite Hrun.
    unfold bind. rewrite Hfw.
    replace (current_slot (fw w) =? s) with false
      by (symmetry; apply Z.eqb_neq; lia).
    simpl. unfold raise. repeat split; lia.
Qed.

Lemma go_to_slot_terminates_within_slot_count_witness :
  (exists w',
      go_to_slot 2 (demo_world 5) = (Ret 2, w')
      /\ current_slot (fw w') = 2
      /\ pulses w' - pulses (demo_world 5) = (2 - 5) mod 6
      /\ pulses w' - pulses (demo_world 5) <= 6)
  /\ (5 <> 2 ->
      exists w',
        go_to_slot_with _pulse_once_untracked 2 (demo_world 5)
          = (Raise RuntimeError, w')
        /\ current_slot (fw w') = 5
        /\ pulses w' - pulses (demo_world 5) = 6).
Proof.
  apply (go_to_slot_terminates_within_slot_count (demo_world 5) 2).
  - repeat split.
  - simpl; lia.
  - simpl; lia.
Defined.

(** C2.  When the tracked position already is the valid target [s],
    [go_to_slot s] returns it and leaves the whole world as it was: no
    pulse, no change of the tracked position.  This holds whatever
    [_pulse_once] is bound to. *)
Theorem go_to_slot_at_target_is_noop (pulse : M unit) (w : World) (s : Z) :
  1 <= s <= slot_count (fw w) ->
  current_slot (fw w) = s ->
  go_to_slot_with pulse s w = (Ret (current_slot (fw w)), w)
  /\ pulses (snd (go_to_slot s w)) = pulses w
  /\ current_slot (fw (snd (go_to_slot s w))) = current_slot (fw w).
Proof.
  intros Hs He.
  assert (Hrun : forall p, go_to_slot_with p s w = (Ret (current_slot (fw w)), w)).
  { intros p. unfold go_to_slot_with, bind, get.
    replace ((1 <=? s) && (s <=? slot_count (fw w))) with true
      by (symmetry; apply andb_true_iff; split; apply Z.leb_le; lia).
    simpl. rewrite He, Z.eqb_refl. reflexivity. }
  split; [apply Hrun |].
  unfold go_to_slot. rewrite Hrun. split; reflexivity.
Qed.

Lemma go_to_slot_at_target_is_noop_witness :
  go_to_slot_with _pulse_once_untracked 4 (demo_world 4) = (Ret 4, demo_world 4)
  /\ pulses (snd (go_to_slot 4 (demo_world 4))) = pulses (demo_world 4)
  /\ current_slot (fw (snd (go_to_slot 4 (demo_world 4)))) = 4.
Proof.
  apply (go_to_slot_at_target_is_noop _pulse_once_untracked (demo_world 4) 4).
  - simpl; lia.
  - reflexivity.
Defined.

(** The budget [max_attempts] of the loop is also its fuel: the loop never
    stops for want of fuel. *)
Lemma go_to_slot_while_has_fuel (pulse : M unit) (fuel : nat) :
  (forall w, fst (pulse w) <> OutOfFuel) ->
  forall (t m a : Z) (w : World),
    m - a <= Z.of_nat fuel ->
    fst (go_to_slot_while fuel pulse t m a w) <> OutOfFuel.
Proof.
  intros Hpulse. induction fuel as [| fuel IH]; intros t m a w Hfuel;
    cbn [go_to_slot_while];
    destruct (negb (current_slot (fw w) =? t)) eqn:Hneq; cbn [andb];
    try discriminate;
    destruct (Z.ltb_spec a m); try discriminate; try lia.
  unfold bind. specialize (Hpulse w).
  destruct (pulse w) as [[[] | e |] w1]; cbn [fst] in *;
    [apply IH; lia | discriminate | congruence].
Qed.

Example go_to_slot_wraps_around :
  fst (go_to_slot 2 (demo_world 5)) = Ret 2
  /\ pulses (snd (go_to_slot 2 (demo_world 5))) = 3
  /\ current_slot (fw (snd (go_to_slot 2 (demo_world 5)))) = 2.
Proof. repeat split. Qed.

Example go_to_slot_rejects_invalid_slot :
  go_to_slot 7 (demo_world 5) = (Raise ValueError, demo_world 5)
  /\ go_to_slot 0 (demo_world 5) = (Raise ValueError, demo_world 5).
Proof. split; reflexivity. Qed.

Example go_to_slot_untracked_gives_up :
  fst (go_to_slot_with _pulse_once_untracked 2 (demo_world 5)) = Raise RuntimeError
  /\ pulses (snd (go_to_slot_with _pulse_once_untracked 2 (demo_world 5))) = 6
  /\ current_slot (fw (snd (go_to_slot_with _pulse_once_untracked 2 (demo_world 5))))
     = 5.
Proof. repeat split. Qed.

(** [slot_count] pulses bring the tracked position back to where it was. *)
Lemma pulses_close_the_cycle (N c : Z) :
  1 <= c <= N -> Nat.iter (Z.to_nat N) (next_slot N) c = c.
Proof.
  intros Hc.
  assert (Hstep : forall k, (k <= Z.to_nat N)%nat ->
            Nat.iter k (next_slot N) c
            = if c + Z.of_nat k <=? N then c + Z.of_nat k else c + Z.of_nat k - N).
  { induction k as [| k IH]; intros Hk.
    - simpl. destruct (Z.leb_spec (c + 0) N); lia.
    - rewrite Nat.iter_succ, IH by lia. unfold next_slot.
      destruct (Z.leb_spec (c + Z.of_nat k) N), (Z.leb_spec (c + Z.of_nat (S k)) N);
        match goal with |- context [?x >? ?y] => destruct (Z.gtb_spec x y) end; lia. }
  rewrite Hstep by lia. destruct (Z.leb_spec (c + Z.of_nat (Z.to_nat N)) N); lia.
Qed.

(* ================================================================== *)
(** * Theorems: auto-configuration *)

Lemma Qltb_lt (x y : Q) : Qltb x y = true <-> (x < y)%Q.
Proof.
  unfold Qltb. rewrite negb_true_iff.
  split; intros H.
  - apply Qnot_le_lt. intros Hle. apply Qle_bool_iff in Hle. congruence.
  - destruct (Qle_bool y x) eqn:E; [| reflexivity].
    apply Qle_bool_iff in E. exfalso. exact (Qlt_not_le _ _ H E).
Qed.

Lemma Qltb_ge (x y : Q) : Qltb x y = false <-> (y <= x)%Q.
Proof.
  unfold Qltb. rewrite negb_false_iff. apply Qle_bool_iff.
Qed.

Section PyMax.
Context {A : Type} (key : A -> Q).

Let pick (best item : A) : A :=
  if Qltb (key best) (key item) then item else best.

(** The candidate kept by [max] is an item, no item has a greater key, and
    every item before it has a strictly smaller key. *)
Lemma fold_max_first (xs : list A) (x : A) :
  let b := fold_left pick xs x in
  (forall y, In y (x :: xs) -> (key y <= key b)%Q)
  /\ exists l1 l2, x :: xs = l1 ++ b :: l2
                   /\ forall y, In y l1 -> (key y < key b)%Q.
Proof.
  induction xs as [| y xs IH] using rev_ind; cbn zeta.
  - simpl. split.
    + intros y [<- | []]. apply Qle_refl.
    + exists [], []. split; [reflexivity | intros y []].
  - rewrite fold_left_app. cbn [fold_left].
    destruct IH as (Hmax & l1 & l2 & Hsplit & Hbefore).
    set (b := fold_left pick xs x) in *.
    change (pick b y) with (if Qltb (key b) (key y) then y else b).
  destruct (Qltb (key b) (key y)) eqn:E.
    + apply Qltb_lt in E. split.
      * intros z Hz. rewrite app_comm_cons in Hz. apply in_app_or in Hz.
        destruct Hz as [Hz | [<- | []]].
        -- apply Qlt_le_weak. eapply Qle_lt_trans; [apply Hmax, Hz | exact E].
        -- apply Qle_refl.
      * exists (x :: xs), []. split; [reflexivity |].
        intros z Hz. eapply Qle_lt_trans; [apply Hmax, Hz | exact E].
    + apply Qltb_ge in E. split.
      * intros z Hz. rewrite app_comm_cons in Hz. apply in_app_or in Hz.
        destruct Hz as [Hz | [<- | []]]; [apply Hmax, Hz | exact E].
      * exists l1, (l2 ++ [y]). split; [| exact Hbefore].
        rewrite app_comm_cons, Hsplit, <- app_assoc. reflexivity.
Qed.

Lemma py_max_by_first (l : list A) (b : A) :
  py_max_by key l = Some b ->
  (forall y, In y l -> (key y <= key b)%Q)
  /\ exists l1 l2, l = l1 ++ b :: l2
                   /\ forall y, In y l1 -> (key y < key b)%Q.
Proof.
  destruct l as [| x xs]; [discriminate |].
  intros [= <-]. apply fold_max_first.
Qed.
End PyMax.

Lemma get_power_healthy (w : World) :
  faulty w PM100D_measPower = false ->
  pm.get_power w = (Ret (device_power w (reads w)), metered w).
Proof.
  intros H. unfold pm.get_power, hw, bind, emit, modify, get; simpl.
  rewrite H. reflexivity.
Qed.

Lemma scanned_healthy (w : World) : lab_healthy w -> lab_healthy (scanned w).
Proof. exact (fun H => H). Qed.

(** One turn of the scan loop: the tracked slot and a reading are appended,
    the wheel is pulsed. *)
Lemma scan_slots_step (n : nat) (acc : list (Z * Q)) (w : World) :
  lab_healthy w ->
  scan_slots (S n) acc w
  = scan_slots n (acc ++ [(current_slot (fw w), device_power w (reads w))])
               (scanned w).
Proof.
  intros [Hgen Hpm]. cbn [scan_slots].
  unfold bind at 1. unfold get_current_slot, bind at 1, get, ret.
  unfold bind at 1. rewrite (get_power_healthy w Hpm).
  unfold bind at 1. rewrite (pulse_once_healthy (metered w) Hgen).
  reflexivity.
Qed.

Lemma scan_slots_run (n : nat) :
  forall (w : World) (acc : list (Z * Q)),
    lab_healthy w ->
    scan_slots n acc w
    = (Ret (acc ++ map (fun k => (current_slot (fw (Nat.iter k scanned w)),
                                  device_power w (reads w + k)%nat))
                       (seq 0 n)),
       Nat.iter n scanned w).
Proof.
  induction n as [| n IH]; intros w acc Hh.
  - simpl. rewrite app_nil_r. reflexivity.
  - rewrite (scan_slots_step n acc w Hh).
    rewrite (IH (scanned w) _ (scanned_healthy w Hh)).
    rewrite <- Nat.iter_succ_r. f_equal. f_equal.
    rewrite <- app_assoc. f_equal.
    cbn [seq map app Nat.iter]. rewrite Nat.add_0_r. f_equal.
    rewrite <- seq_shift, map_map.
    apply map_ext. intros k. rewrite <- Nat.iter_succ_r.
    f_equal. change (reads (scanned w)) with (S (reads w)).
    change (device_power (scanned w)) with (device_power w).
    f_equal. lia.
Qed.

Lemma iter_scanned (k : nat) (w : World) :
  fw (Nat.iter k scanned w)
  = mkFw (slot_count (fw w)) (slot_mapping (fw w))
         (Nat.iter k (next_slot (slot_count (fw w))) (current_slot (fw w)))
  /\ pulses (Nat.iter k scanned w) = pulses w + Z.of_nat k
  /\ faulty (Nat.iter k scanned w) = faulty w.
Proof.
  induction k as [| k (Hfw & Hp & Hf)].
  - simpl. destruct (fw w). repeat split. lia.
  - rewrite !Nat.iter_succ.
    set (v := Nat.iter k scanned w) in *.
    change (scanned v) with (pulsed (metered v)).
    rewrite pulsed_fw, pulsed_pulses.
    change (faulty (pulsed (metered v))) with (faulty v).
    change (fw (metered ?x)) with (fw x).
    change (pulses (metered ?x)) with (pulses x).
    rewrite Hfw, Hp. cbn [slot_count slot_mapping current_slot].
    repeat split; [lia | exact Hf].
Qed.

Lemma iter_next_slot_from_1 (N : Z) (k : nat) :
  Z.of_nat k < N -> Nat.iter k (next_slot N) 1 = Z.of_nat k + 1.
Proof.
  induction k as [| k IH]; intros Hk; [reflexivity |].
  rewrite Nat.iter_succ, IH by lia. unfold next_slot.
  destruct (Z.gtb_spec (Z.of_nat k + 1 + 1) N); lia.
Qed.

Lemma iter_next_slot_full_turn (N : Z) :
  1 <= N -> Nat.iter (Z.to_nat N) (next_slot N) 1 = 1.
Proof.
  intros HN. replace (Z.to_nat N) with (S (Z.to_nat (N - 1))) by lia.
  rewrite Nat.iter_succ, iter_next_slot_from_1 by lia. unfold next_slot.
  destruct (Z.gtb_spec (Z.of_nat (Z.to_nat (N - 1)) + 1 + 1) N); lia.
Qed.

(** The slot numbers of a scan record increase along the list. *)
Lemma scan_record_increasing (f : nat -> Q) (l1 : list (Z * Q)) :
  forall (a n : nat) (x : Z * Q) (l2 : list (Z * Q)),
    map (fun k => (Z.of_nat k + 1, f k)) (seq a n) = l1 ++ x :: l2 ->
    forall y, In y l2 -> fst x < fst y.
Proof.
  induction l1 as [| z l1 IH]; intros a n x l2 Heq y Hy.
  - destruct n as [| n]; [discriminate |].
    cbn [seq map app] in Heq. injection Heq as <- <-.
    apply in_map_iff in Hy. destruct Hy as (k & <- & Hk).
    apply in_seq in Hk. simpl. lia.
  - destruct n as [| n]; [discriminate |].
    cbn [seq map app] in Heq. injection Heq as _ Heq.
    exact (IH (S a) n x l2 Heq y Hy).
Qed.

Lemma scan_slots_full_turn (w : World) :
  lab_healthy w ->
  1 <= slot_count (fw w) ->
  current_slot (fw w) = 1 ->
  scan_slots (Z.to_nat (slot_count (fw w))) [] w
  = (Ret (recorded w), Nat.iter (Z.to_nat (slot_count (fw w))) scanned w).
Proof.
  intros Hh HN Hc. rewrite (scan_slots_run _ w [] Hh). cbn [app].
  f_equal. f_equal. unfold recorded. apply map_ext_in.
  intros k Hk. apply in_seq in Hk.
  destruct (iter_scanned k w) as (Hfw & _). rewrite Hfw, Hc.
  cbn [current_slot]. rewrite iter_next_slot_from_1 by lia. reflexivity.
Qed.

Lemma reset_slot_valid (w : World) (s : Z) :
  1 <= s <= slot_count (fw w) ->
  reset_slot s w
  = (Ret tt, set_fw (mkFw (slot_count (fw w)) (slot_mapping (fw w)) s) w).
Proof.
  intros Hs. unfold reset_slot, bind, get.
  replace ((1 <=? s) && (s <=? slot_count (fw w))) with true
    by (symmetry; apply andb_true_iff; split; apply Z.leb_le; lia).
  reflexivity.
Qed.

(** C3.  On a healthy wheel of [N >= 1] slots with tracked position 1, the
    scan records slot [k + 1] with the [k]-th reading for [k < N], one pulse
    after each reading, and the tracked position is 1 again after the [N]
    pulses.  [max] picks a recorded pair whose power no pair exceeds and
    which every pair of a lower slot is strictly below; the wheel is then
    pulsed [best_slot - 1] more times, which is where that reading was
    taken, and the tracked position is reset to 1. *)
Theorem configure_flywheel_aligns_brightest_slot (w : World) :
  lab_healthy w ->
  1 <= slot_count (fw w) ->
  current_slot (fw w) = 1 ->
  exists (w1 w' : World) (best_slot : Z) (best_power : Q),
    scan_slots (Z.to_nat (slot_count (fw w))) [] w = (Ret (recorded w), w1)
    /\ List.length (recorded w) = Z.to_nat (slot_count (fw w))
    /\ current_slot (fw w1) = 1
    /\ pulses w1 = pulses w + slot_count (fw w)
    /\ py_max_by snd (recorded w) = Some (best_slot, best_power)
    /\ In (best_slot, best_power) (recorded w)
    /\ (forall s p, In (s, p) (recorded w) -> (p <= best_power)%Q)
    /\ (forall s p, In (s, p) (recorded w) -> s < best_slot -> (p < best_power)%Q)
    /\ configure_flywheel_with_powermeter w = (Ret tt, w')
    /\ current_slot (fw w') = 1
    /\ pulses w' = pulses w1 + (best_slot - 1).
Proof.
  intros Hh HN Hc.
  set (N := slot_count (fw w)) in *.
  set (w1 := Nat.iter (Z.to_nat N) scanned w).
  pose proof (scan_slots_full_turn w Hh HN Hc) as Hscan. fold N w1 in Hscan.
  destruct (iter_scanned (Z.to_nat N) w) as (Hfw1 & Hp1 & Hf1).
  fold N w1 in Hfw1, Hp1, Hf1.
  rewrite Hc, iter_next_slot_full_turn in Hfw1 by exact HN.
  destruct (py_max_by snd (recorded w)) as [[best_slot best_power] |] eqn:Hmax.
  2:{ unfold recorded in Hmax. fold N in Hmax.
      replace (Z.to_nat N) with (S (Z.to_nat (N - 1))) in Hmax by lia.
      discriminate. }
  destruct (py_max_by_first snd _ _ Hmax) as (Hle & l1 & l2 & Hsplit & Hlt).
  assert (Hin : In (best_slot, best_power) (recorded w)).
  { rewrite Hsplit. apply in_or_app. right. left. reflexivity. }
  assert (Hbest : 1 <= best_slot <= N).
  { unfold recorded in Hin. apply in_map_iff in Hin.
    destruct Hin as (k & [= <- _] & Hk). apply in_seq in Hk. fold N in Hk. lia. }
  destruct (go_to_slot_reaches w1 best_slot) as (w2 & Hgo & Hcur2 & Hn2 & Hm2 & Hp2).
  { destruct Hh as [Hgen _]. unfold gen_healthy. rewrite Hf1. exact Hgen. }
  { rewrite Hfw1. exact Hbest. }
  { rewrite Hfw1. cbn [current_slot slot_count]. lia. }
  rewrite Hfw1 in Hn2, Hp2. cbn [slot_count current_slot] in Hn2, Hp2.
  unfold distance in Hp2. rewrite Z.mod_small in Hp2 by lia.
  exists w1, (set_fw (mkFw (slot_count (fw w2)) (slot_mapping (fw w2)) 1) w2),
         best_slot, best_power.
  split; [exact Hscan |].
  split; [unfold recorded; rewrite length_map, length_seq; reflexivity |].
  split; [rewrite Hfw1; reflexivity |].
  split; [rewrite Hp1; lia |].
  split; [reflexivity |].
  split; [exact Hin |].
  split; [intros s p Hsp; exact (Hle (s, p) Hsp) |].
  split.
  { intros s p Hsp Hs. rewrite Hsplit in Hsp. apply in_app_or in Hsp.
    destruct Hsp as [Hsp | [Hsp | Hsp]].
    - exact (Hlt (s, p) Hsp).
    - injection Hsp as <- _. lia.
    - pose proof (scan_record_increasing
                    (fun k => device_power w (reads w + k)%nat)
                    l1 0 (Z.to_nat N) (best_slot, best_power) l2 Hsplit
                    (s, p) Hsp) as Hinc.
      simpl in Hinc. lia. }
  split.
  { unfold configure_flywheel_with_powermeter, bind at 1, get.
    fold N. unfold bind at 1. rewrite Hscan, Hmax.
    unfold bind. rewrite Hgo. apply reset_slot_valid. lia. }
  split; [reflexivity |].
  exact Hp2.
Qed.

Lemma configure_flywheel_aligns_brightest_slot_witness :
  exists (w1 w' : World) (best_slot : Z) (best_power : Q),
    scan_slots (Z.to_nat (slot_count (fw (demo_world 1)))) [] (demo_world 1)
      = (Ret (recorded (demo_world 1)), w1)
    /\ List.length (recorded (demo_world 1))
       = Z.to_nat (slot_count (fw (demo_world 1)))
    /\ current_slot (fw w1) = 1
    /\ pulses w1 = pulses (demo_world 1) + slot_count (fw (demo_world 1))
    /\ py_max_by snd (recorded (demo_world 1)) = Some (best_slot, best_power)
    /\ In (best_slot, best_power) (recorded (demo_world 1))
    /\ (forall s p, In (s, p) (recorded (demo_world 1)) -> (p <= best_power)%Q)
    /\ (forall s p, In (s, p) (recorded (demo_world 1)) -> s < best_slot ->
                    (p < best_power)%Q)
    /\ configure_flywheel_with_powermeter (demo_world 1) = (Ret tt, w')
    /\ current_slot (fw w') = 1
    /\ pulses w' = pulses w1 + (best_slot - 1).
Proof.
  apply (configure_flywheel_aligns_brightest_slot (demo_world 1)).
  - repeat split.
  - simpl; lia.
  - reflexivity.
Defined.

(** On the demonstration wheel the readings are 0.2, 0.5, 0.9, 0.9, 0.1,
    0.3: the first of the two brightest slots, slot 3, is chosen, and the
    wheel ends two pulses past a full turn with the tracked position at 1. *)
Example configure_demo :
  py_max_by snd (recorded (demo_world 1)) = Some (3, (9 # 10)%Q)
  /\ fst (configure_flywheel_with_powermeter (demo_world 1)) = Ret tt
  /\ current_slot (fw (snd (configure_flywheel_with_powermeter (demo_world 1)))) = 1
  /\ pulses (snd (configure_flywheel_with_powermeter (demo_world 1))) = 6 + 2.
Proof. repeat split. Qed.

(* ================================================================== *)
(** * Theorems: the acquisition pipeline *)

Lemma clip0_nonneg (x : Q) : (0 <= clip0 x)%Q.
Proof.
  unfold clip0. destruct (Qle_bool 0 x) eqn:E.
  - apply Qle_bool_iff, E.
  - apply Qle_refl.
Qed.

Lemma clip0_max (x : Q) : clip0 x = Qmax x 0.
Proof.
  unfold clip0, Qmax, GenericMinMax.gmax.
  destruct (Qle_bool 0 x) eqn:E.
  - apply Qle_bool_iff in E.
    destruct (x ?= 0)%Q eqn:C; try reflexivity.
    apply Qlt_alt in C. exfalso. exact (Qlt_not_le _ _ C E).
  - destruct (x ?= 0)%Q eqn:C; try reflexivity; exfalso.
    + apply Qeq_alt in C. assert (H : (0 <= x)%Q) by (rewrite C; apply Qle_refl).
      apply Qle_bool_iff in H. congruence.
    + apply Qgt_alt in C. apply Qlt_le_weak, Qle_bool_iff in C. congruence.
Qed.

Lemma Qminus_0_r (x : Q) : (x - 0)%Q = x.
Proof.
  destruct x as [a b]. unfold Qminus, Qplus, Qopp. simpl.
  rewrite Z.mul_1_r, Z.add_0_r, Pos.mul_1_r. reflexivity.
Qed.

Lemma Qdiv_1_r (x : Q) : (x / 1)%Q = x.
Proof.
  destruct x as [a b]. unfold Qdiv, Qmult, Qinv. simpl.
  rewrite Z.mul_1_r, Pos.mul_1_r. reflexivity.
Qed.


Lemma zip_with_length {A B C} (f : A -> B -> C) (a : list A) :
  forall b, List.length a = List.length b ->
            List.length (zip_with f a b) = List.length a.
Proof.
  induction a as [| x a IH]; intros [| y b] H; simpl in *; try congruence.
  rewrite IH; congruence.
Qed.

Lemma zip_with_map {A B C D} (g : C -> D) (f : A -> B -> C) (a : list A) :
  forall b, map g (zip_with f a b) = zip_with (fun x y => g (f x y)) a b.
Proof.
  induction a as [| x a IH]; intros [| y b]; simpl; try reflexivity.
  rewrite IH. reflexivity.
Qed.

Lemma zip_with_ext {A B C} (f g : A -> B -> C) :
  (forall x y, f x y = g x y) ->
  forall a b, zip_with f a b = zip_with g a b.
Proof.
  intros H. induction a as [| x a IH]; intros [| y b]; simpl; try reflexivity.
  rewrite H, IH. reflexivity.
Qed.

Lemma zip_with_repeat_r {A B C} (f : A -> B -> C) (y : B) (a : list A) :
  zip_with f a (repeat y (List.length a)) = map (fun x => f x y) a.
Proof.
  induction a as [| x a IH]; simpl; [reflexivity |]. rewrite IH. reflexivity.
Qed.

Lemma subtract_and_clip_equal_length (inten bg : list Q) (w : World) :
  List.length inten = List.length bg ->
  subtract_and_clip inten bg w
  = (Ret (zip_with (fun x b => clip0 (x - b)) inten bg), w).
Proof.
  intros H. unfold subtract_and_clip, np_sub.
  rewrite H, Nat.eqb_refl. unfold np_clip0. rewrite zip_with_map. reflexivity.
Qed.

(** Whatever the shapes, a corrected array that is returned has no negative
    element. *)
Lemma subtract_and_clip_nonneg (inten bg out : list Q) (w w' : World) :
  subtract_and_clip inten bg w = (Ret out, w') ->
  Forall (fun x => 0 <= x)%Q out.
Proof.
  unfold subtract_and_clip.
  destruct (np_sub inten bg) as [d |]; [| discriminate].
  intros [= <- _]. unfold np_clip0. apply Forall_forall.
  intros x Hx. apply in_map_iff in Hx. destruct Hx as (y & <- & _).
  apply clip0_nonneg.
Qed.

Lemma get_raw_spectrum_healthy (w : World) :
  spec_healthy w ->
  spectrometer.get_raw_spectrum w = (Ret (device_spectrum w (scans w)), acquired w).
Proof.
  unfold spectrometer.get_raw_spectrum, acquired, scan_events.
  intros [Hsim | (H1 & H2 & H3)].
  - unfold bind, get, ret, modify. rewrite Hsim. reflexivity.
  - unfold bind at 1, get. destruct (simulate (spec w)) eqn:Hsim.
    + unfold bind, get, ret, modify. reflexivity.
    + unfold hw, bind, emit, get, modify; simpl.
      rewrite H1; simpl. rewrite H2; simpl. rewrite H3. reflexivity.
Qed.

Lemma acquired_healthy (w : World) : spec_healthy w -> spec_healthy (acquired w).
Proof. exact (fun H => H). Qed.

Lemma raw_intensity_healthy (w : World) :
  spec_healthy w ->
  experiment.raw_intensity w = (Ret (snd (device_spectrum w (scans w))), acquired w).
Proof.
  intros H. unfold experiment.raw_intensity, bind.
  rewrite (get_raw_spectrum_healthy w H). reflexivity.
Qed.

Lemma np_mean_single (x : list Q) : np_mean_axis0 [x] = MeanOk x.
Proof.
  unfold np_mean_axis0. cbn [forallb fold_left List.length].
  f_equal. unfold np_div_scalar.
  rewrite <- (map_id x) at 2. apply map_ext. intros v. apply Qdiv_1_r.
Qed.

Lemma argmax_from_bound (a : list Q) :
  forall (best : Q) (best_i i : nat),
    (best_i < i)%nat -> (argmax_from best best_i i a < i + List.length a)%nat.
Proof.
  induction a as [| x a IH]; intros best best_i i Hi; simpl.
  - lia.
  - destruct (Qltb best x).
    + specialize (IH x i (S i)). lia.
    + specialize (IH best best_i (S i)). lia.
Qed.

Lemma peak_defined (wl inten : list Q) :
  List.length wl = List.length inten -> inten <> [] ->
  exists p, forall w, peak wl inten w = (Ret p, w).
Proof.
  intros Hlen Hne. destruct inten as [| x a]; [congruence |].
  unfold peak, np_argmax.
  pose proof (argmax_from_bound a x 0%nat 1%nat ltac:(lia)) as Hi.
  set (i := argmax_from x 0 1 a) in *.
  destruct (nth_error wl i) as [pw |] eqn:Ew.
  2:{ apply nth_error_None in Ew. simpl in Hlen. lia. }
  destruct (nth_error (x :: a) i) as [pv |] eqn:Ev.
  2:{ apply nth_error_None in Ev. simpl in Ev. lia. }
  exists (pw, pv). reflexivity.
Qed.

Lemma live_plot_defined (wl inten : list Q) (w : World) :
  List.length wl = List.length inten -> inten <> [] ->
  live_plot wl inten w = (Ret tt, set_trace (SavePlot :: trace w) w).
Proof.
  intros Hlen Hne. unfold live_plot.
  destruct (peak_defined wl inten Hlen Hne) as (p & Hp).
  unfold bind. rewrite Hp, Hlen, Nat.eqb_refl. reflexivity.
Qed.

Lemma save_csv_spectrum_defined (wl inten : list Q) (w : World) :
  List.length wl = List.length inten ->
  save_csv_spectrum wl inten w
  = (Ret tt, set_trace (SaveCsv wl inten :: trace w) w).
Proof.
  intros Hlen. unfold save_csv_spectrum. rewrite Hlen, Nat.eqb_refl. reflexivity.
Qed.

Lemma sleep_nonneg (d : Q) (w : World) :
  (0 <= d)%Q -> sleep d w = (Ret tt, set_clock (clock w + d)%Q w).
Proof.
  intros H. unfold sleep. apply Qle_bool_iff in H. rewrite H. reflexivity.
Qed.

Lemma zip_with_nonempty {A B C} (f : A -> B -> C) (a : list A) (b : list B) :
  List.length a = List.length b -> a <> [] -> zip_with f a b <> [].
Proof.
  destruct a, b; simpl; intros; congruence.
Qed.

Lemma plot_spectrum_single_defined (wl inten : list Q) (w : World) :
  List.length wl = List.length inten -> inten <> [] ->
  plot_spectrum_single wl inten w = (Ret tt, set_trace (SavePlot :: trace w) w).
Proof.
  intros Hlen Hne. unfold plot_spectrum_single.
  destruct (peak_defined wl inten Hlen Hne) as (p & Hp).
  rewrite Hlen, Nat.eqb_refl. unfold bind. rewrite Hp. reflexivity.
Qed.

Lemma np_select_ok (mask : list bool) (a : list Q) (w : World) :
  List.length mask = List.length a ->
  np_select mask a w = (Ret (select mask a), w).
Proof. intros H. unfold np_select. rewrite H, Nat.eqb_refl. reflexivity. Qed.

(** [get_spectrum(correct_bg=True)] with a stored background. *)
Lemma get_spectrum_with_background (w : World) (bg : list Q) :
  spec_healthy w ->
  background (spec w) = Some bg ->
  spectrometer.get_spectrum true w
  = bind (if truthy (fst (mask_range (spec w))) && truthy (snd (mask_range (spec w)))
          then
            let lo := dict_get (fst (mask_range (spec w))) 0%Q in
            let hi := dict_get (snd (mask_range (spec w))) 0%Q in
            let mask := map (in_mask lo hi) (fst (device_spectrum w (scans w))) in
            wl' <- np_select mask (fst (device_spectrum w (scans w))) ;;
            inten' <- np_select mask (snd (device_spectrum w (scans w))) ;;
            ret (wl', inten')
          else ret (device_spectrum w (scans w)))
         (fun masked =>
            inten <- subtract_and_clip (snd masked) bg ;;
            ret (fst masked, inten))
         (acquired w).
Proof.
  intros Hh Hbg. unfold spectrometer.get_spectrum.
  unfold bind at 1. rewrite (get_raw_spectrum_healthy w Hh).
  unfold bind at 1, get. change (spec (acquired w)) with (spec w).
  rewrite Hbg.
  destruct (device_spectrum w (scans w)) as [wl inten]. reflexivity.
Qed.

Lemma corrected_nonneg (raw bg : list Q) :
  Forall (fun x => 0 <= x)%Q (zip_with (fun r b => Qmax (r - b) 0) raw bg).
Proof.
  apply Forall_forall. intros x Hx.
  rewrite <- (zip_with_ext (fun r b => clip0 (r - b))) in Hx
    by (intros; apply clip0_max).
  rewrite <- zip_with_map in Hx. apply in_map_iff in Hx.
  destruct Hx as (y & <- & _). apply clip0_nonneg.
Qed.

Lemma subtract_and_clip_max (raw bg : list Q) (w : World) :
  List.length raw = List.length bg ->
  subtract_and_clip raw bg w
  = (Ret (zip_with (fun r b => Qmax (r - b) 0) raw bg), w).
Proof.
  intros Hlen. rewrite (subtract_and_clip_equal_length raw bg w Hlen).
  f_equal. f_equal. apply zip_with_ext. intros x y. apply clip0_max.
Qed.

(** The mask of [get_spectrum] on a scan whose two arrays have one length. *)
Lemma get_spectrum_mask_stage (w v : World) :
  List.length (fst (device_spectrum w (scans w)))
    = List.length (snd (device_spectrum w (scans w))) ->
  (if truthy (fst (mask_range (spec w))) && truthy (snd (mask_range (spec w)))
   then
     let lo := dict_get (fst (mask_range (spec w))) 0%Q in
     let hi := dict_get (snd (mask_range (spec w))) 0%Q in
     let mask := map (in_mask lo hi) (fst (device_spectrum w (scans w))) in
     wl' <- np_select mask (fst (device_spectrum w (scans w))) ;;
     inten' <- np_select mask (snd (device_spectrum w (scans w))) ;;
     ret (wl', inten')
   else ret (device_spectrum w (scans w))) v
  = (Ret (masked_scan w), v).
Proof.
  intros Hlen. unfold masked_scan.
  destruct (truthy (fst (mask_range (spec w))) && truthy (snd (mask_range (spec w))));
    [| reflexivity].
  cbv zeta. unfold bind at 1. rewrite np_select_ok by apply length_map.
  unfold bind at 1. rewrite np_select_ok by (rewrite length_map; exact Hlen).
  reflexivity.
Qed.

(** C5.  For raw and background arrays of one length the corrected array
    is [max(raw - background, 0)] element by element, none of its elements
    is negative, and with a background of zeros it is [clip(raw, 0, None)].
    This array is what a steady-state sample with background correction
    writes to disk for the capture [raw] and the background [bg] (lines
    85-87), what a degradation cycle computes from them (lines 179-181), and
    what [get_spectrum] returns for the masked scan [raw] and the stored
    background [bg] (lines 78-80). *)
Theorem background_correction_clips_at_zero (raw bg : list Q) :
  List.length raw = List.length bg ->
  let corrected := zip_with (fun r b => Qmax (r - b) 0) raw bg in
  Forall (fun x => 0 <= x)%Q corrected
  /\ (forall w, subtract_and_clip raw bg w = (Ret corrected, w))
  /\ (forall w, subtract_and_clip raw (repeat 0%Q (List.length raw)) w
                = (Ret (np_clip0 raw), w))
  /\ (forall (self : PLExperiment) (i s : Z) (background : option (list Q))
             (w w0 w1 w2 : World) (wl : list Q),
        dict_get (background_correction (user_cfg self)) true = true ->
        (if String.eqb (bg_mode self) "each"
         then b <- experiment.mirror_background self ;; ret (Some b)
         else ret background) (set_trace (Prompt i :: trace w) w)
          = (Ret (Some bg), w0) ->
        experiment.go_to_named_slot self "empty" w0 = (Ret s, w1) ->
        experiment.capture self (set_clock (clock w1 + (1 # 2))%Q w1)
          = (Ret (wl, raw), w2) ->
        List.length wl = List.length raw ->
        raw <> [] ->
        exists w',
          experiment.steady_state_sample self i background w = (Ret (Some bg), w')
          /\ trace w' = ShowPlot :: SavePlot :: SaveCsv wl corrected :: trace w2)
  /\ (forall (cfg : UserConfig) (w : World),
        dict_get (background_correction cfg) false = true ->
        experiment.correct_background cfg (Some bg) raw w = (Ret corrected, w))
  /\ (forall w : World,
        spec_healthy w ->
        background (spec w) = Some bg ->
        List.length (fst (device_spectrum w (scans w)))
          = List.length (snd (device_spectrum w (scans w))) ->
        snd (masked_scan w) = raw ->
        spectrometer.get_spectrum true w
        = (Ret (fst (masked_scan w), corrected), acquired w)).
Proof.
  intros Hlen corrected.
  assert (Hrun : forall w, subtract_and_clip raw bg w = (Ret corrected, w))
    by (intros w; apply subtract_and_clip_max, Hlen).
  split; [apply corrected_nonneg |].
  split; [exact Hrun |].
  split; [| split; [| split]].
  - intros w.
    rewrite subtract_and_clip_equal_length by (rewrite repeat_length; reflexivity).
    rewrite zip_with_repeat_r. unfold np_clip0.
    f_equal. f_equal. apply map_ext. intros x. rewrite Qminus_0_r. reflexivity.
  - intros self i s background w w0 w1 w2 wl Hon Hstage Hgo Hcap Hwl Hne.
    assert (Hout : List.length wl = List.length corrected).
    { unfold corrected. rewrite zip_with_length by exact Hlen. exact Hwl. }
    assert (Hout_ne : corrected <> []) by (apply zip_with_nonempty; assumption).
    destruct (peak_defined wl corrected Hout Hout_ne) as (p & Hp).
    unfold experiment.steady_state_sample. rewrite Hon. cbn [andb].
    unfold bind at 1. unfold emit at 1, modify at 1.
    unfold bind at 1. rewrite Hstage.
    unfold bind at 1. rewrite Hgo.
    unfold bind at 1. rewrite sleep_nonneg by discriminate.
    unfold bind at 1. rewrite Hcap. cbn [fst snd].
    unfold bind at 1. unfold bind at 1. cbn [read_local]. unfold ret at 1.
    rewrite Hrun.
    unfold bind at 1. rewrite (save_csv_spectrum_defined _ _ _ Hout).
    unfold bind at 1. rewrite (plot_spectrum_single_defined _ _ _ Hout Hout_ne).
    unfold bind at 1. rewrite Hp.
    eexists. split; reflexivity.
  - intros cfg w Hon. unfold experiment.correct_background. rewrite Hon.
    cbn [read_local]. unfold bind at 1, ret at 1. apply Hrun.
  - intros w Hh Hbg Hscan Hraw.
    rewrite (get_spectrum_with_background w bg Hh Hbg).
    pose proof (get_spectrum_mask_stage w (acquired w) Hscan) as Hmask.
    cbv zeta in Hmask. unfold bind at 1. cbv zeta. rewrite Hmask.
    unfold bind at 1. rewrite Hraw, Hrun. reflexivity.
Qed.

(** A steady-state sample on the demonstration laboratory: the background
    [2, 40, 1.5] is captured at the mirror, the sample [3, 40, 1.5] at the
    empty place, and their clipped difference is written to disk; and
    [get_spectrum] on a laboratory that has this background stored. *)
Lemma background_correction_clips_at_zero_witness :
  Forall (fun x => 0 <= x)%Q
         (zip_with (fun r b => Qmax (r - b) 0) [3; 40; 3 # 2] [2; 40; 3 # 2])%Q
  /\ (exists w',
        experiment.steady_state_sample
          (mkExp (demo_user "steady_state" "skip") demo_mapping 1 false "each")
          1 None (demo_world 1)
        = (Ret (Some [2; 40; 3 # 2]%Q), w')
        /\ persisted w'
           = [SaveCsv [700; 800; 900]%Q
                (zip_with (fun r b => Qmax (r - b) 0) [3; 40; 3 # 2] [2; 40; 3 # 2])%Q])
  /\ fst (spectrometer.get_spectrum true
            (set_scans 1
               (set_spec (mkSpec false (1 # 2) (Some [2; 40; 3 # 2]%Q) (None, None))
                         (demo_world 1))))
     = Ret ([700; 800; 900]%Q,
            zip_with (fun r b => Qmax (r - b) 0) [3; 40; 3 # 2] [2; 40; 3 # 2])%Q.
Proof.
  destruct (background_correction_clips_at_zero [3; 40; 3 # 2]%Q [2; 40; 3 # 2]%Q
              eq_refl) as (Hnonneg & _ & _ & Hsample & _ & Hget).
  split; [exact Hnonneg |]. split.
  - set (self := mkExp (demo_user "steady_state" "skip") demo_mapping 1 false "each").
    set (w0 := snd (experiment.mirror_background self
                      (set_trace (Prompt 1 :: trace (demo_world 1)) (demo_world 1)))).
    set (w1 := snd (experiment.go_to_named_slot self "empty" w0)).
    set (w2 := snd (experiment.capture self (set_clock (clock w1 + (1 # 2))%Q w1))).
    destruct (Hsample self 1 2 None (demo_world 1) w0 w1 w2 [700; 800; 900]%Q)
      as (w' & Hrun & Htrace).
    + reflexivity.
    + vm_compute. reflexivity.
    + vm_compute. reflexivity.
    + vm_compute. reflexivity.
    + reflexivity.
    + discriminate.
    + exists w'. split; [exact Hrun |].
      unfold persisted. rewrite Htrace. vm_compute. reflexivity.
  - rewrite Hget.
    + reflexivity.
    + right. repeat split.
    + reflexivity.
    + reflexivity.
    + reflexivity.
Defined.

Example background_correction_demo :
  zip_with (fun r b => Qmax (r - b) 0)%Q [5; 1 # 2; 3]%Q [1; 2; 3]%Q
  = [4; 0; 0]%Q.
Proof. reflexivity. Qed.



Example normalization_demo :
  experiment.normalize "mirror" 4 [8; 2; 0]%Q = [8 / 4; 2 / 4; 0 / 4]%Q
  /\ experiment.normalize "mirror" 0 [8; 2; 0]%Q = [8; 2; 0]%Q
  /\ experiment.normalize "mirror" (- (1 # 3)) [8; 2; 0]%Q = [8; 2; 0]%Q
  /\ experiment.normalize "none" 4 [8; 2; 0]%Q = [8; 2; 0]%Q.
Proof. repeat split. Qed.

(** C7.  With [avg_count = 1] on a healthy spectrometer, whose wavelength
    axis is the same at every scan, [average_spectrum] returns the pair of
    arrays that a single [get_raw_spectrum] returns from the same sequence
    of scans: the intensities of the next scan (the mean of one row is the
    row) with the wavelength axis.  So does the capture of an experiment
    with averaging enabled.  The averaged path takes the axis from one
    further scan, so it leaves two scans used where the single capture
    leaves one. *)
Theorem average_of_one_equals_single_capture (self : PLExperiment) (w : World) :
  avg_count self = 1 ->
  spec_healthy w ->
  fixed_axis w ->
  fst (experiment.average_spectrum self w) = Ret (device_spectrum w (scans w))
  /\ fst (spectrometer.get_raw_spectrum w) = Ret (device_spectrum w (scans w))
  /\ fst (experiment.average_spectrum self w) = fst (spectrometer.get_raw_spectrum w)
  /\ (enable_averaging self = true ->
      fst (experiment.capture self w) = fst (spectrometer.get_raw_spectrum w))
  /\ snd (spectrometer.get_raw_spectrum w) = acquired w
  /\ snd (experiment.average_spectrum self w) = acquired (acquired w).
Proof.
  intros Hn Hh Haxis.
  assert (Havg : experiment.average_spectrum self w
                 = (Ret (fst (device_spectrum w (S (scans w))),
                         snd (device_spectrum w (scans w))),
                    acquired (acquired w))).
  { unfold experiment.average_spectrum. rewrite Hn.
    change (Z.to_nat 1) with 1%nat. cbn [comprehension].
    unfold bind at 1. unfold bind at 1. rewrite (raw_intensity_healthy w Hh).
    unfold bind at 1. unfold ret at 1. unfold ret at 1.
    rewrite np_mean_single. cbn [mean_or_raise].
    unfold bind at 1. unfold ret at 1. unfold bind.
    rewrite (get_raw_spectrum_healthy (acquired w) (acquired_healthy w Hh)).
    reflexivity. }
  assert (Hout : fst (experiment.average_spectrum self w)
                 = Ret (device_spectrum w (scans w))).
  { rewrite Havg. cbn [fst]. rewrite (Haxis (S (scans w))), <- (Haxis (scans w)).
    destruct (device_spectrum w (scans w)); reflexivity. }
  pose proof (get_raw_spectrum_healthy w Hh) as Hraw.
  split; [exact Hout |].
  split; [rewrite Hraw; reflexivity |].
  split; [rewrite Hout, Hraw; reflexivity |].
  split; [| split].
  - intros Hon. unfold experiment.capture. rewrite Hon, Hout, Hraw. reflexivity.
  - rewrite Hraw. reflexivity.
  - rewrite Havg. reflexivity.
Qed.

Lemma average_of_one_equals_single_capture_witness :
  fst (experiment.average_spectrum (demo_exp "skip") (demo_world 1))
    = Ret ([700; 800; 900]%Q, [0 + 2; 40; 3 # 2]%Q)
  /\ fst (spectrometer.get_raw_spectrum (demo_world 1))
     = Ret ([700; 800; 900]%Q, [0 + 2; 40; 3 # 2]%Q)
  /\ fst (experiment.capture (demo_exp "skip") (demo_world 1))
     = fst (spectrometer.get_raw_spectrum (demo_world 1)).
Proof.
  destruct (average_of_one_equals_single_capture (demo_exp "skip") (demo_world 1))
    as (Havg & Hraw & _ & Hcap & _).
  - reflexivity.
  - right. repeat split.
  - intros k. reflexivity.
  - split; [exact Havg |]. split; [exact Hraw |]. apply Hcap. reflexivity.
Defined.

(** Lines 176-181 on a bound background of the length of the capture: the
    division, where the power is positive, comes before the subtraction. *)
Lemma normalize_then_correct (cfg : UserConfig) (normalization : string)
    (power : Q) (inten bg : list Q) (w : World) :
  dict_get (background_correction cfg) false = true ->
  String.eqb normalization "none" = false ->
  List.length inten = List.length bg ->
  experiment.correct_background cfg (Some bg)
    (experiment.normalize normalization power inten) w
  = (Ret (zip_with (fun x b => Qmax ((if Qltb 0 power then x / power else x) - b) 0)
                   inten bg), w).
Proof.
  intros Hbg Hn Hlen.
  unfold experiment.correct_background, experiment.normalize.
  rewrite Hbg, Hn. cbn [negb andb read_local].
  unfold bind, ret.
  destruct (Qltb 0 power).
  - rewrite subtract_and_clip_max
      by (unfold np_div_scalar; rewrite length_map; exact Hlen).
    f_equal. f_equal. unfold np_div_scalar.
    clear. revert bg. induction inten as [| x a IH]; intros [| b bg]; simpl;
      try reflexivity.
    rewrite IH. reflexivity.
  - rewrite subtract_and_clip_max by exact Hlen. reflexivity.
Qed.

(** C4 (as the code has it).  A degradation cycle with a normalization other
    than ["none"] and background correction enabled, whose optical path gave
    the power [P] and the background [bg], and whose capture gave
    [(wl, inten)]: the intensities written to disk are
    [max(N(inten) - bg, 0)], where [N] divides by [P] when [P] is positive
    and leaves the capture as it is when [P] is zero or negative.  With a
    positive power this is [max(inten / P - bg, 0)], the division first, the
    subtraction and the clip after it; with any other power nothing is
    divided and it is [max(inten - bg, 0)]. *)
Theorem degradation_cycle_normalizes_then_subtracts
    (self : PLExperiment) (interval : Q) (normalization flywheel_mode : string)
    (background : option (list Q)) (w w1 w2 : World)
    (P : Q) (bg wl inten : list Q) :
  dict_get (background_correction (user_cfg self)) false = true ->
  String.eqb normalization "none" = false ->
  experiment.select_path self normalization flywheel_mode background w
    = (Ret (P, Some bg), w1) ->
  experiment.capture self (set_clock (clock w1 + (1 # 2))%Q w1)
    = (Ret (wl, inten), w2) ->
  List.length wl = List.length inten ->
  List.length inten = List.length bg ->
  inten <> [] ->
  (0 <= interval)%Q ->
  exists (w' : World) (out : list Q),
    experiment.degradation_cycle self interval normalization flywheel_mode
                                 background w
      = (Ret (Some bg), w')
    /\ trace w' = SaveCsv wl out :: SavePlot :: trace w2
    /\ out = zip_with (fun x b => Qmax ((if Qltb 0 P then x / P else x) - b) 0)
                      inten bg
    /\ ((0 < P)%Q -> out = zip_with (fun x b => Qmax (x / P - b) 0) inten bg)
    /\ ((P <= 0)%Q -> out = zip_with (fun x b => Qmax (x - b) 0) inten bg).
Proof.
  intros Hbg Hn Hpath Hcap Hwl Hlen Hne Hint.
  set (out := zip_with (fun x b => Qmax ((if Qltb 0 P then x / P else x) - b) 0)
                       inten bg).
  assert (Hout : List.length wl = List.length out).
  { unfold out. rewrite zip_with_length; assumption. }
  assert (Hout_ne : out <> []) by (apply zip_with_nonempty; assumption).
  exists (set_clock
            (clock w2 + (5 # 100) + interval)%Q
            (set_trace (SaveCsv wl out :: SavePlot :: trace w2) w2)), out.
  split; [| split; [reflexivity | split; [reflexivity | split]]].
  - unfold experiment.degradation_cycle.
    unfold bind at 1. rewrite Hpath. cbn [fst snd].
    unfold bind at 1. rewrite sleep_nonneg by discriminate.
    unfold bind at 1. rewrite Hcap. cbn [fst snd].
    unfold bind at 1.
    rewrite (normalize_then_correct _ _ _ _ _ _ Hbg Hn Hlen). fold out.
    unfold bind at 1. rewrite (live_plot_defined wl out _ Hout Hout_ne).
    unfold bind at 1. rewrite (save_csv_spectrum_defined wl out _ Hout).
    unfold bind at 1. rewrite sleep_nonneg by discriminate.
    unfold bind at 1. rewrite sleep_nonneg by exact Hint.
    reflexivity.
  - intros HP. apply Qltb_lt in HP. unfold out. rewrite HP. reflexivity.
  - intros HP. apply Qltb_ge in HP. unfold out. rewrite HP. reflexivity.
Qed.

(** On the demonstration laboratory in mirror mode: power 0.2 is read at the
    mirror, the background [2, 40, 1.5] is captured there, and the sample
    capture [3, 40, 1.5] is persisted as [max(x / 0.2 - b, 0)]. *)
Lemma degradation_cycle_normalizes_then_subtracts_witness :
  exists w',
    experiment.degradation_cycle (demo_exp "rotate") 1 "mirror" "rotate" None
                                 (demo_world 1)
      = (Ret (Some [2; 40; 3 # 2]%Q), w')
    /\ persisted w'
       = [SaveCsv [700; 800; 900]%Q
            (zip_with (fun x b => Qmax (x / (2 # 10) - b) 0)%Q
                      [3; 40; 3 # 2]%Q [2; 40; 3 # 2]%Q)].
Proof.
  set (w1 := snd (experiment.select_path (demo_exp "rotate") "mirror" "rotate" None
                    (demo_world 1))).
  set (w2 := snd (experiment.capture (demo_exp "rotate")
                    (set_clock (clock w1 + (1 # 2))%Q w1))).
  destruct (degradation_cycle_normalizes_then_subtracts
              (demo_exp "rotate") 1 "mirror" "rotate" None (demo_world 1) w1 w2
              (2 # 10)%Q [2; 40; 3 # 2]%Q [700; 800; 900]%Q [3; 40; 3 # 2]%Q)
    as (w' & out & Hrun & Htrace & _ & Hpos & _).
  - reflexivity.
  - reflexivity.
  - vm_compute. reflexivity.
  - vm_compute. reflexivity.
  - reflexivity.
  - reflexivity.
  - discriminate.
  - discriminate.
  - exists w'. split; [exact Hrun |].
    unfold persisted. rewrite Htrace, (Hpos eq_refl). vm_compute. reflexivity.
Defined.

(** C4, against the claim as stated: a cycle with normalization ["mirror"]
    and background correction enabled in which the power meter reads -0.1 at
    the mirror.  The capture [3, 40, 1.5] is not divided by the power: what
    is written is [max(inten - bg, 0)], where dividing first would have
    given zeros. *)
Lemma degradation_cycle_at_negative_power_skips_division :
  dict_get (background_correction (user_cfg (demo_exp "rotate"))) false = true
  /\ String.eqb "mirror" "none" = false
  /\ fst (experiment.select_path (demo_exp "rotate") "mirror" "rotate" None dark_world)
     = Ret ((- (1 # 10))%Q, Some [2; 40; 3 # 2]%Q)
  /\ fst (experiment.degradation_cycle (demo_exp "rotate") 1 "mirror" "rotate" None
            dark_world)
     = Ret (Some [2; 40; 3 # 2]%Q)
  /\ persisted (snd (experiment.degradation_cycle (demo_exp "rotate") 1 "mirror"
                       "rotate" None dark_world))
     = [SaveCsv [700; 800; 900]%Q
          (zip_with (fun x b => Qmax (x - b) 0)%Q [3; 40; 3 # 2]%Q [2; 40; 3 # 2]%Q)]
  /\ Forall2 Qeq
       (zip_with (fun x b => Qmax (x - b) 0)%Q [3; 40; 3 # 2]%Q [2; 40; 3 # 2]%Q)
       [1; 0; 0]%Q
  /\ Forall2 Qeq
       (zip_with (fun x b => Qmax (x / (- (1 # 10)) - b) 0)%Q
                 [3; 40; 3 # 2]%Q [2; 40; 3 # 2]%Q)
       [0; 0; 0]%Q
  /\ ~ Forall2 Qeq
       (zip_with (fun x b => Qmax (x - b) 0)%Q [3; 40; 3 # 2]%Q [2; 40; 3 # 2]%Q)
       (zip_with (fun x b => Qmax (x / (- (1 # 10)) - b) 0)%Q
                 [3; 40; 3 # 2]%Q [2; 40; 3 # 2]%Q).
Proof.
  split; [reflexivity |]. split; [reflexivity |].
  split; [vm_compute; reflexivity |].
  split; [vm_compute; reflexivity |].
  split; [vm_compute; reflexivity |].
  split; [repeat constructor |].
  split; [repeat constructor |].
  intros H. inversion H as [| ? ? ? ? Hq _]; subst. vm_compute in Hq. discriminate.
Qed.

(** The two orders are different computations: dividing after the
    subtraction would have given another array on the same inputs. *)
Example normalize_first_differs_from_subtract_first :
  zip_with (fun x b => Qmax (x / (2 # 10) - b) 0)%Q [4; 40]%Q [2; 40]%Q
    = [4 / (2 # 10) - 2; 40 / (2 # 10) - 40]%Q
  /\ zip_with (fun x b => Qmax (x - b) 0 / (2 # 10))%Q [4; 40]%Q [2; 40]%Q
    = [(4 - 2) / (2 # 10); 0 / (2 # 10)]%Q
  /\ ~ Forall2 Qeq
       (zip_with (fun x b => Qmax (x / (2 # 10) - b) 0)%Q [4; 40]%Q [2; 40]%Q)
       (zip_with (fun x b => Qmax (x - b) 0 / (2 # 10))%Q [4; 40]%Q [2; 40]%Q).
Proof.
  split; [reflexivity |]. split; [reflexivity |].
  intros H. inversion H as [| ? ? ? ? Hq _]; subst. vm_compute in Hq. discriminate.
Qed.

(** [get_spectrum] with a stored background and no mask: the same
    correction, applied to the scan it has just taken. *)
Lemma get_spectrum_corrects_background (w : World) (bg : list Q) :
  spec_healthy w ->
  truthy (fst (mask_range (spec w))) && truthy (snd (mask_range (spec w))) = false ->
  background (spec w) = Some bg ->
  List.length (snd (device_spectrum w (scans w))) = List.length bg ->
  spectrometer.get_spectrum true w
  = (Ret (fst (device_spectrum w (scans w)),
          zip_with (fun r b => Qmax (r - b) 0) (snd (device_spectrum w (scans w))) bg),
     acquired w)
  /\ Forall (fun x => 0 <= x)%Q
            (zip_with (fun r b => Qmax (r - b) 0)
                      (snd (device_spectrum w (scans w))) bg).
Proof.
  intros Hh Hmask Hbg Hlen.
  assert (Hrun : spectrometer.get_spectrum true w
    = (Ret (fst (device_spectrum w (scans w)),
            zip_with (fun r b => Qmax (r - b) 0) (snd (device_spectrum w (scans w))) bg),
       acquired w)).
  { unfold spectrometer.get_spectrum.
    unfold bind at 1. rewrite (get_raw_spectrum_healthy w Hh).
    unfold bind at 1, get.
    change (spec (acquired w)) with (spec w). rewrite Hmask, Hbg.
    unfold bind at 1, ret. cbn [fst snd].
    unfold bind. rewrite (subtract_and_clip_equal_length _ _ _ Hlen).
    f_equal. f_equal. f_equal. apply zip_with_ext. intros x y. apply clip0_max. }
  split; [exact Hrun |].
  apply Forall_forall. intros x Hx.
  rewrite <- (zip_with_ext (fun r b => clip0 (r - b))) in Hx
    by (intros; apply clip0_max).
  rewrite <- zip_with_map in Hx. apply in_map_iff in Hx.
  destruct Hx as (y & <- & _). apply clip0_nonneg.
Qed.

(* ================================================================== *)
(** * Theorems: the degradation run *)

Section Quiet.
Context {A B : Type}.

Lemma quiet_ret (a : A) : quiet (ret a).
Proof. intros w o w' [= _ <-]. reflexivity. Qed.

Lemma quiet_raise (e : PyExn) : quiet (@raise A e).
Proof. intros w o w' [= _ <-]. reflexivity. Qed.

Lemma quiet_out_of_fuel : quiet (@out_of_fuel A).
Proof. intros w o w' [= _ <-]. reflexivity. Qed.

Lemma quiet_get (f : World -> A) : quiet (get f).
Proof. intros w o w' [= _ <-]. reflexivity. Qed.

Lemma quiet_bind (m : M A) (k : A -> M B) :
  quiet m -> (forall a, quiet (k a)) -> quiet (bind m k).
Proof.
  intros Hm Hk w o w'. unfold bind.
  destruct (m w) as [[a | e |] w1] eqn:E; pose proof (Hm _ _ _ E) as H1.
  - intros H2. apply Hk in H2. congruence.
  - intros [= _ <-]. exact H1.
  - intros [= _ <-]. exact H1.
Qed.
End Quiet.

Lemma quiet_modify (f : World -> World) :
  (forall w, persisted (f w) = persisted w) -> quiet (modify f).
Proof. intros H w o w' [= _ <-]. apply H. Qed.

Lemma quiet_emit (e : Event) : is_save e = false -> quiet (emit e).
Proof.
  intros H. apply quiet_modify. intros w. unfold persisted. simpl.
  rewrite H. reflexivity.
Qed.

Lemma quiet_hw (c : HwCall) : quiet (hw c).
Proof.
  unfold hw. apply quiet_bind; [apply quiet_emit; reflexivity |].
  intros _ w o w'. destruct (faulty w c); intros [= _ <-]; reflexivity.
Qed.

Lemma quiet_sleep (d : Q) : quiet (sleep d).
Proof.
  intros w o w'. unfold sleep. destruct (Qle_bool 0 d); intros [= _ <-]; reflexivity.
Qed.

Lemma quiet_dict_item {A} (o : option A) : quiet (dict_item o).
Proof. destruct o; [apply quiet_ret | apply quiet_raise]. Qed.

Lemma quiet_read_local {A} (o : option A) : quiet (read_local o).
Proof. destruct o; [apply quiet_ret | apply quiet_raise]. Qed.

Lemma quiet_mean_or_raise (r : MeanResult) : quiet (mean_or_raise r).
Proof. destruct r; [apply quiet_ret | apply quiet_raise | apply quiet_raise]. Qed.

Create HintDb quiet.
#[local] Hint Resolve quiet_ret quiet_raise quiet_out_of_fuel quiet_get quiet_hw
  quiet_sleep quiet_dict_item quiet_read_local quiet_mean_or_raise : quiet.

Ltac quiet_step :=
  match goal with
  | |- quiet (bind _ _) => apply quiet_bind; [| intros ?]
  | |- quiet (if ?b then _ else _) => destruct b
  | |- quiet (modify _) => apply quiet_modify; intros ?; reflexivity
  | |- quiet (emit _) => apply quiet_emit; reflexivity
  | |- quiet _ => solve [auto with quiet]
  end.
Ltac quiet_auto := repeat quiet_step.

Lemma quiet_pulse_once : quiet _pulse_once.
Proof. unfold _pulse_once, trigger_cycle, set_current_slot. quiet_auto. Qed.
#[local] Hint Resolve quiet_pulse_once : quiet.

Lemma quiet_go_to_slot_while (fuel : nat) :
  forall target_slot max_attempts attempts,
    quiet (go_to_slot_while fuel _pulse_once target_slot max_attempts attempts).
Proof.
  induction fuel as [| fuel IH]; intros t m a w o w'; simpl;
    destruct (negb (current_slot (fw w) =? t) && (a <? m)).
  - intros [= _ <-]. reflexivity.
  - intros [= _ <-]. reflexivity.
  - apply quiet_bind; [apply quiet_pulse_once | intros _; apply IH].
  - intros [= _ <-]. reflexivity.
Qed.
#[local] Hint Resolve quiet_go_to_slot_while : quiet.

Lemma quiet_go_to_slot (s : Z) : quiet (go_to_slot s).
Proof. unfold go_to_slot, go_to_slot_with. quiet_auto. Qed.
#[local] Hint Resolve quiet_go_to_slot : quiet.

Lemma quiet_get_power : quiet pm.get_power.
Proof. unfold pm.get_power. quiet_auto. Qed.

Lemma quiet_get_raw_spectrum : quiet spectrometer.get_raw_spectrum.
Proof. unfold spectrometer.get_raw_spectrum. quiet_auto. Qed.
#[local] Hint Resolve quiet_get_power quiet_get_raw_spectrum : quiet.

Lemma quiet_raw_intensity : quiet experiment.raw_intensity.
Proof. unfold experiment.raw_intensity. quiet_auto. Qed.
#[local] Hint Resolve quiet_raw_intensity : quiet.

Lemma quiet_comprehension {A} (n : nat) (m : M A) :
  quiet m -> quiet (comprehension n m).
Proof. intros H. induction n; simpl; quiet_auto; assumption. Qed.
#[local] Hint Resolve quiet_comprehension : quiet.

Lemma quiet_capture (self : PLExperiment) : quiet (experiment.capture self).
Proof.
  unfold experiment.capture, experiment.average_spectrum. quiet_auto.
Qed.

Lemma quiet_background_frame (self : PLExperiment) :
  quiet (experiment.background_frame self).
Proof. unfold experiment.background_frame. quiet_auto. Qed.

Lemma quiet_go_to_named_slot (self : PLExperiment) (name : string) :
  quiet (experiment.go_to_named_slot self name).
Proof. unfold experiment.go_to_named_slot. quiet_auto. Qed.
#[local] Hint Resolve quiet_capture quiet_background_frame
  quiet_go_to_named_slot : quiet.

Lemma quiet_select_path (self : PLExperiment) (n f : string)
    (background : option (list Q)) :
  quiet (experiment.select_path self n f background).
Proof. unfold experiment.select_path. quiet_auto. Qed.

Lemma quiet_mirror_background (self : PLExperiment) :
  quiet (experiment.mirror_background self).
Proof. unfold experiment.mirror_background. quiet_auto. Qed.
#[local] Hint Resolve quiet_select_path quiet_mirror_background : quiet.

Lemma bind_ret_inv {A B} (m : M A) (k : A -> M B) (w w' : World) (b : B) :
  bind m k w = (Ret b, w') ->
  exists a w1, m w = (Ret a, w1) /\ k a w1 = (Ret b, w').
Proof.
  unfold bind. destruct (m w) as [[a | e |] w1]; try discriminate.
  intros H. exists a, w1. split; [reflexivity | exact H].
Qed.

Lemma fails_quietly_is_quiet {A} (m : M A) : fails_quietly m -> quiet m.
Proof. intros H w o w' E. exact (proj1 (H w o w' E)). Qed.

(** A step whose normal results all satisfy [P], followed by a continuation
    that fails quietly on such results. *)
Lemma fails_quietly_bind {A B} (P : A -> Prop) (m : M A) (k : A -> M B) :
  quiet m ->
  (forall w a w', m w = (Ret a, w') -> P a) ->
  (forall a, P a -> fails_quietly (k a)) ->
  fails_quietly (bind m k).
Proof.
  intros Hq HP Hk w o w'. unfold bind.
  destruct (m w) as [[a | e |] w1] eqn:E; pose proof (Hq _ _ _ E) as H1.
  - intros H2. destruct (Hk a (HP _ _ _ E) _ _ _ H2) as [H3 H4].
    split; [congruence | exact H4].
  - intros [= <- <-]. split; [exact H1 | discriminate].
  - intros [= <- <-]. split; [exact H1 | discriminate].
Qed.

Lemma fails_quietly_raise {A} (e : PyExn) : fails_quietly (@raise A e).
Proof. intros w o w' [= <- <-]. split; [reflexivity | discriminate]. Qed.

(** Outside the mirror branch the optical path leaves the local
    [background] as it found it. *)
Lemma select_path_keeps_background (self : PLExperiment) (n f : string)
    (background : option (list Q)) (w w' : World) (P : Q) (b : option (list Q)) :
  String.eqb f "skip" = true \/ String.eqb n "mirror" = false ->
  experiment.select_path self n f background w = (Ret (P, b), w') ->
  b = background.
Proof.
  intros Hcase. unfold experiment.select_path.
  destruct (String.eqb f "skip") eqn:Ef; cbn [negb].
  - intros [= _ <- _]. reflexivity.
  - destruct Hcase as [Hcase | Hcase]; [discriminate |]. rewrite Hcase.
    destruct (String.eqb n "beam_splitter").
    + intros H. apply bind_ret_inv in H. destruct H as (_ & w1 & _ & H).
      apply bind_ret_inv in H. destruct H as (p & w2 & _ & H).
      injection H as _ <- _. reflexivity.
    + intros H. apply bind_ret_inv in H. destruct H as (_ & w1 & _ & H).
      injection H as _ <- _. reflexivity.
Qed.

Lemma correct_background_unbound (cfg : UserConfig) (inten : list Q) (w : World) :
  dict_get (background_correction cfg) false = true ->
  experiment.correct_background cfg None inten w = (Raise NameError, w).
Proof.
  intros H. unfold experiment.correct_background. rewrite H. reflexivity.
Qed.

Section NoMirror.
Variables (self : PLExperiment) (n f : string).
Hypothesis Hbg : dict_get (background_correction (user_cfg self)) false = true.
Hypothesis Hcase : String.eqb f "skip" = true \/ String.eqb n "mirror" = false.

(** A cycle entered with [background] unbound stops before anything is
    written. *)
Lemma degradation_cycle_unbound (interval : Q) :
  fails_quietly (experiment.degradation_cycle self interval n f None).
Proof.
  unfold experiment.degradation_cycle.
  apply (fails_quietly_bind (fun path => snd path = None)).
  - apply quiet_select_path.
  - intros w [P b] w' H. apply (select_path_keeps_background _ _ _ _ _ _ _ _ Hcase H).
  - intros [P b] Hb. cbn [snd] in Hb. subst b. cbn [fst snd].
    apply (fails_quietly_bind (fun _ => True)); [apply quiet_sleep | trivial |].
    intros _ _.
    apply (fails_quietly_bind (fun _ => True)); [apply quiet_capture | trivial |].
    intros captured _.
    intros w o w'. unfold bind at 1.
    rewrite (correct_background_unbound _ _ _ Hbg).
    intros [= <- <-]. split; [reflexivity | discriminate].
Qed.

Lemma degradation_while_unbound (fuel : nat) (t0 duration interval : Q) :
  quiet (experiment.degradation_while fuel self t0 duration interval n f None).
Proof.
  destruct fuel as [| fuel]; cbn [experiment.degradation_while].
  - unfold time_time. quiet_auto.
  - unfold time_time. apply quiet_bind; [apply quiet_get |]. intros now.
    destruct (Qltb (now - t0) duration); [| apply quiet_ret].
    apply fails_quietly_is_quiet.
    apply (fails_quietly_bind (fun _ => False)).
    + apply fails_quietly_is_quiet, degradation_cycle_unbound.
    + intros w a w' H.
      exact (proj2 (degradation_cycle_unbound interval _ _ _ H) a eq_refl).
    + intros a [].
Qed.
End NoMirror.

Lemma loop_entered_at_start (c duration : Q) :
  (0 < duration)%Q -> Qltb (c - c) duration = true.
Proof. intros H. apply Qltb_lt. lra. Qed.

(** C10.  A degradation run with background correction on, [repeated_bg]
    true or absent, and a cycle that does not pass through the mirror branch
    ([flywheel_mode] is ["skip"], or [normalization] is not ["mirror"]):
    no spectrum is written to disk, a run whose loop is entered does not
    return normally, and when the optical path and the capture of the first
    cycle succeed the run ends there with [NameError], raised by the read of
    the unbound local [background]. *)
Theorem degradation_without_mirror_raises_name_error
    (self : PLExperiment) (fuel : nat) (w : World)
    (duration interval : Q) (n f : string) :
  degradation_duration_s (user_cfg self) = Some duration ->
  sampling_interval_s (user_cfg self) = Some interval ->
  normalization (user_cfg self) = Some n ->
  flywheel_mode (user_cfg self) = Some f ->
  dict_get (background_correction (user_cfg self)) false = true ->
  dict_get (repeated_bg (user_cfg self)) true = true ->
  String.eqb f "skip" = true \/ String.eqb n "mirror" = false ->
  persisted (snd (experiment.run_degradation_study fuel self w)) = persisted w
  /\ ((0 < duration)%Q ->
      forall a, fst (experiment.run_degradation_study fuel self w) <> Ret a)
  /\ (forall (P : Q) (b : option (list Q)) (wl inten : list Q) (w1 w2 : World),
        (0 < duration)%Q ->
        (0 < fuel)%nat ->
        experiment.select_path self n f None w = (Ret (P, b), w1) ->
        experiment.capture self (set_clock (clock w1 + (1 # 2))%Q w1)
          = (Ret (wl, inten), w2) ->
        experiment.run_degradation_study fuel self w = (Raise NameError, w2)).
Proof.
  intros Hd Hi Hn Hf Hbg Hrep Hcase.
  assert (Hrun : experiment.run_degradation_study fuel self w
                 = bind (experiment.degradation_while fuel self (clock w) duration
                           interval n f None)
                        (fun _ => try_except (emit SummaryPlots) (fun _ => ret tt))
                        w).
  { unfold experiment.run_degradation_study.
    rewrite Hd, Hi, Hn, Hf, Hbg, Hrep. reflexivity. }
  split; [| split].
  - rewrite Hrun.
    destruct (bind _ _ w) as [o w'] eqn:E. cbn [snd].
    revert E. apply quiet_bind.
    + apply degradation_while_unbound; assumption.
    + intros _ w0 o0 w0'. unfold try_except, emit, modify.
      intros [= _ <-]. reflexivity.
  - intros Hpos a. rewrite Hrun. unfold bind at 1.
    destruct fuel as [| fuel]; cbn [experiment.degradation_while];
      unfold bind at 1, time_time, get; rewrite (loop_entered_at_start _ _ Hpos).
    + discriminate.
    + unfold bind at 1.
      destruct (experiment.degradation_cycle self interval n f None w)
        as [[b | e |] w'] eqn:E; try discriminate.
      exfalso.
      exact (proj2 (degradation_cycle_unbound self n f Hbg Hcase interval _ _ _ E)
                   b eq_refl).
  - intros P b wl inten w1 w2 Hpos Hfuel Hpath Hcap.
    assert (b = None) by exact (select_path_keeps_background _ _ _ _ _ _ _ _ Hcase Hpath).
    subst b.
    rewrite Hrun. unfold bind at 1.
    destruct fuel as [| fuel]; [lia |]. cbn [experiment.degradation_while].
    unfold bind at 1, time_time, get. rewrite (loop_entered_at_start _ _ Hpos).
    unfold bind at 1. unfold experiment.degradation_cycle.
    unfold bind at 1. rewrite Hpath. cbn [fst snd].
    unfold bind at 1. rewrite sleep_nonneg by discriminate.
    unfold bind at 1. rewrite Hcap. cbn [fst snd].
    unfold bind at 1. rewrite (correct_background_unbound _ _ _ Hbg).
    reflexivity.
Qed.

(** The demonstration run in skip mode: two seconds, one-second interval,
    background correction on, [repeated_bg] absent. *)
Lemma degradation_without_mirror_raises_name_error_witness :
  persisted (snd (experiment.run_degradation_study 4 (demo_exp "skip") (demo_world 1)))
    = []
  /\ fst (experiment.run_degradation_study 4 (demo_exp "skip") (demo_world 1))
     = Raise NameError.
Proof.
  destruct (degradation_without_mirror_raises_name_error
              (demo_exp "skip") 4 (demo_world 1) 2 1 "mirror" "skip"
              eq_refl eq_refl eq_refl eq_refl eq_refl eq_refl
              (or_introl eq_refl)) as (Hquiet & _ & Hraise).
  split; [exact Hquiet |].
  rewrite (Hraise 1%Q None
             (fst (demo_spectrum 1)) (snd (demo_spectrum 0))
             (demo_world 1)
             (acquired (acquired (set_clock (0 + (1 # 2))%Q (demo_world 1))))).
  - reflexivity.
  - reflexivity.
  - lia.
  - reflexivity.
  - vm_compute. reflexivity.
Defined.

(* ================================================================== *)
(** * Theorems: start-up and shutdown *)

Section Grows.
Context {A B : Type}.

Lemma grows_ret (a : A) : grows (ret a).
Proof. intros w o w' [= _ <-]. exists []. reflexivity. Qed.

Lemma grows_raise (e : PyExn) : grows (@raise A e).
Proof. intros w o w' [= _ <-]. exists []. reflexivity. Qed.

Lemma grows_out_of_fuel : grows (@out_of_fuel A).
Proof. intros w o w' [= _ <-]. exists []. reflexivity. Qed.

Lemma grows_get (f : World -> A) : grows (get f).
Proof. intros w o w' [= _ <-]. exists []. reflexivity. Qed.

Lemma grows_bind (m : M A) (k : A -> M B) :
  grows m -> (forall a, grows (k a)) -> grows (bind m k).
Proof.
  intros Hm Hk w o w'. unfold bind.
  destruct (m w) as [[a | e |] w1] eqn:E; destruct (Hm _ _ _ E) as (ev1 & H1).
  - intros H2. destruct (Hk _ _ _ _ H2) as (ev2 & H3).
    exists (ev2 ++ ev1). rewrite H3, H1, app_assoc. reflexivity.
  - intros [= _ <-]. exists ev1. exact H1.
  - intros [= _ <-]. exists ev1. exact H1.
Qed.

Lemma grows_In (m : M A) (w w' : World) (o : Outcome A) (e : Event) :
  grows m -> m w = (o, w') -> In e (trace w) -> In e (trace w').
Proof.
  intros Hm H Hin. destruct (Hm _ _ _ H) as (ev & ->).
  apply in_or_app. right. exact Hin.
Qed.
End Grows.

Lemma grows_modify (f : World -> World) :
  (forall w, trace (f w) = trace w) -> grows (modify f).
Proof. intros H w o w' [= _ <-]. exists []. apply H. Qed.

Lemma grows_emit (e : Event) : grows (emit e).
Proof. intros w o w' [= _ <-]. exists [e]. reflexivity. Qed.

Lemma grows_hw (c : HwCall) : grows (hw c).
Proof.
  unfold hw. apply grows_bind; [apply grows_emit |].
  intros _ w o w'. destruct (faulty w c); intros [= _ <-]; exists []; reflexivity.
Qed.

Lemma grows_open_session (c : HwCall) : grows (open_session c).
Proof.
  unfold open_session. apply grows_bind; [apply grows_emit |].
  intros _ w o w'. destruct (faulty w c); intros [= _ <-]; exists []; reflexivity.
Qed.

Lemma grows_sleep (d : Q) : grows (sleep d).
Proof.
  intros w o w'. unfold sleep.
  destruct (Qle_bool 0 d); intros [= _ <-]; exists []; reflexivity.
Qed.

Lemma grows_dict_item {A} (o : option A) : grows (dict_item o).
Proof. destruct o; [apply grows_ret | apply grows_raise]. Qed.

Create HintDb grows.
#[local] Hint Resolve grows_ret grows_raise grows_out_of_fuel grows_get grows_emit
  grows_hw grows_open_session grows_sleep grows_dict_item : grows.

Ltac grows_step :=
  match goal with
  | |- grows (bind _ _) => apply grows_bind; [| intros ?]
  | |- grows (if ?b then _ else _) => destruct b
  | |- grows (match ?x with _ => _ end) => destruct x
  | |- grows (modify _) => apply grows_modify; intros ?; reflexivity
  | |- grows _ => solve [auto with grows]
  end.
Ltac grows_auto := repeat grows_step.

Lemma grows_pulse_once : grows _pulse_once.
Proof. unfold _pulse_once, trigger_cycle, set_current_slot. grows_auto. Qed.
#[local] Hint Resolve grows_pulse_once : grows.

Lemma grows_go_to_slot_while (fuel : nat) :
  forall target_slot max_attempts attempts,
    grows (go_to_slot_while fuel _pulse_once target_slot max_attempts attempts).
Proof.
  induction fuel as [| fuel IH]; intros t m a w o w'; simpl;
    destruct (negb (current_slot (fw w) =? t) && (a <? m)).
  - intros [= _ <-]. exists []. reflexivity.
  - intros [= _ <-]. exists []. reflexivity.
  - apply grows_bind; [apply grows_pulse_once | intros _; apply IH].
  - intros [= _ <-]. exists []. reflexivity.
Qed.
#[local] Hint Resolve grows_go_to_slot_while : grows.

Lemma grows_go_to_slot (s : Z) : grows (go_to_slot s).
Proof. unfold go_to_slot, go_to_slot_with. grows_auto. Qed.

Lemma grows_reset_slot (s : Z) : grows (reset_slot s).
Proof. unfold reset_slot, set_current_slot. grows_auto. Qed.

Lemma grows_get_power : grows pm.get_power.
Proof. unfold pm.get_power. grows_auto. Qed.
#[local] Hint Resolve grows_go_to_slot grows_reset_slot grows_get_power : grows.

Lemma grows_scan_slots (n : nat) :
  forall measurements, grows (scan_slots n measurements).
Proof.
  induction n as [| n IH]; intros acc; cbn [scan_slots].
  - apply grows_ret.
  - unfold get_current_slot. grows_auto.
Qed.
#[local] Hint Resolve grows_scan_slots : grows.

Lemma grows_configure : grows configure_flywheel_with_powermeter.
Proof. unfold configure_flywheel_with_powermeter. grows_auto. Qed.

Lemma grows_set_integration_time (s : Q) :
  grows (spectrometer.set_integration_time s).
Proof. unfold spectrometer.set_integration_time. grows_auto. Qed.

Lemma grows_set_mask_range (lo hi : option Q) :
  grows (spectrometer.set_mask_range lo hi).
Proof. unfold spectrometer.set_mask_range. grows_auto. Qed.
#[local] Hint Resolve grows_configure grows_set_integration_time
  grows_set_mask_range : grows.

Lemma open_session_returns (c : HwCall) (w w' : World) (u : unit) :
  open_session c w = (Ret u, w') -> trace w' = Hw c :: trace w.
Proof.
  unfold open_session, bind, emit, modify. cbn [trace set_trace].
  destruct (faulty _ c); intros [= _ <-]; reflexivity.
Qed.

Lemma hw_returns (c : HwCall) (w w' : World) (u : unit) :
  hw c w = (Ret u, w') -> trace w' = Hw c :: trace w.
Proof.
  unfold hw, bind, emit, modify. cbn [trace set_trace].
  destruct (faulty _ c); intros [= _ <-]; reflexivity.
Qed.

Lemma init_opens_sessions (config : UserConfig) (setup : SetupConfig)
    (w w1 : World) (exp : PLExperiment) :
  experiment.__init__ config setup w = (Ret exp, w1) ->
  In (Hw PM100D_init) (trace w1)
  /\ In (Hw visa_open) (trace w1)
  /\ (dict_get (spectrometer_simulate setup) false = false ->
      In (Hw tlccs_init) (trace w1)).
Proof.
  unfold experiment.__init__. intros H.
  apply bind_ret_inv in H. destruct H as (u1 & wa & Hspec & H).
  apply bind_ret_inv in H. destruct H as (u2 & wb & Hpm & H).
  apply bind_ret_inv in H. destruct H as (u3 & wc & Hfw & H).
  apply open_session_returns in Hpm.
  assert (Hvisa : In (Hw visa_open) (trace wc)).
  { unfold flywheel.__init__ in Hfw.
    apply bind_ret_inv in Hfw. destruct Hfw as (u4 & wd & _ & Hfw).
    apply bind_ret_inv in Hfw. destruct Hfw as (u5 & we & Hopen & Hfw).
    apply hw_returns in Hopen.
    refine (grows_In _ _ _ _ _ _ Hfw _); [grows_auto |].
    rewrite Hopen. left. reflexivity. }
  assert (Htail : forall e, In e (trace wc) -> In e (trace w1)).
  { intros e. refine (grows_In _ _ _ _ _ _ H); grows_auto. }
  assert (Hfw_grows : forall e, In e (trace wb) -> In e (trace wc)).
  { intros e. refine (grows_In _ _ _ _ _ _ Hfw).
    unfold flywheel.__init__. grows_auto. }
  split; [| split].
  - apply Htail, Hfw_grows. rewrite Hpm. left. reflexivity.
  - apply Htail, Hvisa.
  - intros Hsim. apply Htail, Hfw_grows. rewrite Hpm. right.
    unfold spectrometer.__init__ in Hspec. rewrite Hsim in Hspec.
    apply bind_ret_inv in Hspec. destruct Hspec as (u4 & wd & _ & Hspec).
    apply bind_ret_inv in Hspec. destruct Hspec as (u5 & we & Hopen & Hspec).
    apply open_session_returns in Hopen.
    refine (grows_In _ _ _ _ _ _ Hspec _); [grows_auto |].
    rewrite Hopen. left. reflexivity.
Qed.

(** With auto-configuration enabled (the default), the last thing a
    constructor that returns has done is a calibration scan that returned,
    started after the sessions were opened. *)
Lemma init_runs_configure (config : UserConfig) (setup : SetupConfig)
    (w w1 : World) (exp : PLExperiment) :
  experiment.__init__ config setup w = (Ret exp, w1) ->
  dict_get (auto_configure_flywheel config) true = true ->
  exists w0,
    configure_flywheel_with_powermeter w0 = (Ret tt, w1)
    /\ In (Hw PM100D_init) (trace w0)
    /\ In (Hw visa_open) (trace w0).
Proof.
  unfold experiment.__init__. intros H Hauto. rewrite Hauto in H.
  apply bind_ret_inv in H. destruct H as (u1 & wa & Hspec & H).
  apply bind_ret_inv in H. destruct H as (u2 & wb & Hpm & H).
  apply bind_ret_inv in H. destruct H as (u3 & wc & Hfw & H).
  apply bind_ret_inv in H. destruct H as (u4 & wd & Hmask & H).
  apply bind_ret_inv in H. destruct H as (ms & we & Hms & H).
  apply bind_ret_inv in H. destruct H as (u5 & wf & Htime & H).
  apply bind_ret_inv in H. destruct H as ([] & wg & Hconf & H).
  apply bind_ret_inv in H. destruct H as (self_fw & wh & Hget & H).
  unfold get in Hget. unfold ret in H.
  assert (wg = w1) by congruence. subst wg.
  apply open_session_returns in Hpm.
  assert (Hvisa : In (Hw visa_open) (trace wc)).
  { unfold flywheel.__init__ in Hfw.
    apply bind_ret_inv in Hfw. destruct Hfw as (u6 & wi & _ & Hfw).
    apply bind_ret_inv in Hfw. destruct Hfw as (u7 & wj & Hopen & Hfw).
    apply hw_returns in Hopen.
    refine (grows_In _ _ _ _ _ _ Hfw _); [grows_auto |].
    rewrite Hopen. left. reflexivity. }
  assert (Hfw_grows : forall e, In e (trace wb) -> In e (trace wc)).
  { intros e. refine (grows_In _ _ _ _ _ _ Hfw).
    unfold flywheel.__init__. grows_auto. }
  assert (Htail : forall e, In e (trace wc) -> In e (trace wf)).
  { intros e Hin.
    refine (grows_In _ _ _ _ _ _ Htime _); [grows_auto |].
    refine (grows_In _ _ _ _ _ _ Hms _); [grows_auto |].
    refine (grows_In _ _ _ _ _ _ Hmask Hin). grows_auto. }
  exists wf. split; [exact Hconf |]. split.
  - apply Htail, Hfw_grows. rewrite Hpm. left. reflexivity.
  - apply Htail, Hvisa.
Qed.

Lemma run_selected_mode_unrecognized (live_tuning : M unit) (fuel : nat)
    (experiment_type : string) (exp : PLExperiment) :
  unrecognized experiment_type ->
  run_selected_mode live_tuning fuel experiment_type exp = raise ValueError.
Proof.
  intros (H1 & H2 & H3). unfold run_selected_mode. rewrite H1, H2, H3. reflexivity.
Qed.

(** C8 (as the code has it).  With an experiment type that is none of the
    three, [main] is the constructor followed by [raise ValueError] under the
    [finally] block: when the constructor returns, the power-meter and
    flywheel sessions, and the spectrometer session unless it is simulated,
    have been opened, the calibration scan of auto-configuration has run and
    returned if it is enabled (it is by default), no mode runs, and [main]
    ends with [ValueError] once the shutdown has returned. *)
Theorem main_rejects_unknown_type_after_init
    (live_tuning : M unit) (fuel : nat)
    (config : UserConfig) (setup : SetupConfig) (w : World) :
  unrecognized (dict_get (experiment_type config) "degradation"%string) ->
  main live_tuning fuel config setup w
    = bind (experiment.__init__ config setup)
           (fun _ => try_finally (raise ValueError) experiment.shutdown) w
  /\ forall exp w1,
       experiment.__init__ config setup w = (Ret exp, w1) ->
       In (Hw PM100D_init) (trace w1)
       /\ In (Hw visa_open) (trace w1)
       /\ (dict_get (spectrometer_simulate setup) false = false ->
           In (Hw tlccs_init) (trace w1))
       /\ (dict_get (auto_configure_flywheel config) true = true ->
           exists w0,
             configure_flywheel_with_powermeter w0 = (Ret tt, w1)
             /\ In (Hw PM100D_init) (trace w0)
             /\ In (Hw visa_open) (trace w0))
       /\ forall o3 w3,
            experiment.shutdown w1 = (o3, w3) ->
            main live_tuning fuel config setup w
              = (after_finally (Raise ValueError) o3, w3).
Proof.
  intros Hun.
  assert (Hmain : main live_tuning fuel config setup w
                  = bind (experiment.__init__ config setup)
                      (fun _ => try_finally (raise ValueError) experiment.shutdown) w).
  { unfold main, bind. destruct (experiment.__init__ config setup w) as [[exp | e |] w1];
      try reflexivity.
    rewrite (run_selected_mode_unrecognized _ _ _ _ Hun). reflexivity. }
  split; [exact Hmain |].
  intros exp w1 Hinit.
  destruct (init_opens_sessions _ _ _ _ _ Hinit) as (Hpm & Hvisa & Hspec).
  repeat (split; [assumption |]).
  split; [exact (init_runs_configure _ _ _ _ _ Hinit) |].
  intros o3 w3 Hshut. rewrite Hmain. unfold bind. rewrite Hinit.
  unfold try_finally, raise. rewrite Hshut. destruct o3; reflexivity.
Qed.

(** The type ["calibration"] with auto-configuration left on, on the
    demonstration laboratory: the three sessions are opened, the calibration
    scan takes its six readings, and [main] ends with [ValueError]. *)
Lemma main_rejects_unknown_type_after_init_witness :
  In (Hw PM100D_init)
     (trace (snd (experiment.__init__ calibration_user demo_setup (demo_world 1))))
  /\ In (Hw visa_open)
        (trace (snd (experiment.__init__ calibration_user demo_setup (demo_world 1))))
  /\ In (Hw tlccs_init)
        (trace (snd (experiment.__init__ calibration_user demo_setup (demo_world 1))))
  /\ (exists w0,
        configure_flywheel_with_powermeter w0
          = (Ret tt, snd (experiment.__init__ calibration_user demo_setup (demo_world 1)))
        /\ In (Hw PM100D_init) (trace w0)
        /\ In (Hw visa_open) (trace w0))
  /\ reads (snd (experiment.__init__ calibration_user demo_setup (demo_world 1)))
     = 6%nat
  /\ fst (main (ret tt) 0 calibration_user demo_setup (demo_world 1))
     = Raise ValueError.
Proof.
  destruct (main_rejects_unknown_type_after_init (ret tt) 0
              calibration_user demo_setup (demo_world 1))
    as [_ Hinit].
  - repeat split.
  - destruct (Hinit (mkExp calibration_user demo_mapping 1 true "each")
                (snd (experiment.__init__ calibration_user demo_setup (demo_world 1))))
      as (Hpm & Hvisa & Hspec & Hconf & Hmain).
    + vm_compute. reflexivity.
    + repeat (split; [assumption |]).
      split; [apply Hspec; reflexivity |].
      split; [apply Hconf; reflexivity |].
      split; [vm_compute; reflexivity |].
      rewrite (Hmain (Ret tt)
                 (snd (experiment.shutdown
                    (snd (experiment.__init__ calibration_user demo_setup
                            (demo_world 1)))))).
      * reflexivity.
      * vm_compute. reflexivity.
Defined.

(** C8, against the claim as stated: with the unknown type ["calibration"]
    the run ends with [ValueError], and by then the three hardware sessions
    have been opened (and closed again by the shutdown). *)
Lemma unknown_type_rejected_after_sessions_opened :
  unrecognized "calibration"
  /\ sessions_opened (demo_world 1) = []
  /\ fst (main (ret tt) 0 (demo_user "calibration" "skip") demo_setup (demo_world 1))
     = Raise ValueError
  /\ sessions_opened
       (snd (main (ret tt) 0 (demo_user "calibration" "skip") demo_setup
               (demo_world 1)))
     = [Hw visa_open; Hw PM100D_init; Hw tlccs_init]
  /\ trace (snd (main (ret tt) 0 (demo_user "calibration" "skip") demo_setup
                   (demo_world 1)))
     = [Hw visa_close; Hw (gen_output false); Enter fw_close;
        Hw PM100D_close; Enter pm_close; Hw tlccs_close; Enter spec_shutdown;
        Hw tlccs_setIntegrationTime;
        Hw (gen_output false); Hw gen_configure; Hw visa_open;
        Hw PM100D_init;
        Hw tlccs_setIntegrationTime; Hw tlccs_init].
Proof. repeat split. Qed.

Lemma spectrometer_shutdown_run (w : World) :
  spectrometer.shutdown w
  = (if simulate (spec w) || negb (faulty w tlccs_close)
     then Ret tt else Raise (DeviceError tlccs_close),
     set_trace (spec_shutdown_events w ++ trace w) w).
Proof.
  unfold spectrometer.shutdown, spec_shutdown_events, hw, bind, emit, modify, get, ret.
  cbn [spec set_trace faulty trace]. destruct (simulate (spec w)); cbn [negb orb].
  - reflexivity.
  - cbn [spec set_trace faulty trace app]. destruct (faulty w tlccs_close); reflexivity.
Qed.

Lemma pm_close_run (w : World) :
  pm.close w
  = (if faulty w PM100D_close then Raise (DeviceError PM100D_close) else Ret tt,
     set_trace (Hw PM100D_close :: Enter pm_close :: trace w) w).
Proof.
  unfold pm.close, hw, bind, emit, modify. cbn [set_trace faulty trace].
  destruct (faulty w PM100D_close); reflexivity.
Qed.

Lemma flywheel_close_enters (w w' : World) (o : Outcome unit) :
  flywheel.close w = (o, w') ->
  exists events, trace w' = events ++ Enter fw_close :: trace w.
Proof.
  unfold flywheel.close. unfold bind at 1, emit, modify.
  intros H.
  assert (Hg : grows (hw (gen_output false) ;; hw visa_close)) by grows_auto.
  destruct (Hg _ _ _ H) as (events & Hev). exists events. exact Hev.
Qed.

Lemma spec_hook_returns_bool (w : World) :
  spec_hook_returns w <-> simulate (spec w) || negb (faulty w tlccs_close) = true.
Proof.
  unfold spec_hook_returns. rewrite orb_true_iff, negb_true_iff. reflexivity.
Qed.

(** The hooks of [shutdown] are entered in order, each one only when the
    ones before it returned. *)
Lemma shutdown_cases (w : World) :
  exists o3 w3,
    experiment.shutdown w = (o3, w3)
    /\ In (Enter spec_shutdown) (trace w3)
    /\ (spec_hook_returns w -> In (Enter pm_close) (trace w3))
    /\ (spec_hook_returns w -> faulty w PM100D_close = false ->
        In (Enter fw_close) (trace w3))
    /\ (~ spec_hook_returns w ->
        o3 = Raise (DeviceError tlccs_close)
        /\ trace w3 = spec_shutdown_events w ++ trace w)
    /\ (spec_hook_returns w -> faulty w PM100D_close = true ->
        o3 = Raise (DeviceError PM100D_close)
        /\ trace w3
           = Hw PM100D_close :: Enter pm_close :: spec_shutdown_events w ++ trace w).
Proof.
  assert (Hspec_in : In (Enter spec_shutdown) (spec_shutdown_events w ++ trace w)).
  { apply in_or_app. left. unfold spec_shutdown_events.
    destruct (simulate (spec w)); simpl; auto. }
  unfold experiment.shutdown. unfold bind at 1.
  rewrite spectrometer_shutdown_run.
  set (wa := set_trace (spec_shutdown_events w ++ trace w) w).
  destruct (simulate (spec w) || negb (faulty w tlccs_close)) eqn:Hs.
  - assert (Hret : spec_hook_returns w) by (apply spec_hook_returns_bool, Hs).
    unfold bind at 1. rewrite pm_close_run.
    change (faulty wa PM100D_close) with (faulty w PM100D_close).
    set (wb := set_trace (Hw PM100D_close :: Enter pm_close :: trace wa) wa).
    destruct (faulty w PM100D_close) eqn:Hp.
    + exists (Raise (DeviceError PM100D_close)), wb.
      split; [reflexivity |].
      split; [right; right; exact Hspec_in |].
      split; [intros _; right; left; reflexivity |].
      split; [intros _; discriminate |].
      split; [intros Hn; contradiction |].
      intros _ _. split; reflexivity.
    + destruct (flywheel.close wb) as [o3 w3] eqn:Hf.
      destruct (flywheel_close_enters _ _ _ Hf) as (events & Hev).
      exists o3, w3.
      split; [reflexivity |].
      split; [rewrite Hev; apply in_or_app; right; right; right; right; exact Hspec_in |].
      split; [intros _; rewrite Hev; apply in_or_app; right; right; right; left;
              reflexivity |].
      split; [intros _ _; rewrite Hev; apply in_or_app; right; left; reflexivity |].
      split; [intros Hn; contradiction |].
      intros _; discriminate.
  - assert (Hnot : ~ spec_hook_returns w).
    { intros Hret. apply spec_hook_returns_bool in Hret. congruence. }
    exists (Raise (DeviceError tlccs_close)), wa.
    split; [reflexivity |].
    split; [exact Hspec_in |].
    split; [intros Hret; contradiction |].
    split; [intros Hret; contradiction |].
    split; [intros _; split; reflexivity |].
    intros Hret; contradiction.
Qed.

(** C9 (as the code has it).  When the constructor has returned, whichever
    mode ran and whether it returned or raised, the [finally] block runs
    [shutdown] from the world the mode left.  The spectrometer hook is
    always entered; the power-meter hook is entered when the spectrometer
    hook returned, the flywheel hook when both returned; a hook that raises
    ends the shutdown there, and its exception replaces the mode's outcome. *)
Theorem shutdown_follows_every_mode_in_order
    (live_tuning : M unit) (fuel : nat)
    (config : UserConfig) (setup : SetupConfig)
    (w w1 w2 : World) (exp : PLExperiment) (o : Outcome unit) :
  experiment.__init__ config setup w = (Ret exp, w1) ->
  run_selected_mode live_tuning fuel
    (dict_get (experiment_type config) "degradation"%string) exp w1 = (o, w2) ->
  o <> OutOfFuel ->
  exists o3 w3,
    experiment.shutdown w2 = (o3, w3)
    /\ main live_tuning fuel config setup w = (after_finally o o3, w3)
    /\ In (Enter spec_shutdown) (trace w3)
    /\ (spec_hook_returns w2 -> In (Enter pm_close) (trace w3))
    /\ (spec_hook_returns w2 -> faulty w2 PM100D_close = false ->
        In (Enter fw_close) (trace w3))
    /\ (~ spec_hook_returns w2 ->
        o3 = Raise (DeviceError tlccs_close)
        /\ trace w3 = spec_shutdown_events w2 ++ trace w2)
    /\ (spec_hook_returns w2 -> faulty w2 PM100D_close = true ->
        o3 = Raise (DeviceError PM100D_close)
        /\ trace w3
           = Hw PM100D_close :: Enter pm_close
               :: spec_shutdown_events w2 ++ trace w2).
Proof.
  intros Hinit Hmode Ho.
  destruct (shutdown_cases w2) as (o3 & w3 & Hshut & Hrest).
  exists o3, w3. split; [exact Hshut |]. split; [| exact Hrest].
  unfold main, bind. rewrite Hinit. unfold try_finally. rewrite Hmode, Hshut.
  destruct o as [[] | e |]; [| | congruence]; destruct o3 as [[] | e3 |]; reflexivity.
Qed.

(** A steady-state run of no sample on the laboratory whose spectrometer
    close call fails: the spectrometer hook is the only one entered. *)
Lemma shutdown_follows_every_mode_in_order_witness :
  fst (main (ret tt) 0 (demo_user "steady_state" "skip") demo_setup stuck_close_world)
    = Raise (DeviceError tlccs_close)
  /\ hooks_entered
       (snd (main (ret tt) 0 (demo_user "steady_state" "skip") demo_setup
               stuck_close_world))
     = [Enter spec_shutdown].
Proof.
  destruct (shutdown_follows_every_mode_in_order (ret tt) 0
              (demo_user "steady_state" "skip") demo_setup stuck_close_world
              (snd (experiment.__init__ (demo_user "steady_state" "skip") demo_setup
                      stuck_close_world))
              (snd (experiment.run_steady_state
                      (mkExp (demo_user "steady_state" "skip") demo_mapping 1 true "each")
                      (snd (experiment.__init__ (demo_user "steady_state" "skip")
                              demo_setup stuck_close_world))))
              (mkExp (demo_user "steady_state" "skip") demo_mapping 1 true "each")
              (Ret tt))
    as (o3 & w3 & Hshut & Hmain & _ & _ & _ & Hstuck & _).
  - vm_compute. reflexivity.
  - vm_compute. reflexivity.
  - discriminate.
  - destruct Hstuck as [-> Htrace].
    + intros [Hsim | Hok]; discriminate.
    + rewrite Hmain. cbn [fst snd after_finally]. split; [reflexivity |].
      unfold hooks_entered. rewrite Htrace. reflexivity.
Defined.

(** C9, against the claim as stated: the spectrometer's close call raises,
    and neither the power-meter hook nor the flywheel hook is entered. *)
Lemma failed_spectrometer_close_skips_other_hooks :
  fst (main (ret tt) 0 (demo_user "steady_state" "skip") demo_setup stuck_close_world)
    = Raise (DeviceError tlccs_close)
  /\ trace (snd (main (ret tt) 0 (demo_user "steady_state" "skip") demo_setup
                   stuck_close_world))
     = [Hw tlccs_close; Enter spec_shutdown; SavePlot;
        Hw tlccs_setIntegrationTime;
        Hw (gen_output false); Hw gen_configure; Hw visa_open;
        Hw PM100D_init;
        Hw tlccs_setIntegrationTime; Hw tlccs_init]
  /\ ~ In (Enter pm_close)
          (trace (snd (main (ret tt) 0 (demo_user "steady_state" "skip") demo_setup
                         stuck_close_world)))
  /\ ~ In (Enter fw_close)
          (trace (snd (main (ret tt) 0 (demo_user "steady_state" "skip") demo_setup
                         stuck_close_world))).
Proof.
  assert (Htrace :
    trace (snd (main (ret tt) 0 (demo_user "steady_state" "skip") demo_setup
                  stuck_close_world))
    = [Hw tlccs_close; Enter spec_shutdown; SavePlot;
       Hw tlccs_setIntegrationTime;
       Hw (gen_output false); Hw gen_configure; Hw visa_open;
       Hw PM100D_init;
       Hw tlccs_setIntegrationTime; Hw tlccs_init])
    by (vm_compute; reflexivity).
  split; [vm_compute; reflexivity |]. split; [exact Htrace |].
  rewrite Htrace. split; simpl; intuition discriminate.
Qed.

(* ================================================================== *)
(** * Further theorems: the filter wheel *)

Section Preserves.
Context {A B : Type} (P : World -> Prop).

Lemma preserves_ret (a : A) : preserves P (ret a).
Proof. intros w o w' [= _ <-] H. exact H. Qed.

Lemma preserves_raise (e : PyExn) : preserves P (@raise A e).
Proof. intros w o w' [= _ <-] H. exact H. Qed.

Lemma preserves_out_of_fuel : preserves P (@out_of_fuel A).
Proof. intros w o w' [= _ <-] H. exact H. Qed.

Lemma preserves_get (f : World -> A) : preserves P (get f).
Proof. intros w o w' [= _ <-] H. exact H. Qed.

Lemma preserves_bind (m : M A) (k : A -> M B) :
  preserves P m -> (forall a, preserves P (k a)) -> preserves P (bind m k).
Proof.
  intros Hm Hk w o w'. unfold bind.
  destruct (m w) as [[a | e |] w1] eqn:E; pose proof (Hm _ _ _ E) as H1.
  - intros H2 HP. exact (Hk _ _ _ _ H2 (H1 HP)).
  - intros [= _ <-]. exact H1.
  - intros [= _ <-]. exact H1.
Qed.
End Preserves.

Lemma preserves_modify (P : World -> Prop) (f : World -> World) :
  (forall w, P w -> P (f w)) -> preserves P (modify f).
Proof. intros H w o w' [= _ <-]. apply H. Qed.

Lemma preserves_emit (P : World -> Prop) (e : Event) :
  trace_blind P -> preserves P (emit e).
Proof. intros H. apply preserves_modify. intros w. apply H. Qed.

Lemma preserves_hw (P : World -> Prop) (c : HwCall) :
  trace_blind P -> preserves P (hw c).
Proof.
  intros H. unfold hw. apply preserves_bind; [apply preserves_emit, H |].
  intros _ w o w'. destruct (faulty w c); intros [= _ <-] HP; exact HP.
Qed.

Lemma preserves_open_session (P : World -> Prop) (c : HwCall) :
  trace_blind P -> preserves P (open_session c).
Proof.
  intros H. unfold open_session. apply preserves_bind; [apply preserves_emit, H |].
  intros _ w o w'. destruct (faulty w c); intros [= _ <-] HP; exact HP.
Qed.

Lemma preserves_sleep (P : World -> Prop) (d : Q) :
  clock_blind P -> preserves P (sleep d).
Proof.
  intros H w o w'. unfold sleep.
  destruct (Qle_bool 0 d); intros [= _ <-] HP; [apply H |]; exact HP.
Qed.

Lemma preserves_trigger_cycle (P : World -> Prop) :
  trace_blind P -> clock_blind P -> preserves P trigger_cycle.
Proof.
  intros Ht Hc. unfold trigger_cycle.
  apply preserves_bind; [apply preserves_hw, Ht | intros _].
  apply preserves_bind; [apply preserves_hw, Ht | intros _].
  apply preserves_bind; [apply preserves_sleep, Hc | intros _].
  apply preserves_hw, Ht.
Qed.

Lemma slot_in_range_trace_blind : trace_blind slot_in_range.
Proof. intros t w H. exact H. Qed.

Lemma slot_in_range_clock_blind : clock_blind slot_in_range.
Proof. intros c w H. exact H. Qed.

Lemma pulse_once_keeps_slot_in_range : preserves slot_in_range _pulse_once.
Proof.
  intros w o w'. unfold _pulse_once. unfold bind at 1.
  destruct (trigger_cycle w) as [[[] | e |] w1] eqn:E;
    pose proof (preserves_trigger_cycle slot_in_range slot_in_range_trace_blind
                  slot_in_range_clock_blind _ _ _ E) as H1.
  - unfold bind, get, set_current_slot, modify, ret, slot_in_range in *.
    cbn [fw set_fw current_slot slot_count].
    destruct (Z.gtb_spec (current_slot (fw w1) + 1) (slot_count (fw w1)));
      intros [= _ <-] HP; specialize (H1 HP); cbn [fw set_fw current_slot slot_count];
      lia.
  - intros [= _ <-]. exact H1.
  - intros [= _ <-]. exact H1.
Qed.

Lemma go_to_slot_while_keeps_slot_in_range (fuel : nat) :
  forall t m a,
    preserves slot_in_range (go_to_slot_while fuel _pulse_once t m a).
Proof.
  induction fuel as [| fuel IH]; intros t m a w o w'; cbn [go_to_slot_while];
    destruct (negb (current_slot (fw w) =? t) && (a <? m)).
  - intros [= _ <-] H. exact H.
  - intros [= _ <-] H. exact H.
  - apply preserves_bind; [apply pulse_once_keeps_slot_in_range | intros _; apply IH].
  - intros [= _ <-] H. exact H.
Qed.

Lemma repeat_m_preserves (P : World -> Prop) (m : M unit) (n : nat) :
  preserves P m -> preserves P (repeat_m n m).
Proof.
  intros H. induction n as [| n IH]; cbn [repeat_m].
  - apply preserves_ret.
  - apply preserves_bind; [exact H | intros _; exact IH].
Qed.

Lemma go_to_slot_keeps_slot_in_range (target : Z) :
  preserves slot_in_range (go_to_slot target).
Proof.
  unfold go_to_slot, go_to_slot_with.
  apply preserves_bind; [apply preserves_get | intros self].
  destruct (negb _); [apply preserves_raise |].
  destruct (target =? current_slot self); [apply preserves_ret |].
  apply preserves_bind; [apply go_to_slot_while_keeps_slot_in_range | intros _].
  apply preserves_bind; [apply preserves_get | intros self'].
  destruct (negb _); [apply preserves_raise | apply preserves_ret].
Qed.

Lemma step_keeps_slot_in_range (n : Z) : preserves slot_in_range (step n).
Proof.
  unfold step. apply preserves_bind; [apply preserves_get | intros self].
  destruct (slot_count self =? 0); [apply preserves_raise |].
  apply repeat_m_preserves, pulse_once_keeps_slot_in_range.
Qed.

Lemma reset_slot_keeps_slot_in_range (known : Z) :
  preserves slot_in_range (reset_slot known).
Proof.
  intros w o w'. unfold reset_slot, bind, get, set_current_slot, modify, raise.
  destruct (Z.leb_spec 1 known), (Z.leb_spec known (slot_count (fw w)));
    cbn [negb andb]; intros [= _ <-]; unfold slot_in_range in *;
    cbn [fw set_fw current_slot slot_count]; lia.
Qed.

(** X1.  Whatever the target, the step count or the slot asked for, and
    whichever vendor calls raise, [_pulse_once], [go_to_slot], [step] and
    [reset_slot] leave the tracked position inside [1, slot_count] when
    they found it there, whether they return or raise. *)
Theorem tracked_slot_stays_in_range (w : World) :
  slot_in_range w ->
  slot_in_range (snd (_pulse_once w))
  /\ (forall target, slot_in_range (snd (go_to_slot target w)))
  /\ (forall n, slot_in_range (snd (step n w)))
  /\ (forall known, slot_in_range (snd (reset_slot known w))).
Proof.
  intros HP.
  split; [| split; [| split]].
  - destruct (_pulse_once w) as [o w'] eqn:H.
    exact (pulse_once_keeps_slot_in_range _ _ _ H HP).
  - intros target. destruct (go_to_slot target w) as [o w'] eqn:H.
    exact (go_to_slot_keeps_slot_in_range target _ _ _ H HP).
  - intros n. destruct (step n w) as [o w'] eqn:H.
    exact (step_keeps_slot_in_range n _ _ _ H HP).
  - intros known. destruct (reset_slot known w) as [o w'] eqn:H.
    exact (reset_slot_keeps_slot_in_range known _ _ _ H HP).
Qed.

Lemma tracked_slot_stays_in_range_witness :
  slot_in_range (snd (_pulse_once (demo_world 6)))
  /\ (forall target, slot_in_range (snd (go_to_slot target (demo_world 6))))
  /\ (forall n, slot_in_range (snd (step n (demo_world 6))))
  /\ (forall known, slot_in_range (snd (reset_slot known (demo_world 6)))).
Proof.
  apply (tracked_slot_stays_in_range (demo_world 6)).
  unfold slot_in_range. simpl. lia.
Defined.

Lemma iter_pulsed_field {X} (f : World -> X) (k : nat) (w : World) :
  (forall v, f (pulsed v) = f v) -> f (Nat.iter k pulsed w) = f w.
Proof.
  intros H. induction k as [| k IH]; [reflexivity |].
  rewrite Nat.iter_succ, H. exact IH.
Qed.

Lemma iter_pulsed (k : nat) (w : World) :
  fw (Nat.iter k pulsed w)
  = mkFw (slot_count (fw w)) (slot_mapping (fw w))
         (Nat.iter k (next_slot (slot_count (fw w))) (current_slot (fw w)))
  /\ pulses (Nat.iter k pulsed w) = pulses w + Z.of_nat k.
Proof.
  induction k as [| k (Hfw & Hp)].
  - simpl. destruct (fw w). split; [reflexivity | lia].
  - rewrite !Nat.iter_succ. rewrite pulsed_fw, pulsed_pulses, Hfw, Hp.
    cbn [slot_count slot_mapping current_slot]. split; [reflexivity | lia].
Qed.

Lemma iter_pulsed_healthy (k : nat) (w : World) :
  gen_healthy w -> gen_healthy (Nat.iter k pulsed w).
Proof.
  unfold gen_healthy. rewrite (iter_pulsed_field faulty k w) by reflexivity.
  exact (fun H => H).
Qed.

Lemma slot_after_0 (N c : Z) : 1 <= c <= N -> slot_after N c 0 = c.
Proof.
  intros H. unfold slot_after. rewrite Z.add_0_r, Z.mod_small; lia.
Qed.

Lemma slot_after_next (N c k : Z) :
  0 < N -> next_slot N (slot_after N c k) = slot_after N c (k + 1).
Proof.
  intros HN. unfold slot_after, next_slot.
  replace (c - 1 + (k + 1)) with (c - 1 + k + 1) by lia.
  rewrite <- (Zplus_mod_idemp_l (c - 1 + k) 1 N).
  pose proof (Z.mod_pos_bound (c - 1 + k) N HN) as Hr.
  set (r := (c - 1 + k) mod N) in *.
  destruct (Z.gtb_spec (r + 1 + 1) N).
  - replace (r + 1) with N by lia. rewrite Z_mod_same_full. reflexivity.
  - rewrite Z.mod_small; lia.
Qed.

Lemma iter_next_slot_after (N c : Z) (k : nat) :
  1 <= c <= N ->
  Nat.iter k (next_slot N) c = slot_after N c (Z.of_nat k).
Proof.
  intros Hc. induction k as [| k IH].
  - simpl. symmetry. apply slot_after_0, Hc.
  - rewrite Nat.iter_succ, IH, slot_after_next by lia. f_equal. lia.
Qed.

Lemma slot_after_mod (N c k : Z) : slot_after N c (k mod N) = slot_after N c k.
Proof. unfold slot_after. rewrite Zplus_mod_idemp_r. reflexivity. Qed.

Lemma slot_after_distance (N c s : Z) :
  1 <= s <= N -> slot_after N c (distance N c s) = s.
Proof.
  intros Hs. unfold distance. rewrite slot_after_mod. unfold slot_after.
  replace (c - 1 + (s - c)) with (s - 1) by lia. rewrite Z.mod_small; lia.
Qed.

Lemma repeat_m_pulses (k : nat) :
  forall w, gen_healthy w ->
            repeat_m k _pulse_once w = (Ret tt, Nat.iter k pulsed w).
Proof.
  induction k as [| k IH]; intros w Hh; [reflexivity |].
  cbn [repeat_m]. unfold bind at 1. rewrite (pulse_once_healthy w Hh).
  rewrite (IH (pulsed w) (pulsed_healthy w Hh)), <- Nat.iter_succ_r. reflexivity.
Qed.

(** The loop of [go_to_slot] with its final world written out. *)
Lemma go_to_slot_while_run (fuel : nat) :
  forall (w : World) (s attempts : Z),
    gen_healthy w ->
    slot_in_range w ->
    1 <= s <= slot_count (fw w) ->
    attempts + distance (slot_count (fw w)) (current_slot (fw w)) s
      <= slot_count (fw w) ->
    distance (slot_count (fw w)) (current_slot (fw w)) s <= Z.of_nat fuel ->
    go_to_slot_while fuel _pulse_once s (slot_count (fw w)) attempts w
    = (Ret (attempts + distance (slot_count (fw w)) (current_slot (fw w)) s),
       Nat.iter (Z.to_nat (distance (slot_count (fw w)) (current_slot (fw w)) s))
                pulsed w).
Proof.
  induction fuel as [| fuel IH]; intros w s attempts Hh Hc Hs Hbudget Hfuel;
    unfold slot_in_range in Hc;
    pose proof (distance_range (slot_count (fw w)) (current_slot (fw w)) s) as Hr;
    destruct (Z.eq_dec (current_slot (fw w)) s) as [He | Hne].
  - cbn [go_to_slot_while]. rewrite He, Z.eqb_refl, distance_same. cbn [negb andb].
    rewrite Z.add_0_r. reflexivity.
  - rewrite (distance_next _ _ _ Hc Hs Hne) in Hfuel.
    pose proof (distance_range (slot_count (fw w))
                  (next_slot (slot_count (fw w)) (current_slot (fw w))) s). lia.
  - cbn [go_to_slot_while]. rewrite He, Z.eqb_refl, distance_same. cbn [negb andb].
    rewrite Z.add_0_r. reflexivity.
  - pose proof (distance_next _ _ _ Hc Hs Hne) as Hd.
    pose proof (distance_range (slot_count (fw w))
                  (next_slot (slot_count (fw w)) (current_slot (fw w))) s) as Hr'.
    cbn [go_to_slot_while]. apply Z.eqb_neq in Hne. rewrite Hne. cbn [negb andb].
    replace (attempts <? slot_count (fw w)) with true
      by (symmetry; apply Z.ltb_lt; lia).
    unfold bind at 1. rewrite (pulse_once_healthy w Hh).
    pose proof (IH (pulsed w) s (attempts + 1)) as Hrun.
    rewrite pulsed_fw in Hrun. cbn [slot_count current_slot] in Hrun.
    rewrite Hrun.
    + rewrite Hd.
      replace (Z.to_nat (distance (slot_count (fw w))
                 (next_slot (slot_count (fw w)) (current_slot (fw w))) s + 1))
        with (S (Z.to_nat (distance (slot_count (fw w))
                 (next_slot (slot_count (fw w)) (current_slot (fw w))) s))) by lia.
      rewrite Nat.iter_succ_r. f_equal. f_equal. lia.
    + apply pulsed_healthy, Hh.
    + unfold slot_in_range. rewrite pulsed_fw. cbn [slot_count current_slot].
      apply next_slot_range, Hc.
    + exact Hs.
    + lia.
    + lia.
Qed.

(** [go_to_slot] on a healthy wheel, with its final world written out. *)
Lemma go_to_slot_run (w : World) (s : Z) :
  gen_healthy w ->
  slot_in_range w ->
  1 <= s <= slot_count (fw w) ->
  go_to_slot s w
  = (Ret s,
     Nat.iter (Z.to_nat (distance (slot_count (fw w)) (current_slot (fw w)) s))
              pulsed w).
Proof.
  intros Hh Hc Hs.
  assert (Hvalid : (1 <=? s) && (s <=? slot_count (fw w)) = true).
  { apply andb_true_iff; split; apply Z.leb_le; lia. }
  pose proof (distance_range (slot_count (fw w)) (current_slot (fw w)) s) as Hr.
  unfold go_to_slot, go_to_slot_with, bind at 1, get. rewrite Hvalid. cbn [negb].
  destruct (Z.eqb_spec s (current_slot (fw w))) as [He | Hne].
  - unfold ret. rewrite <- He, distance_same. reflexivity.
  - unfold bind at 1.
    rewrite (go_to_slot_while_run (Z.to_nat (slot_count (fw w))) w s 0)
      by (try assumption; unfold slot_in_range in Hc; lia).
    unfold bind, get.
    destruct (iter_pulsed (Z.to_nat (distance (slot_count (fw w))
                                        (current_slot (fw w)) s)) w) as [Hfw _].
    rewrite Hfw. cbn [current_slot].
    rewrite (iter_next_slot_after _ _ _ Hc), Z2Nat.id by lia.
    rewrite (slot_after_distance _ _ _ Hs), Z.eqb_refl. reflexivity.
Qed.

Lemma go_to_slot_run_fw (w : World) (s : Z) :
  slot_in_range w ->
  1 <= s <= slot_count (fw w) ->
  fw (Nat.iter (Z.to_nat (distance (slot_count (fw w)) (current_slot (fw w)) s))
               pulsed w)
  = mkFw (slot_count (fw w)) (slot_mapping (fw w)) s.
Proof.
  intros Hc Hs.
  pose proof (distance_range (slot_count (fw w)) (current_slot (fw w)) s) as Hr.
  destruct (iter_pulsed (Z.to_nat (distance (slot_count (fw w))
                                      (current_slot (fw w)) s)) w) as [Hfw _].
  rewrite Hfw, (iter_next_slot_after _ _ _ Hc), Z2Nat.id
    by (unfold slot_in_range in Hc; lia).
  rewrite (slot_after_distance _ _ _ Hs). reflexivity.
Qed.

(** X2.  On a healthy wheel whose tracked position is a slot, [step n]
    sends [n mod slot_count] pulses and moves the tracked position that many
    slots on, cyclically; a multiple of the slot count, [slot_count] itself
    included, sends no pulse at all and leaves the world as it was. *)
Theorem step_advances_modulo_slot_count (w : World) (n : Z) :
  gen_healthy w ->
  slot_in_range w ->
  exists w',
    step n w = (Ret tt, w')
    /\ current_slot (fw w')
       = (current_slot (fw w) - 1 + n) mod slot_count (fw w) + 1
    /\ pulses w' = pulses w + n mod slot_count (fw w)
    /\ (n mod slot_count (fw w) = 0 -> w' = w).
Proof.
  intros Hh Hc. pose proof Hc as Hc'. unfold slot_in_range in Hc'.
  pose proof (Z.mod_pos_bound n (slot_count (fw w)) ltac:(lia)) as Hr.
  exists (Nat.iter (Z.to_nat (n mod slot_count (fw w))) pulsed w).
  destruct (iter_pulsed (Z.to_nat (n mod slot_count (fw w))) w) as [Hfw Hp].
  split; [| split; [| split]].
  - unfold step, bind at 1, get.
    replace (slot_count (fw w) =? 0) with false by (symmetry; apply Z.eqb_neq; lia).
    apply repeat_m_pulses, Hh.
  - rewrite Hfw. cbn [current_slot].
    rewrite (iter_next_slot_after _ _ _ Hc'), Z2Nat.id by lia.
    apply slot_after_mod.
  - rewrite Hp. lia.
  - intros H0. rewrite H0. reflexivity.
Qed.

Lemma step_advances_modulo_slot_count_witness :
  exists w',
    step 14 (demo_world 5) = (Ret tt, w')
    /\ current_slot (fw w') = (5 - 1 + 14) mod 6 + 1
    /\ pulses w' = pulses (demo_world 5) + 14 mod 6
    /\ (14 mod 6 = 0 -> w' = demo_world 5).
Proof.
  apply (step_advances_modulo_slot_count (demo_world 5) 14).
  - repeat split.
  - unfold slot_in_range. simpl. lia.
Defined.

Example step_of_a_full_turn_does_nothing :
  step 6 (demo_world 5) = (Ret tt, demo_world 5)
  /\ step (-1) (demo_world 5)
     = (Ret tt, Nat.iter 5 pulsed (demo_world 5))
  /\ current_slot (fw (snd (step (-1) (demo_world 5)))) = 4.
Proof. repeat split. Qed.

(** X3.  On a healthy wheel whose tracked position is a slot, [slot_count]
    calls of [_pulse_once] in a row send [slot_count] pulses and bring the
    tracked position back to where it was. *)
Theorem pulses_of_a_full_turn_return_to_start (w : World) :
  gen_healthy w ->
  slot_in_range w ->
  exists w',
    repeat_m (Z.to_nat (slot_count (fw w))) _pulse_once w = (Ret tt, w')
    /\ fw w' = fw w
    /\ pulses w' = pulses w + slot_count (fw w).
Proof.
  intros Hh Hc. unfold slot_in_range in Hc.
  exists (Nat.iter (Z.to_nat (slot_count (fw w))) pulsed w).
  destruct (iter_pulsed (Z.to_nat (slot_count (fw w))) w) as [Hfw Hp].
  split; [apply repeat_m_pulses, Hh |].
  split; [| rewrite Hp; lia].
  rewrite Hfw, pulses_close_the_cycle by exact Hc. destruct (fw w); reflexivity.
Qed.

Lemma pulses_of_a_full_turn_return_to_start_witness :
  exists w',
    repeat_m (Z.to_nat (slot_count (fw (demo_world 4)))) _pulse_once (demo_world 4)
      = (Ret tt, w')
    /\ fw w' = fw (demo_world 4)
    /\ pulses w' = pulses (demo_world 4) + slot_count (fw (demo_world 4)).
Proof.
  apply (pulses_of_a_full_turn_return_to_start (demo_world 4)).
  - repeat split.
  - unfold slot_in_range. simpl. lia.
Defined.

Lemma trigger_cycle_output_off_fails (w : World) :
  output_off_fails w ->
  trigger_cycle w = (Raise (DeviceError (gen_output false)), triggered w).
Proof.
  intros (Hon & Htr & Hoff).
  unfold trigger_cycle, hw, bind, emit, modify, sleep, triggered; simpl.
  rewrite Hon; simpl. rewrite Htr; simpl. rewrite Hoff. reflexivity.
Qed.

(** X4.  When the generator raises on the output-off command that ends a
    pulse, the trigger has already been sent: [go_to_slot] for another valid
    slot raises that error after one pulse, and the tracked position has not
    moved, so the tracker is one slot behind the wheel. *)
Theorem pulse_failing_after_trigger_desynchronizes (w : World) (s : Z) :
  output_off_fails w ->
  1 <= s <= slot_count (fw w) ->
  s <> current_slot (fw w) ->
  exists w',
    go_to_slot s w = (Raise (DeviceError (gen_output false)), w')
    /\ _pulse_once w = (Raise (DeviceError (gen_output false)), w')
    /\ pulses w' = pulses w + 1
    /\ fw w' = fw w.
Proof.
  intros Hf Hs Hne. exists (triggered w).
  assert (Hpulse : _pulse_once w
                   = (Raise (DeviceError (gen_output false)), triggered w)).
  { unfold _pulse_once, bind at 1. rewrite (trigger_cycle_output_off_fails w Hf).
    reflexivity. }
  split; [| split; [exact Hpulse | split; [apply triggered_pulses | reflexivity]]].
  unfold go_to_slot, go_to_slot_with, bind at 1, get.
  replace ((1 <=? s) && (s <=? slot_count (fw w))) with true
    by (symmetry; apply andb_true_iff; split; apply Z.leb_le; lia).
  cbn [negb]. replace (s =? current_slot (fw w)) with false
    by (symmetry; apply Z.eqb_neq; exact Hne).
  unfold bind at 1.
  replace (Z.to_nat (slot_count (fw w)))
    with (S (Z.to_nat (slot_count (fw w) - 1))) by lia.
  cbn [go_to_slot_while].
  replace (current_slot (fw w) =? s) with false
    by (symmetry; apply Z.eqb_neq; lia).
  replace (0 <? slot_count (fw w)) with true by (symmetry; apply Z.ltb_lt; lia).
  cbn [negb andb]. unfold bind at 1. rewrite Hpulse. reflexivity.
Qed.

Lemma pulse_failing_after_trigger_desynchronizes_witness :
  exists w',
    go_to_slot 3 (output_off_broken_world 2)
      = (Raise (DeviceError (gen_output false)), w')
    /\ _pulse_once (output_off_broken_world 2)
       = (Raise (DeviceError (gen_output false)), w')
    /\ pulses w' = pulses (output_off_broken_world 2) + 1
    /\ fw w' = fw (output_off_broken_world 2).
Proof.
  apply (pulse_failing_after_trigger_desynchronizes (output_off_broken_world 2) 3).
  - repeat split.
  - simpl; lia.
  - discriminate.
Defined.

Lemma distance_round_trip (N a b : Z) :
  1 <= a <= N -> 1 <= b <= N -> a <> b ->
  distance N a b + distance N b a = N.
Proof.
  intros Ha Hb Hne. unfold distance.
  destruct (Z.lt_ge_cases a b).
  - rewrite (Z.mod_small (b - a)) by lia.
    replace (a - b) with (a - b + N + (-1) * N) by lia.
    rewrite Z.mod_add, Z.mod_small; lia.
  - rewrite (Z.mod_small (a - b)) by lia.
    replace (b - a) with (b - a + N + (-1) * N) by lia.
    rewrite Z.mod_add, Z.mod_small; lia.
Qed.

(** X5.  On a healthy wheel, [go_to_slot a] followed by [go_to_slot b]
    ends at [b] after the pulses from the start to [a] plus those from [a]
    to [b]; going to another slot and back to the start costs exactly
    [slot_count] pulses, since the wheel only turns one way. *)
Theorem go_to_slot_there_and_back_is_a_full_turn (w : World) (a b : Z) :
  gen_healthy w ->
  slot_in_range w ->
  1 <= a <= slot_count (fw w) ->
  1 <= b <= slot_count (fw w) ->
  exists w',
    (go_to_slot a ;; go_to_slot b) w = (Ret b, w')
    /\ current_slot (fw w') = b
    /\ pulses w' = pulses w
                   + distance (slot_count (fw w)) (current_slot (fw w)) a
                   + distance (slot_count (fw w)) a b
    /\ (b = current_slot (fw w) -> a <> b ->
        pulses w' = pulses w + slot_count (fw w)).
Proof.
  intros Hh Hc Ha Hb.
  set (N := slot_count (fw w)) in *. set (c := current_slot (fw w)) in *.
  set (wa := Nat.iter (Z.to_nat (distance N c a)) pulsed w).
  assert (Hfwa : fw wa = mkFw N (slot_mapping (fw w)) a)
    by (apply go_to_slot_run_fw; assumption).
  assert (Hha : gen_healthy wa) by (apply iter_pulsed_healthy, Hh).
  assert (Hca : slot_in_range wa)
    by (unfold slot_in_range; rewrite Hfwa; cbn [current_slot slot_count]; exact Ha).
  pose proof (go_to_slot_run wa b Hha Hca) as Hrun_b.
  rewrite Hfwa in Hrun_b. cbn [slot_count current_slot] in Hrun_b.
  specialize (Hrun_b Hb).
  set (wb := Nat.iter (Z.to_nat (distance N a b)) pulsed wa) in *.
  exists wb.
  assert (Hp : pulses wb = pulses w + distance N c a + distance N a b).
  { pose proof (distance_range N c a). pose proof (distance_range N a b).
    unfold slot_in_range in Hc. fold N c in Hc.
    unfold wb. rewrite (proj2 (iter_pulsed _ wa)).
    unfold wa. rewrite (proj2 (iter_pulsed _ w)). lia. }
  split; [| split; [| split]].
  - unfold bind. rewrite (go_to_slot_run w a Hh Hc Ha). fold N c wa. exact Hrun_b.
  - pose proof (go_to_slot_run_fw wa b Hca) as Hfwb.
    rewrite Hfwa in Hfwb. cbn [slot_count current_slot slot_mapping] in Hfwb.
    fold wb in Hfwb. rewrite (Hfwb Hb). reflexivity.
  - exact Hp.
  - intros Hbc Hab. rewrite Hp. subst b.
    unfold slot_in_range in Hc. fold N c in Hc.
    pose proof (distance_round_trip N c a Hc Ha ltac:(congruence)). lia.
Qed.

Lemma go_to_slot_there_and_back_is_a_full_turn_witness :
  exists w',
    (go_to_slot 2 ;; go_to_slot 1) (demo_world 1) = (Ret 1, w')
    /\ current_slot (fw w') = 1
    /\ pulses w' = pulses (demo_world 1) + distance 6 1 2 + distance 6 2 1
    /\ pulses w' = pulses (demo_world 1) + 6.
Proof.
  destruct (go_to_slot_there_and_back_is_a_full_turn (demo_world 1) 2 1)
    as (w' & Hrun & Hcur & Hp & Hturn).
  - repeat split.
  - unfold slot_in_range. simpl. lia.
  - simpl; lia.
  - simpl; lia.
  - exists w'. repeat (split; [assumption |]).
    apply Hturn; [reflexivity | discriminate].
Defined.

(** X6.  On a healthy wheel, [go_to_slot] and [step] keep the difference
    between the tracked position and the number of pulses sent unchanged
    modulo the slot count: as long as every move goes through them the
    tracker stays in step with the physical wheel. *)
Theorem moves_keep_tracker_in_step_with_wheel (w : World) (s n : Z) :
  gen_healthy w ->
  slot_in_range w ->
  1 <= s <= slot_count (fw w) ->
  fst (go_to_slot s w) = Ret s
  /\ tracker_offset (snd (go_to_slot s w)) = tracker_offset w
  /\ fst (step n w) = Ret tt
  /\ tracker_offset (snd (step n w)) = tracker_offset w.
Proof.
  intros Hh Hc Hs. pose proof Hc as Hc'. unfold slot_in_range in Hc'.
  set (N := slot_count (fw w)) in *. set (c := current_slot (fw w)) in *.
  assert (Hoff : forall k : Z, 0 <= k ->
            tracker_offset (Nat.iter (Z.to_nat k) pulsed w)
            = (slot_after N c k - (pulses w + k)) mod N).
  { intros k Hk. unfold tracker_offset.
    destruct (iter_pulsed (Z.to_nat k) w) as [Hfw Hp]. rewrite Hfw, Hp.
    cbn [current_slot slot_count]. fold N c.
    rewrite (iter_next_slot_after N c _ Hc'), Z2Nat.id by lia. reflexivity. }
  assert (Hsame : forall k : Z,
            (slot_after N c k - (pulses w + k)) mod N = tracker_offset w).
  { intros k. unfold tracker_offset, slot_after. fold N c.
    replace ((c - 1 + k) mod N + 1 - (pulses w + k))
      with ((c - 1 + k) mod N + (1 - (pulses w + k))) by lia.
    rewrite Zplus_mod_idemp_l. f_equal. lia. }
  pose proof (distance_range N c s ltac:(lia)) as Hd.
  pose proof (Z.mod_pos_bound n N ltac:(lia)) as Hr.
  rewrite (go_to_slot_run w s Hh Hc Hs). fold N c. cbn [fst snd].
  split; [reflexivity |]. split; [rewrite Hoff by lia; apply Hsame |].
  assert (Hstep : step n w = (Ret tt, Nat.iter (Z.to_nat (n mod N)) pulsed w)).
  { unfold step, bind at 1, get. fold N.
    replace (N =? 0) with false by (symmetry; apply Z.eqb_neq; lia).
    apply repeat_m_pulses, Hh. }
  rewrite Hstep. cbn [fst snd].
  split; [reflexivity |]. rewrite Hoff by lia. apply Hsame.
Qed.

Lemma moves_keep_tracker_in_step_with_wheel_witness :
  fst (go_to_slot 2 (demo_world 5)) = Ret 2
  /\ tracker_offset (snd (go_to_slot 2 (demo_world 5))) = tracker_offset (demo_world 5)
  /\ fst (step 9 (demo_world 5)) = Ret tt
  /\ tracker_offset (snd (step 9 (demo_world 5))) = tracker_offset (demo_world 5).
Proof.
  apply (moves_keep_tracker_in_step_with_wheel (demo_world 5) 2 9).
  - repeat split.
  - unfold slot_in_range. simpl. lia.
  - simpl; lia.
Defined.

(* ================================================================== *)
(** * Further theorems: auto-configuration *)

(** X7.  On a wheel configured with no slot ([slot_count <= 0]) the scan
    loop is not entered, [max] is applied to an empty list, and
    auto-configuration raises [ValueError] without a reading or a pulse:
    the world is left as it was. *)
Theorem configure_on_empty_wheel_raises (w : World) :
  slot_count (fw w) <= 0 ->
  configure_flywheel_with_powermeter w = (Raise ValueError, w).
Proof.
  intros HN. unfold configure_flywheel_with_powermeter, bind at 1, get.
  replace (Z.to_nat (slot_count (fw w))) with 0%nat by lia.
  reflexivity.
Qed.

Lemma configure_on_empty_wheel_raises_witness :
  configure_flywheel_with_powermeter
    (set_fw (mkFw 0 demo_mapping 1) (demo_world 1))
  = (Raise ValueError, set_fw (mkFw 0 demo_mapping 1) (demo_world 1)).
Proof.
  apply (configure_on_empty_wheel_raises
           (set_fw (mkFw 0 demo_mapping 1) (demo_world 1))).
  simpl; lia.
Defined.

Lemma map_seq_split {X} (f : nat -> X) (l1 : list X) :
  forall (a n : nat) (x : X) (l2 : list X),
    map f (seq a n) = l1 ++ x :: l2 ->
    x = f (a + List.length l1)%nat
    /\ (List.length l1 < n)%nat
    /\ forall k, (k < List.length l1)%nat -> In (f (a + k)%nat) l1.
Proof.
  induction l1 as [| z l1 IH]; intros a n x l2 Heq;
    (destruct n as [| n]; [simpl in Heq; discriminate |]);
    cbn [seq map app] in Heq; injection Heq as Hz Heq.
  - subst x. cbn [List.length]. rewrite Nat.add_0_r.
    split; [reflexivity |]. split; [lia |]. intros k Hk. lia.
  - destruct (IH (S a) n x l2 Heq) as (Hx & Hlen & Hin).
    cbn [List.length]. split; [rewrite Hx; f_equal; lia |]. split; [lia |].
    intros [| k] Hk.
    + left. rewrite Nat.add_0_r. symmetry. exact Hz.
    + right. replace (a + S k)%nat with (S a + k)%nat by lia. apply Hin. lia.
Qed.

Lemma distance_slot_after (N c j : Z) :
  1 <= c <= N -> 0 <= j < N -> distance N c (slot_after N c j) = j.
Proof.
  intros Hc Hj. unfold distance, slot_after.
  replace ((c - 1 + j) mod N + 1 - c) with ((c - 1 + j) mod N + (1 - c)) by lia.
  rewrite Zplus_mod_idemp_l.
  replace (c - 1 + j + (1 - c)) with j by lia. apply Z.mod_small, Hj.
Qed.

Lemma slot_after_range (N c k : Z) : 0 < N -> 1 <= slot_after N c k <= N.
Proof.
  intros HN. unfold slot_after.
  pose proof (Z.mod_pos_bound (c - 1 + k) N HN). lia.
Qed.

Lemma iter_scanned_reads (k : nat) (w : World) :
  reads (Nat.iter k scanned w) = (reads w + k)%nat.
Proof.
  induction k as [| k IH]; [simpl; lia |].
  rewrite Nat.iter_succ.
  change (reads (scanned ?v)) with (S (reads v)). rewrite IH. lia.
Qed.

(** X8.  From any tracked position on a healthy wheel of [N >= 1] slots,
    auto-configuration takes [N] readings, and ends with the tracked
    position at 1 and the wheel [j] pulses past a full turn, where [j] is
    the index of the first reading that no reading exceeds: the wheel stands
    where the brightest reading was taken, wherever the tracker started. *)
Theorem configure_parks_at_first_brightest_reading (w : World) :
  lab_healthy w ->
  slot_in_range w ->
  exists (j : nat) (w' : World),
    (Z.of_nat j < slot_count (fw w))
    /\ (forall k, Z.of_nat k < slot_count (fw w) ->
                  (device_power w (reads w + k)%nat
                   <= device_power w (reads w + j)%nat)%Q)
    /\ (forall k, (k < j)%nat ->
                  (device_power w (reads w + k)%nat
                   < device_power w (reads w + j)%nat)%Q)
    /\ configure_flywheel_with_powermeter w = (Ret tt, w')
    /\ current_slot (fw w') = 1
    /\ slot_count (fw w') = slot_count (fw w)
    /\ reads w' = (reads w + Z.to_nat (slot_count (fw w)))%nat
    /\ pulses w' = pulses w + slot_count (fw w) + Z.of_nat j.
Proof.
  intros Hh Hc. pose proof Hc as Hc'. unfold slot_in_range in Hc'.
  set (N := slot_count (fw w)) in *. set (c := current_slot (fw w)) in *.
  set (f := fun k : nat => (current_slot (fw (Nat.iter k scanned w)),
                            device_power w (reads w + k)%nat)).
  set (w1 := Nat.iter (Z.to_nat N) scanned w).
  pose proof (scan_slots_run (Z.to_nat N) w [] Hh) as Hscan.
  cbn [app] in Hscan. fold f w1 in Hscan.
  destruct (iter_scanned (Z.to_nat N) w) as (Hfw1 & Hp1 & Hf1).
  fold N c w1 in Hfw1, Hp1, Hf1.
  rewrite (pulses_close_the_cycle N c Hc') in Hfw1.
  destruct (py_max_by snd (map f (seq 0 (Z.to_nat N))))
    as [[best_slot best_power] |] eqn:Hmax.
  2:{ replace (Z.to_nat N) with (S (Z.to_nat (N - 1))) in Hmax by lia. discriminate. }
  destruct (py_max_by_first snd _ _ Hmax) as (Hle & l1 & l2 & Hsplit & Hlt).
  destruct (map_seq_split f l1 0 _ _ l2 Hsplit) as (Hbest & Hj & Hin).
  set (j := List.length l1) in *. cbn [Nat.add] in Hbest.
  assert (Hslot : best_slot = slot_after N c (Z.of_nat j)).
  { unfold f in Hbest. injection Hbest as -> _.
    destruct (iter_scanned j w) as (Hfwj & _). rewrite Hfwj. cbn [current_slot].
    fold N c. apply iter_next_slot_after, Hc'. }
  assert (Hpow : best_power = device_power w (reads w + j)%nat).
  { unfold f in Hbest. injection Hbest as _ ->. reflexivity. }
  assert (Hh1 : gen_healthy w1).
  { destruct Hh as [Hgen _]. unfold gen_healthy. rewrite Hf1. exact Hgen. }
  assert (Hc1 : slot_in_range w1).
  { unfold slot_in_range. rewrite Hfw1. cbn [current_slot slot_count]. exact Hc'. }
  assert (Hb : 1 <= best_slot <= slot_count (fw w1)).
  { rewrite Hfw1, Hslot. cbn [slot_count]. apply slot_after_range. lia. }
  pose proof (go_to_slot_run w1 best_slot Hh1 Hc1 Hb) as Hgo.
  pose proof (go_to_slot_run_fw w1 best_slot Hc1 Hb) as Hfw2.
  rewrite Hfw1 in Hgo, Hfw2. cbn [slot_count current_slot slot_mapping] in Hgo, Hfw2.
  rewrite Hslot, distance_slot_after, Nat2Z.id in Hgo, Hfw2 by lia.
  set (w2 := Nat.iter j pulsed w1) in *.
  exists j, (set_fw (mkFw (slot_count (fw w2)) (slot_mapping (fw w2)) 1) w2).
  split; [lia |].
  split.
  { intros k Hk. rewrite <- Hpow.
    apply (Hle (f k)). apply in_map, in_seq. lia. }
  split.
  { intros k Hk. rewrite <- Hpow.
    apply (Hlt (f k)). exact (Hin k Hk). }
  split.
  { unfold configure_flywheel_with_powermeter, bind at 1, get. fold N.
    unfold bind at 1. rewrite Hscan, Hmax.
    unfold bind. rewrite Hslot, Hgo. apply reset_slot_valid.
    rewrite Hfw2. cbn [slot_count]. lia. }
  split; [reflexivity |].
  split; [cbn [fw set_fw slot_count]; rewrite Hfw2; reflexivity |].
  split.
  { change (reads (set_fw ?x ?v)) with (reads v).
    unfold w2. rewrite (iter_pulsed_field reads j w1) by reflexivity.
    unfold w1. apply iter_scanned_reads. }
  change (pulses (set_fw ?x ?v)) with (pulses v).
  unfold w2. rewrite (proj2 (iter_pulsed j w1)), Hp1. lia.
Qed.

Lemma configure_parks_at_first_brightest_reading_witness :
  exists (j : nat) (w' : World),
    (Z.of_nat j < slot_count (fw (demo_world 4)))
    /\ (forall k, Z.of_nat k < slot_count (fw (demo_world 4)) ->
                  (device_power (demo_world 4) (reads (demo_world 4) + k)%nat
                   <= device_power (demo_world 4) (reads (demo_world 4) + j)%nat)%Q)
    /\ (forall k, (k < j)%nat ->
                  (device_power (demo_world 4) (reads (demo_world 4) + k)%nat
                   < device_power (demo_world 4) (reads (demo_world 4) + j)%nat)%Q)
    /\ configure_flywheel_with_powermeter (demo_world 4) = (Ret tt, w')
    /\ current_slot (fw w') = 1
    /\ slot_count (fw w') = slot_count (fw (demo_world 4))
    /\ reads w' = (reads (demo_world 4)
                   + Z.to_nat (slot_count (fw (demo_world 4))))%nat
    /\ pulses w' = pulses (demo_world 4) + slot_count (fw (demo_world 4))
                   + Z.of_nat j.
Proof.
  apply (configure_parks_at_first_brightest_reading (demo_world 4)).
  - repeat split.
  - unfold slot_in_range. simpl. lia.
Defined.

Example configure_from_slot_4 :
  fst (configure_flywheel_with_powermeter (demo_world 4)) = Ret tt
  /\ pulses (snd (configure_flywheel_with_powermeter (demo_world 4))) = 6 + 2
  /\ current_slot (fw (snd (configure_flywheel_with_powermeter (demo_world 4)))) = 1.
Proof. repeat split. Qed.

(* ================================================================== *)
(** * Further theorems: the power meter *)

Lemma Qnat_S (k : nat) : (Qnat (S k) == Qnat k + 1)%Q.
Proof.
  unfold Qnat. rewrite Nat2Z.inj_succ. unfold Z.succ.
  rewrite inject_Z_plus. reflexivity.
Qed.

Lemma Qnat_le (i k : nat) : (i <= k)%nat -> (Qnat i <= Qnat k)%Q.
Proof.
  intros H. unfold Qnat. rewrite <- Zle_Qle. lia.
Qed.

Lemma iter_sampled_reads (interval : Q) (k : nat) (w : World) :
  reads (Nat.iter k (sampled interval) w) = (reads w + k)%nat.
Proof.
  induction k as [| k IH]; [simpl; lia |].
  rewrite Nat.iter_succ.
  change (reads (sampled interval ?v)) with (S (reads v)). rewrite IH. lia.
Qed.

(** Whenever the elapsed time is at or past the duration the loop is left;
    [k] sleeps of [interval] bring it there. *)
Lemma enough_cycles (duration period : Q) :
  (0 < period)%Q -> exists k : nat, (duration <= Qnat k * period)%Q.
Proof.
  intros Hp. exists (Z.to_nat (Qceiling (duration / period))).
  assert (Hk : (duration / period
                <= Qnat (Z.to_nat (Qceiling (duration / period))))%Q).
  { eapply Qle_trans; [apply Qle_ceiling |].
    unfold Qnat. rewrite <- Zle_Qle. lia. }
  assert (Hd : (duration == duration / period * period)%Q).
  { rewrite Qmult_comm, Qmult_div_r; [reflexivity |].
    intros H. rewrite H in Hp. discriminate. }
  rewrite Hd at 1. apply Qmult_le_compat_r; [exact Hk | apply Qlt_le_weak, Hp].
Qed.

Section PowerOverTime.
Variables (start duration interval : Q).
Hypothesis Hint : (0 <= interval)%Q.

Lemma get_power_over_time_step (fuel : nat) (w : World) (rs ts : list Q) :
  faulty w PM100D_measPower = false ->
  Qltb (clock w - start) duration = true ->
  pm.get_power_over_time_while (S fuel) start duration interval rs ts w
  = pm.get_power_over_time_while fuel start duration interval
      (rs ++ [device_power w (reads w)]) (ts ++ [(clock w - start)%Q])
      (sampled interval w).
Proof.
  intros Hpm Henter. cbn [pm.get_power_over_time_while].
  unfold bind at 1, time_time at 1, get at 1. rewrite Henter.
  unfold bind at 1, time_time at 1, get at 1.
  unfold bind at 1. rewrite (get_power_healthy w Hpm).
  unfold bind at 1. rewrite (sleep_nonneg _ _ Hint). reflexivity.
Qed.

Lemma get_power_over_time_exit (fuel : nat) (w : World) (rs ts : list Q) :
  Qltb (clock w - start) duration = false ->
  pm.get_power_over_time_while fuel start duration interval rs ts w
  = (Ret (ts, rs), w).
Proof.
  intros Hexit. destruct fuel; cbn [pm.get_power_over_time_while];
    unfold bind, time_time, get; rewrite Hexit; reflexivity.
Qed.

Lemma get_power_over_time_while_shape (fuel : nat) :
  forall (w : World) (rs ts : list Q),
    faulty w PM100D_measPower = false ->
    exists (n : nat) (new_ts : list Q),
      (n <= fuel)%nat
      /\ List.length new_ts = n
      /\ snd (pm.get_power_over_time_while fuel start duration interval rs ts w)
         = Nat.iter n (sampled interval) w
      /\ (fst (pm.get_power_over_time_while fuel start duration interval rs ts w)
          = Ret (ts ++ new_ts,
                 rs ++ map (fun i => device_power w (reads w + i)%nat) (seq 0 n))
          \/ (fst (pm.get_power_over_time_while fuel start duration interval rs ts w)
               = OutOfFuel /\ n = fuel)).
Proof.
  induction fuel as [| fuel IH]; intros w rs ts Hpm;
    destruct (Qltb (clock w - start) duration) eqn:Hc.
  - exists 0%nat, []. split; [lia |]. split; [reflexivity |].
    cbn [pm.get_power_over_time_while]. unfold bind, time_time, get. rewrite Hc.
    split; [reflexivity |]. right. split; reflexivity.
  - exists 0%nat, []. rewrite (get_power_over_time_exit _ _ _ _ Hc).
    split; [lia |]. split; [reflexivity |]. split; [reflexivity |].
    left. cbn [fst seq map]. rewrite !app_nil_r. reflexivity.
  - rewrite (get_power_over_time_step fuel w rs ts Hpm Hc).
    destruct (IH (sampled interval w) (rs ++ [device_power w (reads w)])
                 (ts ++ [(clock w - start)%Q]) Hpm)
      as (n & new_ts & Hn & Hlen & Hworld & Hout).
    exists (S n), ((clock w - start)%Q :: new_ts).
    split; [lia |]. split; [cbn [List.length]; rewrite Hlen; reflexivity |].
    split; [rewrite Hworld, <- Nat.iter_succ_r; reflexivity |].
    destruct Hout as [Hret | [Hfuel ->]].
    + left. rewrite Hret. f_equal. f_equal.
      * rewrite <- app_assoc. reflexivity.
      * rewrite <- app_assoc. f_equal. cbn [seq map app].
        rewrite Nat.add_0_r. f_equal.
        rewrite <- seq_shift, map_map. apply map_ext. intros i.
        change (reads (sampled interval w)) with (S (reads w)).
        change (device_power (sampled interval w)) with (device_power w).
        f_equal. lia.
    + right. split; [exact Hfuel | reflexivity].
  - exists 0%nat, []. rewrite (get_power_over_time_exit _ _ _ _ Hc).
    split; [lia |]. split; [reflexivity |]. split; [reflexivity |].
    left. cbn [fst seq map]. rewrite !app_nil_r. reflexivity.
Qed.

Lemma get_power_over_time_while_ends (k : nat) :
  forall (fuel : nat) (w : World) (rs ts : list Q),
    faulty w PM100D_measPower = false ->
    (duration <= clock w - start + Qnat k * interval)%Q ->
    (k <= fuel)%nat ->
    fst (pm.get_power_over_time_while fuel start duration interval rs ts w)
    <> OutOfFuel.
Proof.
  induction k as [| k IH]; intros fuel w rs ts Hpm Hge Hfuel.
  - rewrite get_power_over_time_exit; [discriminate |].
    apply Qltb_ge. change (Qnat 0) with 0%Q in Hge. lra.
  - destruct (Qltb (clock w - start) duration) eqn:Hc.
    + destruct fuel as [| fuel]; [lia |].
      rewrite (get_power_over_time_step fuel w rs ts Hpm Hc).
      apply IH; [exact Hpm | | lia].
      rewrite Qnat_S in Hge.
      change (clock (sampled interval w)) with (clock w + interval)%Q. lra.
    + rewrite (get_power_over_time_exit _ _ _ _ Hc). discriminate.
Qed.
End PowerOverTime.

(** X9.  With a power meter that answers and a non-negative interval,
    [get_power_over_time] never raises, and what it returns is, for some
    [n], the next [n] readings of the meter in the order they were taken,
    with a list of [n] timestamps beside them; [n] readings have then been
    consumed.  For a duration of zero or less the loop is not entered: two
    empty lists are returned and nothing is touched.  With a positive
    interval the loop comes to an end: enough fuel gives a result. *)
Theorem get_power_over_time_returns_readings_in_order
    (fuel : nat) (duration interval : Q) (w : World) :
  faulty w PM100D_measPower = false ->
  (0 <= interval)%Q ->
  (exists (n : nat) (timestamps : list Q),
      (n <= fuel)%nat
      /\ List.length timestamps = n
      /\ reads (snd (pm.get_power_over_time fuel duration interval w))
         = (reads w + n)%nat
      /\ (fst (pm.get_power_over_time fuel duration interval w)
          = Ret (timestamps,
                 map (fun i => device_power w (reads w + i)%nat) (seq 0 n))
          \/ (fst (pm.get_power_over_time fuel duration interval w) = OutOfFuel
               /\ n = fuel)))
  /\ ((duration <= 0)%Q ->
      pm.get_power_over_time fuel duration interval w = (Ret ([], []), w))
  /\ ((0 < interval)%Q ->
      exists fuel0 : nat,
        forall fuel', (fuel0 <= fuel')%nat ->
          exists (n : nat) (timestamps : list Q),
            List.length timestamps = n
            /\ fst (pm.get_power_over_time fuel' duration interval w)
               = Ret (timestamps,
                      map (fun i => device_power w (reads w + i)%nat) (seq 0 n))).
Proof.
  intros Hpm Hint.
  assert (Hunfold : forall f, pm.get_power_over_time f duration interval w
                    = pm.get_power_over_time_while f (clock w) duration interval
                        [] [] w) by reflexivity.
  split; [| split].
  - rewrite Hunfold.
    destruct (get_power_over_time_while_shape (clock w) duration interval Hint
                fuel w [] [] Hpm) as (n & new_ts & Hn & Hlen & Hworld & Hout).
    exists n, new_ts. split; [exact Hn |]. split; [exact Hlen |].
    split; [rewrite Hworld; apply iter_sampled_reads | exact Hout].
  - intros Hd. rewrite Hunfold. apply get_power_over_time_exit.
    apply Qltb_ge. lra.
  - intros Hpos. destruct (enough_cycles duration interval Hpos) as (k & Hk).
    exists k. intros fuel' Hfuel. rewrite Hunfold.
    destruct (get_power_over_time_while_shape (clock w) duration interval Hint
                fuel' w [] [] Hpm) as (n & new_ts & _ & Hlen & _ & Hout).
    exists n, new_ts. split; [exact Hlen |].
    destruct Hout as [Hret | [Hout _]]; [exact Hret |].
    exfalso. refine (get_power_over_time_while_ends (clock w) duration interval Hint
                       k fuel' w [] [] Hpm _ Hfuel Hout).
    lra.
Qed.

(** On the demonstration laboratory the readings come back in the order of
    the meter; no duration, no reading. *)
Lemma get_power_over_time_returns_readings_in_order_witness :
  (exists (n : nat) (timestamps : list Q),
      List.length timestamps = n
      /\ fst (pm.get_power_over_time 10 2 (1 # 2) (demo_world 1))
         = Ret (timestamps, map demo_power (seq 0 n)))
  /\ pm.get_power_over_time 10 0 (1 # 2) (demo_world 1) = (Ret ([], []), demo_world 1).
Proof.
  destruct (get_power_over_time_returns_readings_in_order 10 2 (1 # 2) (demo_world 1)
              eq_refl ltac:(discriminate))
    as ((n & ts & _ & Hlen & _ & [Hret | [Hout _]]) & _ & _).
  - split.
    + exists n, ts. split; [exact Hlen | exact Hret].
    + destruct (get_power_over_time_returns_readings_in_order 10 0 (1 # 2)
                  (demo_world 1) eq_refl ltac:(discriminate)) as (_ & Hzero & _).
      apply Hzero. discriminate.
  - vm_compute in Hout. discriminate.
Defined.

(* ================================================================== *)
(** * Further theorems: the spectrometer *)

Lemma truthy_spec (bound : option Q) :
  truthy bound = false <-> falsy_bound bound.
Proof.
  unfold truthy, falsy_bound. destruct bound as [q |].
  - rewrite negb_false_iff. split.
    + intros H. right. exists q. split; [reflexivity | apply Qeq_bool_iff, H].
    + intros [H | (q' & [= <-] & H)]; [discriminate | apply Qeq_bool_iff, H].
  - split; [intros _; left; reflexivity | reflexivity].
Qed.

Lemma in_mask_spec (lo hi x : Q) :
  in_mask lo hi x = true <-> (lo <= x)%Q /\ (x <= hi)%Q.
Proof.
  unfold in_mask. rewrite andb_true_iff, !Qle_bool_iff. reflexivity.
Qed.

Lemma select_filter {X} (p : X -> bool) (l : list X) :
  select (map p l) l = filter p l.
Proof.
  induction l as [| x l IH]; [reflexivity |].
  cbn [map select filter]. destruct (p x); rewrite IH; reflexivity.
Qed.

Lemma select_pairs {X Y} (p : X -> bool) (a : list X) :
  forall b : list Y,
    List.length a = List.length b ->
    combine (select (map p a) a) (select (map p a) b)
    = filter (fun q => p (fst q)) (combine a b)
    /\ List.length (select (map p a) a) = List.length (select (map p a) b).
Proof.
  induction a as [| x a IH]; intros [| y b] Hlen; try discriminate.
  - split; reflexivity.
  - injection Hlen as Hlen. destruct (IH b Hlen) as [Hc Hl].
    cbn [map select combine filter fst]. destruct (p x); cbn [combine List.length].
    + rewrite Hc, Hl. split; reflexivity.
    + split; assumption.
Qed.

(** [get_spectrum] when no correction applies, with its mask decision left
    to the caller of the lemma. *)
Lemma get_spectrum_uncorrected (correct_bg : bool) (w : World) :
  spec_healthy w ->
  correct_bg = false \/ background (spec w) = None ->
  spectrometer.get_spectrum correct_bg w
  = bind (if truthy (fst (mask_range (spec w))) && truthy (snd (mask_range (spec w)))
          then
            let lo := dict_get (fst (mask_range (spec w))) 0%Q in
            let hi := dict_get (snd (mask_range (spec w))) 0%Q in
            let mask := map (in_mask lo hi) (fst (device_spectrum w (scans w))) in
            wl' <- np_select mask (fst (device_spectrum w (scans w))) ;;
            inten' <- np_select mask (snd (device_spectrum w (scans w))) ;;
            ret (wl', inten')
          else ret (device_spectrum w (scans w)))
         (fun masked => ret masked) (acquired w).
Proof.
  intros Hh Hbg. unfold spectrometer.get_spectrum.
  unfold bind at 1. rewrite (get_raw_spectrum_healthy w Hh).
  unfold bind at 1, get. change (spec (acquired w)) with (spec w).
  destruct (device_spectrum w (scans w)) as [wl inten]. cbn [fst snd].
  unfold bind at 1. unfold bind at 4.
  match goal with
  | |- context [match ?m (acquired w) with _ => _ end] =>
      destruct (m (acquired w)) as [[[wl' inten'] | e |] w1]
  end; try reflexivity.
  cbn [fst snd].
  destruct Hbg as [-> | ->]; [reflexivity |]. destruct correct_bg; reflexivity.
Qed.

(** X10.  With both mask bounds set to non-zero numbers, a healthy
    spectrometer and no stored background, [get_spectrum] returns the
    points of the scan whose wavelength lies in [[lo, hi]], bounds included,
    in their order: every returned wavelength is in the range and the two
    returned arrays have one length. *)
Theorem get_spectrum_keeps_points_inside_mask
    (correct_bg : bool) (w : World) (lo hi : Q) :
  spec_healthy w ->
  correct_bg = false \/ background (spec w) = None ->
  mask_range (spec w) = (Some lo, Some hi) ->
  ~ (lo == 0)%Q -> ~ (hi == 0)%Q ->
  List.length (fst (device_spectrum w (scans w)))
    = List.length (snd (device_spectrum w (scans w))) ->
  exists wl' inten',
    spectrometer.get_spectrum correct_bg w = (Ret (wl', inten'), acquired w)
    /\ combine wl' inten'
       = filter (fun p => in_mask lo hi (fst p))
                (combine (fst (device_spectrum w (scans w)))
                         (snd (device_spectrum w (scans w))))
    /\ List.length wl' = List.length inten'
    /\ Forall (fun x => lo <= x /\ x <= hi)%Q wl'.
Proof.
  intros Hh Hbg Hmask Hlo Hhi Hlen.
  set (wl := fst (device_spectrum w (scans w))) in *.
  set (inten := snd (device_spectrum w (scans w))) in *.
  exists (select (map (in_mask lo hi) wl) wl), (select (map (in_mask lo hi) wl) inten).
  destruct (select_pairs (in_mask lo hi) wl inten Hlen) as [Hc Hl].
  split; [| split; [exact Hc | split; [exact Hl |]]].
  - rewrite (get_spectrum_uncorrected correct_bg w Hh Hbg). rewrite Hmask.
    cbn [fst snd truthy dict_get].
    replace (Qeq_bool lo 0) with false
      by (symmetry; apply not_true_is_false; intros H; apply Hlo, Qeq_bool_iff, H).
    replace (Qeq_bool hi 0) with false
      by (symmetry; apply not_true_is_false; intros H; apply Hhi, Qeq_bool_iff, H).
    cbn [negb andb]. fold wl inten.
    unfold np_select. rewrite length_map, Nat.eqb_refl.
    rewrite Hlen, Nat.eqb_refl. reflexivity.
  - rewrite select_filter. apply Forall_forall. intros x Hx.
    apply filter_In in Hx. apply in_mask_spec, Hx.
Qed.

Lemma get_spectrum_keeps_points_inside_mask_witness :
  exists wl' inten',
    spectrometer.get_spectrum true (masked_world true (Some 750%Q) (Some 900%Q))
      = (Ret (wl', inten'), acquired (masked_world true (Some 750%Q) (Some 900%Q)))
    /\ combine wl' inten'
       = filter (fun p => in_mask 750 900 (fst p))
                (combine [700; 800; 900]%Q [3; 40; 3 # 2]%Q)
    /\ List.length wl' = List.length inten'
    /\ Forall (fun x => 750 <= x /\ x <= 900)%Q wl'.
Proof.
  apply (get_spectrum_keeps_points_inside_mask true
           (masked_world true (Some 750%Q) (Some 900%Q)) 750 900).
  - left. reflexivity.
  - right. reflexivity.
  - reflexivity.
  - discriminate.
  - discriminate.
  - reflexivity.
Defined.

(** X11.  A mask range with a bound that is absent or equal to zero is not
    applied at all: with a healthy spectrometer and no stored background,
    [get_spectrum] returns the whole scan, also the points beyond the other
    bound. *)
Theorem get_spectrum_ignores_mask_with_zero_bound (correct_bg : bool) (w : World) :
  spec_healthy w ->
  correct_bg = false \/ background (spec w) = None ->
  falsy_bound (fst (mask_range (spec w))) \/ falsy_bound (snd (mask_range (spec w))) ->
  spectrometer.get_spectrum correct_bg w
  = (Ret (device_spectrum w (scans w)), acquired w).
Proof.
  intros Hh Hbg Hfalsy.
  rewrite (get_spectrum_uncorrected correct_bg w Hh Hbg).
  replace (truthy (fst (mask_range (spec w))) && truthy (snd (mask_range (spec w))))
    with false; [reflexivity |].
  symmetry. apply andb_false_iff.
  destruct Hfalsy as [H | H]; [left | right]; apply truthy_spec, H.
Qed.

(** A mask from 0 to 800 nm leaves the point at 900 nm in the result. *)
Lemma get_spectrum_ignores_mask_with_zero_bound_witness :
  spectrometer.get_spectrum true (masked_world true (Some 0%Q) (Some 800%Q))
  = (Ret ([700; 800; 900]%Q, [3; 40; 3 # 2]%Q),
     acquired (masked_world true (Some 0%Q) (Some 800%Q))).
Proof.
  apply (get_spectrum_ignores_mask_with_zero_bound true
           (masked_world true (Some 0%Q) (Some 800%Q))).
  - left. reflexivity.
  - right. reflexivity.
  - left. right. exists 0%Q. split; reflexivity.
Defined.

Lemma clip0_of_zero (y : Q) : (y == 0)%Q -> (clip0 y == 0)%Q.
Proof.
  intros H. unfold clip0. destruct (Qle_bool 0 y); [exact H | reflexivity].
Qed.

Lemma zip_with_diagonal {X Y} (f : X -> X -> Y) (l : list X) :
  zip_with f l l = map (fun x => f x x) l.
Proof.
  induction l as [| x l IH]; [reflexivity |]. cbn [zip_with map]. rewrite IH.
  reflexivity.
Qed.

Lemma subtract_and_clip_self (l : list Q) (w : World) :
  exists out,
    subtract_and_clip l l w = (Ret out, w)
    /\ List.length out = List.length l
    /\ Forall (fun x => x == 0)%Q out.
Proof.
  exists (map (fun x => clip0 (x - x)) l).
  rewrite (subtract_and_clip_equal_length l l w eq_refl), zip_with_diagonal.
  split; [reflexivity |]. split; [apply length_map |].
  apply Forall_forall. intros y Hy. apply in_map_iff in Hy.
  destruct Hy as (x & <- & _). apply clip0_of_zero. lra.
Qed.

(** X12.  On a healthy spectrometer that delivers the same well-formed
    spectrum at every scan, [capture_background] followed by
    [get_spectrum(correct_bg=True)] returns without a shape error, with or
    without a mask, and every returned intensity is zero: a frame corrected
    by itself.  The stored background is the (masked) intensity array. *)
Theorem background_of_steady_source_cancels
    (w : World) (wl inten : list Q) :
  spec_healthy w ->
  (forall k, device_spectrum w k = (wl, inten)) ->
  List.length wl = List.length inten ->
  exists wl' out w',
    (spectrometer.capture_background ;; spectrometer.get_spectrum true) w
      = (Ret (wl', out), w')
    /\ List.length out = List.length wl'
    /\ Forall (fun x => x == 0)%Q out
    /\ exists bg, background (spec w') = Some bg
                  /\ List.length bg = List.length out.
Proof.
  intros Hh Hsteady Hlen.
  set (masking := truthy (fst (mask_range (spec w)))
                  && truthy (snd (mask_range (spec w)))).
  set (lo := dict_get (fst (mask_range (spec w))) 0%Q).
  set (hi := dict_get (snd (mask_range (spec w))) 0%Q).
  set (mask := map (in_mask lo hi) wl).
  set (bg := if masking then select mask inten else inten).
  set (wl' := if masking then select mask wl else wl).
  set (w1 := if masking then acquired (acquired w) else acquired w).
  set (w2 := set_spec (mkSpec (simulate (spec w)) (integration_time (spec w))
                              (Some bg) (mask_range (spec w))) w1).
  assert (Hcap : spectrometer.capture_background w = (Ret bg, w2)).
  { unfold spectrometer.capture_background.
    unfold bind at 1. rewrite (get_raw_spectrum_healthy w Hh), Hsteady.
    unfold bind at 1, get. change (spec (acquired w)) with (spec w).
    fold masking lo hi. cbn [snd]. unfold bind at 1.
    unfold w2, w1, bg. destruct masking.
    - unfold bind at 1.
      rewrite (get_raw_spectrum_healthy (acquired w) (acquired_healthy w Hh)).
      change (device_spectrum (acquired w)) with (device_spectrum w).
      rewrite Hsteady. cbn [fst]. fold mask.
      unfold np_select. unfold mask at 1. rewrite length_map, Hlen, Nat.eqb_refl.
      reflexivity.
    - reflexivity. }
  assert (Hh2 : spec_healthy w2) by (unfold w2, w1; destruct masking; exact Hh).
  assert (Hbg_len : List.length bg = List.length wl').
  { unfold bg, wl'. destruct masking; [| congruence].
    symmetry. exact (proj2 (select_pairs (in_mask lo hi) wl inten Hlen)). }
  destruct (subtract_and_clip_self bg (acquired w2)) as (out & Hsub & Hout_len & Hzero).
  exists wl', out, (acquired w2).
  split; [| split; [congruence | split; [exact Hzero |]]].
  - unfold bind at 1. rewrite Hcap.
    rewrite (get_spectrum_with_background w2 bg Hh2)
      by (unfold w2; reflexivity).
    replace (device_spectrum w2 (scans w2)) with (wl, inten)
      by (symmetry; unfold w2, w1; destruct masking; apply Hsteady).
    change (mask_range (spec w2)) with (mask_range (spec w)).
    fold masking lo hi. cbn [fst snd]. fold mask.
    unfold bg in Hsub. unfold wl', bg. destruct masking.
    + unfold bind.
      rewrite (np_select_ok mask wl) by (unfold mask; apply length_map).
      rewrite (np_select_ok mask inten)
        by (unfold mask; rewrite length_map; exact Hlen).
      unfold ret at 1. cbn [fst snd]. rewrite Hsub. reflexivity.
    + unfold bind, ret at 1. cbn [fst snd]. rewrite Hsub. reflexivity.
  - exists bg. split; [reflexivity | congruence].
Qed.

Lemma background_of_steady_source_cancels_witness :
  exists wl' out w',
    (spectrometer.capture_background ;; spectrometer.get_spectrum true)
      (masked_world false (Some 750%Q) (Some 900%Q))
      = (Ret (wl', out), w')
    /\ List.length out = List.length wl'
    /\ Forall (fun x => x == 0)%Q out
    /\ exists bg, background (spec w') = Some bg
                  /\ List.length bg = List.length out.
Proof.
  apply (background_of_steady_source_cancels
           (masked_world false (Some 750%Q) (Some 900%Q))
           [700; 800; 900]%Q [3; 40; 3 # 2]%Q).
  - right. repeat split.
  - intros k. reflexivity.
  - reflexivity.
Defined.

Example background_of_steady_source_demo :
  fst ((spectrometer.capture_background ;; spectrometer.get_spectrum true)
         (masked_world false (Some 750%Q) (Some 900%Q)))
  = Ret ([800; 900]%Q, [0 # 1; 0 # 4]%Q)
  /\ scans (snd ((spectrometer.capture_background ;; spectrometer.get_spectrum true)
                   (masked_world false (Some 750%Q) (Some 900%Q)))) = 3%nat.
Proof. split; reflexivity. Qed.

Lemma acquired_simulated_trace (w : World) :
  simulate (spec w) = true -> trace (acquired w) = trace w.
Proof. intros H. unfold acquired, scan_events. rewrite H. reflexivity. Qed.

Ltac split_branches :=
  repeat (cbn beta iota;
          match goal with
          | |- context [if ?b then _ else _] =>
              lazymatch b with
              | context [if _ then _ else _] => fail
              | context [match _ with _ => _ end] => fail
              | _ => destruct b
              end
          | |- context [match ?x with _ => _ end] =>
              lazymatch type of x with
              | option _ => destruct x
              | bool => destruct x
              end
          end).

Lemma get_spectrum_simulated_trace (correct_bg : bool) (w : World) :
  simulate (spec w) = true ->
  trace (snd (spectrometer.get_spectrum correct_bg w)) = trace w.
Proof.
  intros Hsim. unfold spectrometer.get_spectrum.
  unfold bind at 1. rewrite (get_raw_spectrum_healthy w (or_introl Hsim)).
  rewrite <- (acquired_simulated_trace w Hsim).
  generalize (acquired w) as v. intros v.
  generalize (device_spectrum w (scans w)) as raw. intros raw.
  unfold np_select, subtract_and_clip. unfold bind, get, ret, raise.
  split_branches; reflexivity.
Qed.

Lemma capture_background_simulated_trace (w : World) :
  simulate (spec w) = true ->
  trace (snd (spectrometer.capture_background w)) = trace w.
Proof.
  intros Hsim. unfold spectrometer.capture_background.
  unfold bind at 1. rewrite (get_raw_spectrum_healthy w (or_introl Hsim)).
  unfold bind at 1, get. change (spec (acquired w)) with (spec w).
  destruct (truthy (fst (mask_range (spec w))) && truthy (snd (mask_range (spec w)))).
  - unfold bind at 1, bind at 1.
    rewrite (get_raw_spectrum_healthy (acquired w) (or_introl Hsim)).
    assert (Ht : trace (acquired (acquired w)) = trace w).
    { rewrite (acquired_simulated_trace (acquired w) Hsim).
      exact (acquired_simulated_trace w Hsim). }
    rewrite <- Ht.
    generalize (acquired (acquired w)) as v. intros v.
    unfold np_select. unfold bind, get, ret, raise, modify.
    split_branches; reflexivity.
  - rewrite <- (acquired_simulated_trace w Hsim). reflexivity.
Qed.

(** X13.  A simulated spectrometer never reaches the vendor library: its
    constructor, [set_integration_time], [get_raw_spectrum],
    [get_spectrum] and [capture_background] add nothing to the trace,
    whether they return or raise, the scan returned is the synthesised
    one, and [shutdown] adds only the mark of its own entry. *)
Theorem simulated_spectrometer_makes_no_vendor_call
    (w : World) (seconds : Q) (correct_bg : bool) (setup : SetupConfig) :
  simulate (spec w) = true ->
  trace (snd (spectrometer.set_integration_time seconds w)) = trace w
  /\ spectrometer.get_raw_spectrum w = (Ret (device_spectrum w (scans w)), acquired w)
  /\ trace (acquired w) = trace w
  /\ trace (snd (spectrometer.get_spectrum correct_bg w)) = trace w
  /\ trace (snd (spectrometer.capture_background w)) = trace w
  /\ spectrometer.shutdown w
     = (Ret tt, set_trace (Enter spec_shutdown :: trace w) w)
  /\ (spectrometer_simulate setup = Some true ->
      forall v, fst (spectrometer.__init__ setup v) = Ret tt
                /\ trace (snd (spectrometer.__init__ setup v)) = trace v
                /\ simulate (spec (snd (spectrometer.__init__ setup v))) = true).
Proof.
  intros Hsim.
  split.
  { unfold spectrometer.set_integration_time, bind, get, modify.
    rewrite Hsim. reflexivity. }
  split; [exact (get_raw_spectrum_healthy w (or_introl Hsim)) |].
  split; [exact (acquired_simulated_trace w Hsim) |].
  split; [exact (get_spectrum_simulated_trace correct_bg w Hsim) |].
  split; [exact (capture_background_simulated_trace w Hsim) |].
  split.
  { unfold spectrometer.shutdown, bind, emit, modify, get.
    cbn [spec set_trace]. rewrite Hsim. reflexivity. }
  intros Hsetup v. unfold spectrometer.__init__. rewrite Hsetup.
  repeat split.
Qed.

Lemma simulated_spectrometer_makes_no_vendor_call_witness :
  trace (snd (spectrometer.set_integration_time (1 # 4)
                (masked_world true (Some 750%Q) (Some 900%Q)))) = []
  /\ trace (snd (spectrometer.get_spectrum true
                   (masked_world true (Some 750%Q) (Some 900%Q)))) = []
  /\ trace (snd (spectrometer.capture_background
                   (masked_world true (Some 750%Q) (Some 900%Q)))) = []
  /\ trace (snd (spectrometer.__init__ (mkSetup (Some true) None None)
                   (demo_world 1))) = [].
Proof.
  destruct (simulated_spectrometer_makes_no_vendor_call
              (masked_world true (Some 750%Q) (Some 900%Q)) (1 # 4) true
              (mkSetup (Some true) None None) eq_refl)
    as (Hset & _ & _ & Hget & Hcap & _ & Hinit).
  split; [exact Hset |]. split; [exact Hget |]. split; [exact Hcap |].
  exact (proj1 (proj2 (Hinit eq_refl (demo_world 1)))).
Defined.

(* ================================================================== *)
(** * Further theorems: the constructor *)

Section EmitsOnly.
Context {A B : Type} (q : Event -> bool).

Lemma emits_only_ret (a : A) : emits_only q (ret a).
Proof. intros w o w' [= _ <-]. exists []. split; reflexivity. Qed.

Lemma emits_only_raise (e : PyExn) : emits_only q (@raise A e).
Proof. intros w o w' [= _ <-]. exists []. split; reflexivity. Qed.

Lemma emits_only_get (f : World -> A) : emits_only q (get f).
Proof. intros w o w' [= _ <-]. exists []. split; reflexivity. Qed.

Lemma emits_only_bind (m : M A) (k : A -> M B) :
  emits_only q m -> (forall a, emits_only q (k a)) -> emits_only q (bind m k).
Proof.
  intros Hm Hk w o w'. unfold bind.
  destruct (m w) as [[a | e |] w1] eqn:E; destruct (Hm _ _ _ E) as (ev1 & H1 & Hq1).
  - intros H2. destruct (Hk _ _ _ _ H2) as (ev2 & H3 & Hq2).
    exists (ev2 ++ ev1). rewrite H3, H1, app_assoc, forallb_app, Hq1, Hq2.
    split; reflexivity.
  - intros [= _ <-]. exists ev1. split; assumption.
  - intros [= _ <-]. exists ev1. split; assumption.
Qed.
End EmitsOnly.

Lemma emits_only_modify (q : Event -> bool) (f : World -> World) :
  (forall w, trace (f w) = trace w) -> emits_only q (modify f).
Proof. intros H w o w' [= _ <-]. exists []. split; [apply H | reflexivity]. Qed.

Lemma emits_only_emit (q : Event -> bool) (e : Event) :
  q e = true -> emits_only q (emit e).
Proof.
  intros H w o w' [= _ <-]. exists [e]. split; [reflexivity |].
  cbn [forallb]. rewrite H. reflexivity.
Qed.

Lemma emits_only_hw (q : Event -> bool) (c : HwCall) :
  q (Hw c) = true -> emits_only q (hw c).
Proof.
  intros H. unfold hw. apply emits_only_bind; [apply emits_only_emit, H |].
  intros _ w o w'.
  destruct (faulty w c); intros [= _ <-]; exists []; split; reflexivity.
Qed.

Lemma emits_only_open_session (q : Event -> bool) (c : HwCall) :
  q (Hw c) = true -> emits_only q (open_session c).
Proof.
  intros H. unfold open_session. apply emits_only_bind; [apply emits_only_emit, H |].
  intros _ w o w'.
  destruct (faulty w c); intros [= _ <-]; exists []; split; reflexivity.
Qed.

Lemma emits_only_sleep (q : Event -> bool) (d : Q) : emits_only q (sleep d).
Proof.
  intros w o w'. unfold sleep.
  destruct (Qle_bool 0 d); intros [= _ <-]; exists []; split; reflexivity.
Qed.

Lemma emits_only_dict_item {A} (q : Event -> bool) (o : option A) :
  emits_only q (dict_item o).
Proof. destruct o; [apply emits_only_ret | apply emits_only_raise]. Qed.

Ltac emits_step :=
  match goal with
  | |- emits_only _ (bind _ _) => apply emits_only_bind; [| intros ?]
  | |- emits_only _ (if ?b then _ else _) => destruct b
  | |- emits_only _ (match ?x with _ => _ end) => destruct x
  | |- emits_only _ (ret _) => apply emits_only_ret
  | |- emits_only _ (raise _) => apply emits_only_raise
  | |- emits_only _ (get _) => apply emits_only_get
  | |- emits_only _ (dict_item _) => apply emits_only_dict_item
  | |- emits_only _ (sleep _) => apply emits_only_sleep
  | |- emits_only _ (modify _) => apply emits_only_modify; intros ?; reflexivity
  | |- emits_only _ (emit _) => apply emits_only_emit; reflexivity
  | |- emits_only _ (hw _) => apply emits_only_hw; reflexivity
  | |- emits_only _ (open_session _) => apply emits_only_open_session; reflexivity
  | |- emits_only _ _ => assumption
  end.
Ltac emits_auto := repeat emits_step.

Section NoShutdownEvent.
Let q (e : Event) : bool := negb (closes e).

Lemma pulse_once_no_shutdown_event : emits_only q _pulse_once.
Proof. unfold _pulse_once, trigger_cycle, set_current_slot. emits_auto. Qed.

Lemma go_to_slot_while_no_shutdown_event (fuel : nat) :
  forall t m a, emits_only q (go_to_slot_while fuel _pulse_once t m a).
Proof.
  induction fuel as [| fuel IH]; intros t m a w o w'; cbn [go_to_slot_while];
    destruct (negb (current_slot (fw w) =? t) && (a <? m)).
  - intros [= _ <-]. exists []. split; reflexivity.
  - intros [= _ <-]. exists []. split; reflexivity.
  - apply emits_only_bind; [apply pulse_once_no_shutdown_event | intros _; apply IH].
  - intros [= _ <-]. exists []. split; reflexivity.
Qed.

Lemma go_to_slot_no_shutdown_event (s : Z) : emits_only q (go_to_slot s).
Proof.
  pose proof go_to_slot_while_no_shutdown_event.
  unfold go_to_slot, go_to_slot_with. emits_auto. apply H.
Qed.

Lemma scan_slots_no_shutdown_event (n : nat) :
  forall measurements, emits_only q (scan_slots n measurements).
Proof.
  pose proof pulse_once_no_shutdown_event.
  induction n as [| n IH]; intros acc; cbn [scan_slots].
  - apply emits_only_ret.
  - unfold get_current_slot, pm.get_power. emits_auto. apply IH.
Qed.

Lemma configure_no_shutdown_event :
  emits_only q configure_flywheel_with_powermeter.
Proof.
  pose proof go_to_slot_no_shutdown_event.
  unfold configure_flywheel_with_powermeter, reset_slot, set_current_slot.
  emits_auto; try apply scan_slots_no_shutdown_event; try apply H.
Qed.

Lemma init_no_shutdown_event (config : UserConfig) (setup : SetupConfig) :
  emits_only q (experiment.__init__ config setup).
Proof.
  pose proof configure_no_shutdown_event.
  unfold experiment.__init__, spectrometer.__init__, pm.__init__, flywheel.__init__,
    spectrometer.set_mask_range, spectrometer.set_integration_time.
  emits_auto.
Qed.
End NoShutdownEvent.

Lemma emits_only_filter (q : Event -> bool) (events : list Event) :
  forallb (fun e => negb (q e)) events = true -> filter q events = [].
Proof.
  induction events as [| e events IH]; [reflexivity |].
  cbn [forallb filter]. intros H. apply andb_true_iff in H. destruct H as [He H].
  apply negb_true_iff in He. rewrite He. apply IH, H.
Qed.

(** X14.  When the constructor of [PLExperiment] raises, [main] ends with
    that exception in the world the constructor left: the [try] block has
    not been entered, so no shutdown hook is entered and no close call is
    made, and the sessions opened before the failure stay open.  So it is,
    for one, when the power meter does not open after the spectrometer has. *)
Theorem failed_constructor_skips_shutdown
    (live_tuning : M unit) (fuel : nat)
    (config : UserConfig) (setup : SetupConfig) (w w1 : World) (e : PyExn) :
  experiment.__init__ config setup w = (Raise e, w1) ->
  main live_tuning fuel config setup w = (Raise e, w1)
  /\ shutdown_events w1 = shutdown_events w
  /\ (dict_get (spectrometer_simulate setup) false = false ->
      faulty w tlccs_init = false ->
      faulty w tlccs_setIntegrationTime = false ->
      faulty w PM100D_init = true ->
      e = RuntimeError
      /\ trace w1 = Hw PM100D_init :: Hw tlccs_setIntegrationTime
                      :: Hw tlccs_init :: trace w).
Proof.
  intros Hinit.
  split; [unfold main, bind; rewrite Hinit; reflexivity |].
  split.
  - destruct (init_no_shutdown_event config setup _ _ _ Hinit) as (events & Ht & Hq).
    unfold shutdown_events. rewrite Ht, filter_app.
    rewrite (emits_only_filter closes events Hq). reflexivity.
  - intros Hsim H1 H2 H3. revert Hinit.
    unfold experiment.__init__, spectrometer.__init__, pm.__init__,
      spectrometer.set_integration_time, open_session, hw.
    rewrite Hsim. unfold bind, emit, modify, get, ret.
    cbn [faulty set_trace set_spec spec simulate negb trace].
    rewrite H1. cbn [faulty set_trace set_spec spec simulate negb trace].
    rewrite H2. cbn [faulty set_trace set_spec spec simulate negb trace].
    rewrite H3. intros [= <- <-]. split; reflexivity.
Qed.

Lemma failed_constructor_skips_shutdown_witness :
  main (ret tt) 0 (demo_user "steady_state" "skip") demo_setup no_power_meter_world
    = (Raise RuntimeError,
       snd (experiment.__init__ (demo_user "steady_state" "skip") demo_setup
              no_power_meter_world))
  /\ shutdown_events
       (snd (experiment.__init__ (demo_user "steady_state" "skip") demo_setup
               no_power_meter_world)) = []
  /\ trace (snd (experiment.__init__ (demo_user "steady_state" "skip") demo_setup
                   no_power_meter_world))
     = [Hw PM100D_init; Hw tlccs_setIntegrationTime; Hw tlccs_init].
Proof.
  destruct (failed_constructor_skips_shutdown (ret tt) 0
              (demo_user "steady_state" "skip") demo_setup no_power_meter_world
              (snd (experiment.__init__ (demo_user "steady_state" "skip") demo_setup
                      no_power_meter_world))
              RuntimeError)
    as (Hmain & Hquiet & Hleak).
  - vm_compute. reflexivity.
  - split; [exact Hmain |]. split; [exact Hquiet |].
    exact (proj2 (Hleak eq_refl eq_refl eq_refl eq_refl)).
Defined.

Ltac preserves_step Ht Hc :=
  match goal with
  | |- preserves _ (bind _ _) => apply preserves_bind; [| intros ?]
  | |- preserves _ (if ?b then _ else _) => destruct b
  | |- preserves _ (match ?x with _ => _ end) => destruct x
  | |- preserves _ (ret _) => apply preserves_ret
  | |- preserves _ (raise _) => apply preserves_raise
  | |- preserves _ (get _) => apply preserves_get
  | |- preserves _ (sleep _) => apply preserves_sleep, Hc
  | |- preserves _ (emit _) => apply preserves_emit, Ht
  | |- preserves _ (hw _) => apply preserves_hw, Ht
  | |- preserves _ (open_session _) => apply preserves_open_session, Ht
  | |- preserves _ (modify _) =>
      apply preserves_modify; let w := fresh in let H := fresh in
                              intros w H; exact H
  | |- preserves _ _ => assumption
  end.
Ltac preserves_auto Ht Hc := repeat preserves_step Ht Hc.

Section WheelShape.
Variables (N : Z) (mapping : list (string * Z)).

Lemma wheel_shape_trace_blind : trace_blind (wheel_shape N mapping).
Proof. intros t w H. exact H. Qed.

Lemma wheel_shape_clock_blind : clock_blind (wheel_shape N mapping).
Proof. intros c w H. exact H. Qed.

Lemma pulse_once_keeps_wheel_shape : preserves (wheel_shape N mapping) _pulse_once.
Proof.
  unfold _pulse_once, trigger_cycle, set_current_slot.
  preserves_auto wheel_shape_trace_blind wheel_shape_clock_blind.
Qed.

Lemma go_to_slot_while_keeps_wheel_shape (fuel : nat) :
  forall t m a,
    preserves (wheel_shape N mapping) (go_to_slot_while fuel _pulse_once t m a).
Proof.
  induction fuel as [| fuel IH]; intros t m a w o w'; cbn [go_to_slot_while];
    destruct (negb (current_slot (fw w) =? t) && (a <? m)).
  - intros [= _ <-] H. exact H.
  - intros [= _ <-] H. exact H.
  - apply preserves_bind; [apply pulse_once_keeps_wheel_shape | intros _; apply IH].
  - intros [= _ <-] H. exact H.
Qed.

Lemma go_to_slot_keeps_wheel_shape (s : Z) :
  preserves (wheel_shape N mapping) (go_to_slot s).
Proof.
  pose proof go_to_slot_while_keeps_wheel_shape as H.
  unfold go_to_slot, go_to_slot_with.
  preserves_auto wheel_shape_trace_blind wheel_shape_clock_blind. apply H.
Qed.

Lemma scan_slots_keeps_wheel_shape (n : nat) :
  forall measurements,
    preserves (wheel_shape N mapping) (scan_slots n measurements).
Proof.
  pose proof pulse_once_keeps_wheel_shape as H.
  induction n as [| n IH]; intros acc; cbn [scan_slots].
  - apply preserves_ret.
  - unfold get_current_slot, pm.get_power.
    preserves_auto wheel_shape_trace_blind wheel_shape_clock_blind. apply IH.
Qed.

(** When auto-configuration returns, the tracked position is 1. *)
Lemma configure_returns_at_slot_1 (w w' : World) (u : unit) :
  wheel_shape N mapping w ->
  configure_flywheel_with_powermeter w = (Ret u, w') ->
  fw w' = mkFw N mapping 1.
Proof.
  intros Hshape Hrun. unfold configure_flywheel_with_powermeter in Hrun.
  apply bind_ret_inv in Hrun. destruct Hrun as (self & w0 & Hget & Hrun).
  injection Hget as <- <-.
  apply bind_ret_inv in Hrun. destruct Hrun as (meas & w1 & Hscan & Hrun).
  pose proof (scan_slots_keeps_wheel_shape _ _ _ _ _ Hscan Hshape) as Hshape1.
  destruct (py_max_by snd meas) as [[best_slot best_power] |]; [| discriminate].
  apply bind_ret_inv in Hrun. destruct Hrun as (s & w2 & Hgo & Hreset).
  pose proof (go_to_slot_keeps_wheel_shape _ _ _ _ Hgo Hshape1) as [HN Hm].
  unfold reset_slot, bind, get, set_current_slot, modify, raise in Hreset.
  destruct (negb _); [discriminate |].
  injection Hreset as _ <-. cbn [fw set_fw]. rewrite HN, Hm. reflexivity.
Qed.
End WheelShape.

(** X15.  Whenever the constructor returns, with or without
    auto-configuration and whatever the readings were, the tracked position
    is 1, the wheel has the slot count and the slot names of the setup file
    (6 slots and no name when absent), and the experiment object carries
    those names and the defaults of the absent keys. *)
Theorem constructor_leaves_tracker_at_slot_1
    (config : UserConfig) (setup : SetupConfig) (w w1 : World) (exp : PLExperiment) :
  experiment.__init__ config setup w = (Ret exp, w1) ->
  fw w1 = mkFw (dict_get (flywheel_slot_count setup) 6)
               (dict_get (flywheel_slot_mapping setup) []) 1
  /\ exp = mkExp config
                 (dict_get (flywheel_slot_mapping setup) [])
                 (dict_get (average_count config) 1)
                 (dict_get (enable_averaging_key config) false)
                 (dict_get (background_mode config) "each"%string).
Proof.
  set (N := dict_get (flywheel_slot_count setup) 6).
  set (mapping := dict_get (flywheel_slot_mapping setup) []).
  set (P := fun v : World => fw v = mkFw N mapping 1).
  assert (Pt : trace_blind P) by (intros t v H; exact H).
  assert (Pc : clock_blind P) by (intros c v H; exact H).
  unfold experiment.__init__. intros H.
  apply bind_ret_inv in H. destruct H as (u1 & wa & _ & H).
  apply bind_ret_inv in H. destruct H as (u2 & wb & _ & H).
  apply bind_ret_inv in H. destruct H as (u3 & wc & Hfw & H).
  assert (Hc : P wc).
  { unfold flywheel.__init__ in Hfw.
    apply bind_ret_inv in Hfw. destruct Hfw as (u4 & wd & Hmod & Hfw).
    injection Hmod as _ <-.
    assert (Hpre : preserves P (hw visa_open ;; hw gen_configure ;;
                                hw (gen_output false)))
      by preserves_auto Pt Pc.
    exact (Hpre _ _ _ Hfw eq_refl). }
  apply bind_ret_inv in H. destruct H as (u4 & wd & Hmask & H).
  assert (Hd : P wd).
  { assert (Hpre : preserves P (match mask_range_nm config with
                                | Some (min_nm, max_nm) =>
                                    spectrometer.set_mask_range min_nm max_nm
                                | None => ret tt
                                end)).
    { unfold spectrometer.set_mask_range.
      destruct (mask_range_nm config) as [[lo hi] |]; preserves_auto Pt Pc. }
    exact (Hpre _ _ _ Hmask Hc). }
  apply bind_ret_inv in H. destruct H as (ms & we & Hms & H).
  assert (He : P we).
  { destruct (integration_time_ms config); [| discriminate].
    injection Hms as _ <-. exact Hd. }
  apply bind_ret_inv in H. destruct H as (u5 & wf & Hint & H).
  assert (Hf : P wf).
  { assert (Hpre : preserves P (spectrometer.set_integration_time (ms / 1000))).
    { unfold spectrometer.set_integration_time. preserves_auto Pt Pc. }
    exact (Hpre _ _ _ Hint He). }
  apply bind_ret_inv in H. destruct H as (u6 & wg & Hauto & H).
  assert (Hg : P wg).
  { destruct (dict_get (auto_configure_flywheel config) true).
    - unfold P. apply (configure_returns_at_slot_1 N mapping wf wg u6); [| exact Hauto].
      unfold wheel_shape. rewrite Hf. split; reflexivity.
    - injection Hauto as _ <-. exact Hf. }
  apply bind_ret_inv in H. destruct H as (self_fw & wh & Hget & H).
  injection Hget as <- <-. injection H as <- <-.
  split; [exact Hg |]. rewrite Hg. reflexivity.
Qed.

Lemma constructor_leaves_tracker_at_slot_1_witness :
  fw (snd (experiment.__init__ (demo_user "degradation" "skip") demo_setup
             (demo_world 4)))
    = mkFw 6 demo_mapping 1
  /\ fst (experiment.__init__ (demo_user "degradation" "skip") demo_setup
            (demo_world 4))
     = Ret (mkExp (demo_user "degradation" "skip") demo_mapping 1 true "each").
Proof.
  destruct (constructor_leaves_tracker_at_slot_1
              (demo_user "degradation" "skip") demo_setup (demo_world 4)
              (snd (experiment.__init__ (demo_user "degradation" "skip") demo_setup
                      (demo_world 4)))
              (mkExp (demo_user "degradation" "skip") demo_mapping 1 true "each"))
    as [Hfw Hexp].
  - vm_compute. reflexivity.
  - split; [exact Hfw |]. vm_compute. reflexivity.
Defined.

(* ================================================================== *)
(** * Further theorems: acquisition and the experiment modes *)

Lemma iter_acquired_field {X} (f : World -> X) (k : nat) (w : World) :
  (forall v, f (acquired v) = f v) -> f (Nat.iter k acquired w) = f w.
Proof.
  intros H. induction k as [| k IH]; [reflexivity |].
  rewrite Nat.iter_succ, H. exact IH.
Qed.

Lemma iter_acquired_scans (k : nat) (w : World) :
  scans (Nat.iter k acquired w) = (scans w + k)%nat.
Proof.
  induction k as [| k IH]; [simpl; lia |].
  rewrite Nat.iter_succ. change (scans (acquired ?v)) with (S (scans v)).
  rewrite IH. lia.
Qed.

Lemma iter_acquired_healthy (k : nat) (w : World) :
  spec_healthy w -> spec_healthy (Nat.iter k acquired w).
Proof.
  unfold spec_healthy.
  rewrite (iter_acquired_field faulty k w) by reflexivity.
  rewrite (iter_acquired_field spec k w) by reflexivity.
  exact (fun H => H).
Qed.

(** The list comprehension of raw intensities: [n] scans in a row. *)
Lemma comprehension_raw_intensity (n : nat) :
  forall w, spec_healthy w ->
    comprehension n experiment.raw_intensity w
    = (Ret (map (fun k => snd (device_spectrum w (scans w + k)%nat)) (seq 0 n)),
       Nat.iter n acquired w).
Proof.
  induction n as [| n IH]; intros w Hh; [reflexivity |].
  cbn [comprehension]. unfold bind at 1. rewrite (raw_intensity_healthy w Hh).
  unfold bind at 1. rewrite (IH (acquired w) (acquired_healthy w Hh)).
  unfold ret. rewrite <- Nat.iter_succ_r. f_equal. f_equal.
  cbn [seq map]. rewrite Nat.add_0_r. f_equal.
  rewrite <- seq_shift, map_map. apply map_ext. intros k.
  change (device_spectrum (acquired w)) with (device_spectrum w).
  change (scans (acquired w)) with (S (scans w)). f_equal. f_equal. lia.
Qed.

Lemma Qnat_pos (k : nat) : ~ (Qnat (S k) == 0)%Q.
Proof.
  unfold Qnat, Qeq. simpl. lia.
Qed.

(** Summing [m] more copies of [x] onto [k] copies of [x]. *)
Lemma fold_np_add_copies (x : list Q) (m : nat) :
  forall (k : nat) (acc : list Q),
    Forall2 Qeq acc (map (fun v => Qnat k * v)%Q x) ->
    Forall2 Qeq (fold_left np_add (repeat x m) acc)
                (map (fun v => Qnat (k + m) * v)%Q x).
Proof.
  induction m as [| m IH]; intros k acc Hacc.
  - rewrite Nat.add_0_r. exact Hacc.
  - cbn [repeat fold_left]. replace (k + S m)%nat with (S k + m)%nat by lia.
    apply IH. clear IH. unfold np_add. revert acc Hacc.
    induction x as [| v x IHx]; intros acc Hacc; inversion Hacc; subst.
    + constructor.
    + cbn [zip_with map]. constructor; [| apply IHx; assumption].
      rewrite Qnat_S. match goal with H : (_ == _)%Q |- _ => rewrite H end. lra.
Qed.

Lemma mean_of_copies (x : list Q) (n : nat) :
  exists avg,
    np_mean_axis0 (repeat x (S n)) = MeanOk avg /\ Forall2 Qeq avg x.
Proof.
  cbn [repeat]. unfold np_mean_axis0.
  replace (forallb _ (repeat x n)) with true.
  2:{ symmetry. apply forallb_forall. intros r Hr.
      apply repeat_spec in Hr. subst r. apply Nat.eqb_refl. }
  eexists. split; [reflexivity |].
  assert (Hsum : Forall2 Qeq (fold_left np_add (repeat x n) x)
                             (map (fun v => Qnat (1 + n) * v)%Q x)).
  { apply fold_np_add_copies. clear.
    induction x as [| v x IH]; cbn [map]; constructor; [| exact IH].
    change (Qnat 1) with 1%Q. lra. }
  cbn [List.length]. rewrite repeat_length.
  change (inject_Z (Z.of_nat (S n))) with (Qnat (S n)).
  unfold np_div_scalar. revert Hsum. cbn [Nat.add].
  generalize (fold_left np_add (repeat x n) x) as s. intros s.
  revert s. induction x as [| v x IH]; intros s Hs; inversion Hs; subst.
  - constructor.
  - cbn [map]. constructor; [| apply IH; assumption].
    match goal with H : (_ == _)%Q |- _ => rewrite H end.
    rewrite Qmult_comm. apply Qdiv_mult_l, Qnat_pos.
Qed.

Lemma map_constant {X Y} (g : X -> Y) (c : Y) (l : list X) :
  (forall k, In k l -> g k = c) -> map g l = repeat c (List.length l).
Proof.
  induction l as [| x l IH]; intros H; [reflexivity |].
  cbn [map List.length repeat]. rewrite H by (left; reflexivity).
  rewrite IH by (intros k Hk; apply H; right; exact Hk). reflexivity.
Qed.

(** X16.  With [avg_count = n >= 1] on a healthy spectrometer whose next
    [n] scans have intensity arrays of one length, [average_spectrum] uses
    [n + 1] scans: it averages the intensity arrays of the first [n] and
    takes the wavelength array of the one after them.  When the [n] scans
    carry the same intensity array, the average is that array. *)
Theorem average_spectrum_uses_one_more_scan
    (self : PLExperiment) (w : World) (n : nat) :
  avg_count self = Z.of_nat (S n) ->
  spec_healthy w ->
  (forall k, (k < S n)%nat ->
     List.length (snd (device_spectrum w (scans w + k)%nat))
     = List.length (snd (device_spectrum w (scans w)))) ->
  exists avg w',
    experiment.average_spectrum self w
      = (Ret (fst (device_spectrum w (scans w + S n)%nat), avg), w')
    /\ np_mean_axis0 (map (fun k => snd (device_spectrum w (scans w + k)%nat))
                          (seq 0 (S n))) = MeanOk avg
    /\ scans w' = (scans w + S n + 1)%nat
    /\ ((forall k, (k < S n)%nat ->
           snd (device_spectrum w (scans w + k)%nat)
           = snd (device_spectrum w (scans w))) ->
        Forall2 Qeq avg (snd (device_spectrum w (scans w)))).
Proof.
  intros Hn Hh Hlen.
  set (rows := map (fun k => snd (device_spectrum w (scans w + k)%nat)) (seq 0 (S n))).
  assert (Hmean : exists avg, np_mean_axis0 rows = MeanOk avg).
  { unfold rows. cbn [seq map]. unfold np_mean_axis0.
    replace (forallb _ _) with true; [eexists; reflexivity |].
    symmetry. apply forallb_forall. intros r Hr. apply in_map_iff in Hr.
    destruct Hr as (k & <- & Hk). apply in_seq in Hk. apply Nat.eqb_eq.
    rewrite Nat.add_0_r. rewrite Hlen by lia. reflexivity. }
  destruct Hmean as (avg & Hmean).
  exists avg, (acquired (Nat.iter (S n) acquired w)).
  split; [| split; [exact Hmean | split]].
  - unfold experiment.average_spectrum. rewrite Hn, Nat2Z.id.
    unfold bind at 1. rewrite (comprehension_raw_intensity (S n) w Hh).
    fold rows. rewrite Hmean. cbn [mean_or_raise]. unfold bind at 1, ret at 1.
    unfold bind.
    rewrite (get_raw_spectrum_healthy _ (iter_acquired_healthy (S n) w Hh)).
    rewrite (iter_acquired_field device_spectrum (S n) w) by reflexivity.
    rewrite iter_acquired_scans. reflexivity.
  - change (scans (acquired ?v)) with (S (scans v)).
    rewrite iter_acquired_scans. lia.
  - intros Hsame.
    assert (Hrows : rows = repeat (snd (device_spectrum w (scans w))) (S n)).
    { unfold rows.
      rewrite (map_constant _ (snd (device_spectrum w (scans w))) (seq 0 (S n))).
      - rewrite length_seq. reflexivity.
      - intros k Hk. apply in_seq in Hk. apply Hsame. lia. }
    destruct (mean_of_copies (snd (device_spectrum w (scans w))) n) as (avg' & Hm & Heq).
    rewrite Hrows in Hmean. rewrite Hmean in Hm. injection Hm as <-. exact Heq.
Qed.

Lemma average_spectrum_uses_one_more_scan_witness :
  exists avg w',
    experiment.average_spectrum averaging_exp (masked_world true None None)
      = (Ret ([700; 800; 900]%Q, avg), w')
    /\ scans w' = 4%nat
    /\ Forall2 Qeq avg [3; 40; 3 # 2]%Q.
Proof.
  destruct (average_spectrum_uses_one_more_scan averaging_exp
              (masked_world true None None) 2)
    as (avg & w' & Hrun & _ & Hscans & Hsame).
  - reflexivity.
  - left. reflexivity.
  - intros k _. reflexivity.
  - exists avg, w'. split; [exact Hrun |]. split; [exact Hscans |].
    apply Hsame. intros k _. reflexivity.
Defined.

(** X17.  [run_degradation_study] reads its four required keys before
    anything else: when the duration, the sampling interval, the
    normalization or the flywheel mode is absent from the configuration it
    raises [KeyError] and the world is as it was, with no wheel move, no
    scan and nothing written. *)
Theorem degradation_with_missing_key_touches_nothing
    (fuel : nat) (self : PLExperiment) (w : World) :
  degradation_duration_s (user_cfg self) = None
  \/ sampling_interval_s (user_cfg self) = None
  \/ normalization (user_cfg self) = None
  \/ flywheel_mode (user_cfg self) = None ->
  experiment.run_degradation_study fuel self w = (Raise KeyError, w).
Proof.
  intros H. unfold experiment.run_degradation_study.
  destruct (degradation_duration_s (user_cfg self)) as [d |]; [| reflexivity].
  destruct (sampling_interval_s (user_cfg self)) as [i |]; [| reflexivity].
  destruct (normalization (user_cfg self)) as [n |]; [| reflexivity].
  destruct (flywheel_mode (user_cfg self)) as [f |]; [| reflexivity].
  destruct H as [H | [H | [H | H]]]; discriminate.
Qed.

Lemma degradation_with_missing_key_touches_nothing_witness :
  experiment.run_degradation_study 5 (steady_exp "each" (Some 2)) (demo_world 1)
  = (Raise KeyError, demo_world 1).
Proof.
  apply (degradation_with_missing_key_touches_nothing 5
           (steady_exp "each" (Some 2)) (demo_world 1)).
  left. reflexivity.
Defined.

Section OddBackgroundMode.
Variable self : PLExperiment.
Hypothesis Hbg : dict_get (background_correction (user_cfg self)) true = true.
Hypothesis Honce : String.eqb (bg_mode self) "once" = false.
Hypothesis Heach : String.eqb (bg_mode self) "each" = false.

Lemma steady_state_sample_unbound (i : Z) :
  fails_quietly (experiment.steady_state_sample self i None).
Proof.
  unfold experiment.steady_state_sample. rewrite Hbg, Heach. cbn [andb].
  apply (fails_quietly_bind (fun _ => True));
    [apply quiet_emit; reflexivity | trivial | intros _ _].
  apply (fails_quietly_bind (fun b => b = None));
    [apply quiet_ret | intros w a w' [= <- _]; reflexivity | intros b ->].
  apply (fails_quietly_bind (fun _ => True));
    [apply quiet_go_to_named_slot | trivial | intros _ _].
  apply (fails_quietly_bind (fun _ => True)); [apply quiet_sleep | trivial | intros _ _].
  apply (fails_quietly_bind (fun _ => True)); [apply quiet_capture | trivial |].
  intros captured _ w o w'. unfold bind, read_local, raise.
  intros [= <- <-]. split; [reflexivity | discriminate].
Qed.

Lemma steady_state_samples_unbound (indices : list Z) :
  quiet (experiment.steady_state_samples self indices None)
  /\ (indices <> [] ->
      fails_quietly (experiment.steady_state_samples self indices None)).
Proof.
  destruct indices as [| i rest]; cbn [experiment.steady_state_samples].
  - split; [apply quiet_ret | congruence].
  - assert (H : fails_quietly
                  (background <- experiment.steady_state_sample self i None ;;
                   experiment.steady_state_samples self rest background)).
    { apply (fails_quietly_bind (fun _ => False)).
      - apply fails_quietly_is_quiet, steady_state_sample_unbound.
      - intros w a w' H.
        exact (proj2 (steady_state_sample_unbound i _ _ _ H) a eq_refl).
      - intros a []. }
    split; [apply fails_quietly_is_quiet, H | intros _; exact H].
Qed.
End OddBackgroundMode.

Lemma range1_head (n : Z) : 1 <= n -> exists rest, experiment.range1 n = 1 :: rest.
Proof.
  intros Hn. unfold experiment.range1.
  replace (Z.to_nat n) with (S (Z.to_nat (n - 1))) by lia.
  cbn [seq map]. eexists. reflexivity.
Qed.

(** X18.  A steady-state run with background correction on (the default)
    and a background mode that is neither ["once"] nor ["each"] never binds
    the local [background]: nothing is written to disk, a run of at least
    one sample does not return normally, and when the move to the empty
    slot and the capture of the first sample succeed it ends there with
    [NameError]. *)
Theorem steady_state_with_odd_background_mode_raises_name_error
    (self : PLExperiment) (w : World) (n : Z) :
  dict_get (background_correction (user_cfg self)) true = true ->
  String.eqb (bg_mode self) "once" = false ->
  String.eqb (bg_mode self) "each" = false ->
  sample_count (user_cfg self) = Some n ->
  persisted (snd (experiment.run_steady_state self w)) = persisted w
  /\ (1 <= n -> forall a, fst (experiment.run_steady_state self w) <> Ret a)
  /\ (forall (s : Z) (wl inten : list Q) (w1 w2 : World),
        1 <= n ->
        experiment.go_to_named_slot self "empty" (prompted 1 w) = (Ret s, w1) ->
        experiment.capture self (slept (1 # 2) w1) = (Ret (wl, inten), w2) ->
        experiment.run_steady_state self w = (Raise NameError, w2)).
Proof.
  intros Hbg Honce Heach Hn.
  assert (Hrun : experiment.run_steady_state self w
                 = bind (experiment.steady_state_samples self (experiment.range1 n) None)
                        (fun _ => emit SavePlot) w).
  { unfold experiment.run_steady_state. rewrite Hbg, Honce, Hn. reflexivity. }
  split; [| split].
  - rewrite Hrun. destruct (bind _ _ w) as [o w'] eqn:E. cbn [snd]. revert E.
    apply quiet_bind.
    + apply (steady_state_samples_unbound self Hbg Heach).
    + intros _. apply quiet_emit. reflexivity.
  - intros H1 a. rewrite Hrun. unfold bind.
    destruct (experiment.steady_state_samples self (experiment.range1 n) None w)
      as [[u | e |] w'] eqn:E; try discriminate.
    exfalso. destruct (range1_head n H1) as (rest & Hrest).
    refine (proj2 (proj2 (steady_state_samples_unbound self Hbg Heach
                            (experiment.range1 n)) _ _ _ _ E) u eq_refl).
    rewrite Hrest. discriminate.
  - intros s wl inten w1 w2 H1 Hgo Hcap. rewrite Hrun.
    destruct (range1_head n H1) as (rest & ->).
    unfold bind at 1. cbn [experiment.steady_state_samples].
    unfold bind at 1. unfold experiment.steady_state_sample.
    rewrite Hbg, Heach. cbn [andb].
    unfold bind at 1. unfold emit at 1, modify at 1.
    change (set_trace (Prompt 1 :: trace w) w) with (prompted 1 w).
    unfold bind at 1. unfold ret at 1.
    unfold bind at 1. rewrite Hgo.
    unfold bind at 1. rewrite sleep_nonneg by discriminate.
    change (set_clock (clock w1 + (1 # 2))%Q w1) with (slept (1 # 2) w1).
    unfold bind at 1. rewrite Hcap. reflexivity.
Qed.

Lemma steady_state_with_odd_background_mode_raises_name_error_witness :
  persisted (snd (experiment.run_steady_state (steady_exp "never" (Some 3))
                    (demo_world 1))) = []
  /\ fst (experiment.run_steady_state (steady_exp "never" (Some 3)) (demo_world 1))
     = Raise NameError.
Proof.
  destruct (steady_state_with_odd_background_mode_raises_name_error
              (steady_exp "never" (Some 3)) (demo_world 1) 3
              eq_refl eq_refl eq_refl eq_refl) as (Hquiet & _ & Hraise).
  split; [exact Hquiet |].
  rewrite (Hraise 2 (fst (demo_spectrum 0)) (snd (demo_spectrum 0))
             (snd (experiment.go_to_named_slot (steady_exp "never" (Some 3)) "empty"
                     (prompted 1 (demo_world 1))))
             (acquired (slept (1 # 2)
                (snd (experiment.go_to_named_slot (steady_exp "never" (Some 3)) "empty"
                        (prompted 1 (demo_world 1))))))).
  - reflexivity.
  - lia.
  - vm_compute. reflexivity.
  - vm_compute. reflexivity.
Defined.

Lemma normalize_by_one (n : string) (inten : list Q) :
  experiment.normalize n 1 inten = inten.
Proof.
  unfold experiment.normalize. destruct (negb (String.eqb n "none") && Qltb 0 1);
    [| reflexivity].
  unfold np_div_scalar. rewrite <- (map_id inten) at 2.
  apply map_ext. intros x. apply Qdiv_1_r.
Qed.

Section SkipMode.
Variables (self : PLExperiment) (interval : Q) (n : string).
Hypothesis Havg : enable_averaging self = false.
Hypothesis Hbg : dict_get (background_correction (user_cfg self)) false = false.
Hypothesis Hint : (0 <= interval)%Q.

Lemma skip_cycle_run (background : option (list Q)) (w : World) :
  spec_healthy w ->
  well_formed_scans w ->
  experiment.degradation_cycle self interval n "skip" background w
  = (Ret background, skip_cycled interval w).
Proof.
  intros Hh Hwf. destruct (Hwf (scans w)) as [Hlen Hne].
  unfold experiment.degradation_cycle.
  unfold bind at 1. change (experiment.select_path self n "skip" background w)
    with (Ret (1%Q, background), w). cbn [fst snd].
  unfold bind at 1. rewrite sleep_nonneg by discriminate.
  change (set_clock (clock w + (1 # 2))%Q w) with (slept (1 # 2) w).
  unfold bind at 1. unfold experiment.capture. rewrite Havg.
  rewrite (get_raw_spectrum_healthy (slept (1 # 2) w) Hh).
  change (device_spectrum (slept (1 # 2) w) (scans (slept (1 # 2) w)))
    with (device_spectrum w (scans w)).
  rewrite normalize_by_one.
  unfold bind at 1. unfold experiment.correct_background. rewrite Hbg.
  unfold ret at 1.
  unfold bind at 1. rewrite (live_plot_defined _ _ _ Hlen Hne).
  unfold bind at 1. rewrite (save_csv_spectrum_defined _ _ _ Hlen).
  unfold bind at 1. rewrite sleep_nonneg by discriminate.
  unfold bind at 1. rewrite sleep_nonneg by exact Hint.
  reflexivity.
Qed.

Lemma skip_cycled_clock (w : World) :
  clock (skip_cycled interval w) = (clock w + (1 # 2) + (5 # 100) + interval)%Q.
Proof. reflexivity. Qed.

Lemma skip_cycled_persisted (w : World) :
  persisted (skip_cycled interval w)
  = SaveCsv (fst (device_spectrum w (scans w))) (snd (device_spectrum w (scans w)))
      :: persisted w.
Proof.
  unfold persisted, skip_cycled, acquired, scan_events. cbn [trace set_trace slept
    set_clock set_scans spec]. cbn [filter is_save].
  rewrite filter_app. destruct (simulate (spec w)); reflexivity.
Qed.

Lemma skip_cycled_pulses (w : World) : pulses (skip_cycled interval w) = pulses w.
Proof.
  unfold pulses, skip_cycled, acquired, scan_events. cbn [trace set_trace slept
    set_clock set_scans spec]. cbn [filter is_pulse].
  rewrite filter_app. destruct (simulate (spec w)); reflexivity.
Qed.

Lemma iter_skip_cycled_field {X} (f : World -> X) (k : nat) (w : World) :
  (forall v, f (skip_cycled interval v) = f v) ->
  f (Nat.iter k (skip_cycled interval) w) = f w.
Proof.
  intros H. induction k as [| k IH]; [reflexivity |].
  rewrite Nat.iter_succ, H. exact IH.
Qed.

Lemma iter_skip_cycled_scans (k : nat) (w : World) :
  scans (Nat.iter k (skip_cycled interval) w) = (scans w + k)%nat.
Proof.
  induction k as [| k IH]; [simpl; lia |].
  rewrite Nat.iter_succ.
  change (scans (skip_cycled interval ?v)) with (S (scans v)). rewrite IH. lia.
Qed.

Lemma iter_skip_cycled_persisted (k : nat) (w : World) :
  persisted (Nat.iter k (skip_cycled interval) w)
  = saved_scans w (scans w) k ++ persisted w.
Proof.
  induction k as [| k IH]; [reflexivity |].
  rewrite Nat.iter_succ, skip_cycled_persisted, IH, iter_skip_cycled_scans.
  rewrite (iter_skip_cycled_field device_spectrum k w) by reflexivity.
  unfold saved_scans. rewrite seq_S, map_app, rev_app_distr. reflexivity.
Qed.

Lemma skip_loop_exit (fuel : nat) (t0 duration : Q)
    (background : option (list Q)) (w : World) :
  Qltb (clock w - t0) duration = false ->
  experiment.degradation_while fuel self t0 duration interval n "skip" background w
  = (Ret tt, w).
Proof.
  intros Hexit. destruct fuel; cbn [experiment.degradation_while];
    unfold bind, time_time, get; rewrite Hexit; reflexivity.
Qed.

Lemma skip_loop_step (fuel : nat) (t0 duration : Q)
    (background : option (list Q)) (w : World) :
  spec_healthy w ->
  well_formed_scans w ->
  Qltb (clock w - t0) duration = true ->
  experiment.degradation_while (S fuel) self t0 duration interval n "skip"
                               background w
  = experiment.degradation_while fuel self t0 duration interval n "skip"
                                 background (skip_cycled interval w).
Proof.
  intros Hh Hwf Henter. cbn [experiment.degradation_while].
  unfold bind at 1, time_time at 1, get at 1. rewrite Henter.
  unfold bind at 1. rewrite (skip_cycle_run background w Hh Hwf). reflexivity.
Qed.

Lemma skip_loop_shape (t0 duration : Q) (background : option (list Q)) (fuel : nat) :
  forall w : World,
    spec_healthy w ->
    well_formed_scans w ->
    exists m : nat,
      (m <= fuel)%nat
      /\ snd (experiment.degradation_while fuel self t0 duration interval n "skip"
                                           background w)
         = Nat.iter m (skip_cycled interval) w
      /\ (fst (experiment.degradation_while fuel self t0 duration interval n "skip"
                                            background w) = Ret tt
          \/ (fst (experiment.degradation_while fuel self t0 duration interval n
                                                "skip" background w) = OutOfFuel
              /\ m = fuel)).
Proof.
  induction fuel as [| fuel IH]; intros w Hh Hwf;
    destruct (Qltb (clock w - t0) duration) eqn:Hc.
  - exists 0%nat. split; [lia |].
    cbn [experiment.degradation_while]. unfold bind, time_time, get. rewrite Hc.
    split; [reflexivity |]. right. split; reflexivity.
  - exists 0%nat. rewrite (skip_loop_exit _ _ _ _ _ Hc).
    split; [lia |]. split; [reflexivity | left; reflexivity].
  - rewrite (skip_loop_step fuel t0 duration background w Hh Hwf Hc).
    destruct (IH (skip_cycled interval w) Hh Hwf) as (m & Hm & Hworld & Hout).
    exists (S m). split; [lia |].
    split; [rewrite Hworld, <- Nat.iter_succ_r; reflexivity |].
    destruct Hout as [Hret | [Hfuel ->]]; [left; exact Hret |].
    right. split; [exact Hfuel | reflexivity].
  - exists 0%nat. rewrite (skip_loop_exit _ _ _ _ _ Hc).
    split; [lia |]. split; [reflexivity | left; reflexivity].
Qed.

Lemma skip_loop_ends (t0 duration : Q) (background : option (list Q)) (k : nat) :
  forall (fuel : nat) (w : World),
    spec_healthy w ->
    well_formed_scans w ->
    (duration <= clock w - t0 + Qnat k * skip_period interval)%Q ->
    (k <= fuel)%nat ->
    fst (experiment.degradation_while fuel self t0 duration interval n "skip"
                                      background w) <> OutOfFuel.
Proof.
  induction k as [| k IH]; intros fuel w Hh Hwf Hge Hfuel.
  - rewrite skip_loop_exit; [discriminate |].
    apply Qltb_ge. change (Qnat 0) with 0%Q in Hge. lra.
  - destruct (Qltb (clock w - t0) duration) eqn:Hc.
    + destruct fuel as [| fuel]; [lia |].
      rewrite (skip_loop_step fuel t0 duration background w Hh Hwf Hc).
      apply IH; [exact Hh | exact Hwf | | lia].
      rewrite Qnat_S in Hge. rewrite skip_cycled_clock.
      unfold skip_period in *. lra.
    + rewrite (skip_loop_exit _ _ _ _ _ Hc). discriminate.
Qed.
End SkipMode.

(** X19.  A degradation run in skip mode without background correction and
    without averaging, on a healthy spectrometer with well-formed scans and
    a non-negative sampling interval, never raises.  However many cycles
    [m] it runs, it has taken [m] scans and called [save_csv_spectrum] once
    for each, in order, with the wavelength and intensity arrays of the scan
    as they came (the reference power is 1); the wheel has not been pulsed
    and the tracked position has not changed.  With a duration of zero or
    less no cycle runs.  The loop comes to an end: enough fuel gives a run
    that returns. *)
Theorem degradation_in_skip_mode_saves_every_scan_unchanged
    (self : PLExperiment) (fuel : nat) (w : World)
    (duration interval : Q) (n : string) :
  enable_averaging self = false ->
  degradation_duration_s (user_cfg self) = Some duration ->
  sampling_interval_s (user_cfg self) = Some interval ->
  normalization (user_cfg self) = Some n ->
  flywheel_mode (user_cfg self) = Some "skip"%string ->
  dict_get (background_correction (user_cfg self)) false = false ->
  spec_healthy w ->
  well_formed_scans w ->
  (0 <= interval)%Q ->
  (exists m : nat,
      (m <= fuel)%nat
      /\ (fst (experiment.run_degradation_study fuel self w) = Ret tt
          \/ (fst (experiment.run_degradation_study fuel self w) = OutOfFuel
              /\ m = fuel))
      /\ persisted (snd (experiment.run_degradation_study fuel self w))
         = saved_scans w (scans w) m ++ persisted w
      /\ scans (snd (experiment.run_degradation_study fuel self w))
         = (scans w + m)%nat
      /\ pulses (snd (experiment.run_degradation_study fuel self w)) = pulses w
      /\ fw (snd (experiment.run_degradation_study fuel self w)) = fw w
      /\ ((duration <= 0)%Q -> m = 0%nat))
  /\ exists fuel0 : nat,
       forall fuel', (fuel0 <= fuel')%nat ->
         fst (experiment.run_degradation_study fuel' self w) = Ret tt.
Proof.
  intros Havg Hd Hi Hn Hf Hbg Hh Hwf Hint.
  assert (Hunfold : forall f,
            experiment.run_degradation_study f self w
            = bind (experiment.degradation_while f self (clock w) duration interval n
                                                 "skip" None)
                   (fun _ => try_except (emit SummaryPlots) (fun _ => ret tt)) w).
  { intros f. unfold experiment.run_degradation_study. rewrite Hd, Hi, Hn, Hf, Hbg.
    reflexivity. }
  assert (Hfacts : forall m v,
            v = Nat.iter m (skip_cycled interval) w ->
            persisted v = saved_scans w (scans w) m ++ persisted w
            /\ scans v = (scans w + m)%nat
            /\ pulses v = pulses w
            /\ fw v = fw w).
  { intros m v ->.
    split; [apply iter_skip_cycled_persisted |].
    split; [apply iter_skip_cycled_scans |].
    split.
    - clear. induction m as [| m IH]; [reflexivity |].
      rewrite Nat.iter_succ, skip_cycled_pulses. exact IH.
    - apply (iter_skip_cycled_field interval fw m w). reflexivity. }
  split.
  - destruct (skip_loop_shape self interval n Havg Hbg Hint (clock w) duration None
                fuel w Hh Hwf) as (m & Hm & Hworld & Hout).
    exists m. split; [exact Hm |].
    rewrite Hunfold. unfold bind.
    destruct (experiment.degradation_while fuel self (clock w) duration interval n
                                           "skip" None w) as [o v] eqn:E.
    cbn [fst snd] in Hworld, Hout.
    destruct (Hfacts m v Hworld) as (Hper & Hsc & Hp & Hfw).
    assert (Hzero : (duration <= 0)%Q -> m = 0%nat).
    { intros Hle.
      assert (Hexit : Qltb (clock w - clock w) duration = false)
        by (apply Qltb_ge; lra).
      rewrite (skip_loop_exit self interval n fuel (clock w) duration None w Hexit)
        in E.
      destruct m as [| m]; [reflexivity |]. exfalso.
      assert (Hs : scans v = scans w) by congruence. lia. }
    destruct Hout as [-> | [-> ->]].
    + split; [left; reflexivity |].
      change (persisted (snd (try_except (emit SummaryPlots) (fun _ => ret tt) v)))
        with (persisted v).
      change (scans (snd (try_except (emit SummaryPlots) (fun _ => ret tt) v)))
        with (scans v).
      change (pulses (snd (try_except (emit SummaryPlots) (fun _ => ret tt) v)))
        with (pulses v).
      change (fw (snd (try_except (emit SummaryPlots) (fun _ => ret tt) v)))
        with (fw v).
      repeat (split; [assumption |]). exact Hzero.
    + split; [right; split; reflexivity |]. cbn [snd].
      repeat (split; [assumption |]). exact Hzero.
  - destruct (enough_cycles duration (skip_period interval)
                ltac:(unfold skip_period; lra)) as (k & Hk).
    exists k. intros fuel' Hfuel. rewrite Hunfold. unfold bind.
    destruct (skip_loop_shape self interval n Havg Hbg Hint (clock w) duration None
                fuel' w Hh Hwf) as (m & _ & _ & Hout).
    destruct (experiment.degradation_while fuel' self (clock w) duration interval n
                                           "skip" None w) as [o v] eqn:E.
    cbn [fst] in Hout. destruct Hout as [-> | [Hout _]]; [reflexivity |].
    exfalso.
    refine (skip_loop_ends self interval n Havg Hbg Hint (clock w) duration None
              k fuel' w Hh Hwf _ Hfuel _).
    + lra.
    + rewrite E. exact Hout.
Qed.

(** On the demonstration laboratory the run returns, and what it has saved
    are the scans it took, in order and as they came. *)
Lemma degradation_in_skip_mode_saves_every_scan_unchanged_witness :
  (exists m : nat,
      persisted (snd (experiment.run_degradation_study 5 (skip_exp 2 1 "none")
                        (demo_world 3)))
      = saved_scans (demo_world 3) 0 m
      /\ scans (snd (experiment.run_degradation_study 5 (skip_exp 2 1 "none")
                       (demo_world 3))) = m)
  /\ pulses (snd (experiment.run_degradation_study 5 (skip_exp 2 1 "none")
                    (demo_world 3))) = 0
  /\ fw (snd (experiment.run_degradation_study 5 (skip_exp 2 1 "none")
                (demo_world 3))) = mkFw 6 demo_mapping 3.
Proof.
  destruct (degradation_in_skip_mode_saves_every_scan_unchanged
              (skip_exp 2 1 "none") 5 (demo_world 3) 2 1 "none")
    as ((m & _ & _ & Hper & Hsc & Hp & Hfw & _) & _).
  - reflexivity.
  - reflexivity.
  - reflexivity.
  - reflexivity.
  - reflexivity.
  - reflexivity.
  - right. repeat split.
  - intros k. split; [reflexivity | discriminate].
  - discriminate.
  - split; [| split; [exact Hp | exact Hfw]].
    exists m. split; [rewrite Hper; apply app_nil_r | exact Hsc].
Defined.

Lemma scan_events_no_pulse (w : World) : filter is_pulse (scan_events w) = [].
Proof. unfold scan_events. destruct (simulate (spec w)); reflexivity. Qed.

Lemma scan_events_no_save (w : World) : filter is_save (scan_events w) = [].
Proof. unfold scan_events. destruct (simulate (spec w)); reflexivity. Qed.

Lemma saved_scans_cons (w : World) (s k : nat) :
  saved_scans w s (S k)
  = saved_scans w (S s) k
    ++ [SaveCsv (fst (device_spectrum w s)) (snd (device_spectrum w s))].
Proof.
  unfold saved_scans. cbn [seq map rev]. rewrite Nat.add_0_r.
  rewrite <- seq_shift, map_map. f_equal. f_equal.
  apply map_ext. intros a. rewrite Nat.add_succ_r. reflexivity.
Qed.

Section UncorrectedSteadyState.
Variables (self : PLExperiment) (e : Z).
Hypothesis Havg : enable_averaging self = false.
Hypothesis Hbg : dict_get (background_correction (user_cfg self)) true = false.
Hypothesis Hempty : assoc "empty" (slots self) = Some e.

Lemma steady_cycled_facts (i : Z) (w : World) :
  slot_in_range w -> 1 <= e <= slot_count (fw w) ->
  fw (steady_cycled e i w) = mkFw (slot_count (fw w)) (slot_mapping (fw w)) e
  /\ pulses (steady_cycled e i w)
     = pulses w + distance (slot_count (fw w)) (current_slot (fw w)) e
  /\ persisted (steady_cycled e i w)
     = SaveCsv (fst (device_spectrum w (scans w))) (snd (device_spectrum w (scans w)))
         :: persisted w
  /\ scans (steady_cycled e i w) = S (scans w)
  /\ device_spectrum (steady_cycled e i w) = device_spectrum w
  /\ spec (steady_cycled e i w) = spec w
  /\ faulty (steady_cycled e i w) = faulty w.
Proof.
  intros Hc He.
  pose proof (distance_range (slot_count (fw w)) (current_slot (fw w)) e
                ltac:(unfold slot_in_range in Hc; lia)) as Hd.
  set (k := Z.to_nat (distance (slot_count (fw w)) (current_slot (fw w)) e)).
  set (w1 := Nat.iter k pulsed (prompted i w)).
  assert (Htrace : trace (steady_cycled e i w)
                   = ShowPlot :: SavePlot
                       :: SaveCsv (fst (device_spectrum w (scans w)))
                                  (snd (device_spectrum w (scans w)))
                       :: scan_events (slept (1 # 2) w1) ++ trace w1)
    by reflexivity.
  destruct (iter_pulsed k (prompted i w)) as [_ Hp]. fold w1 in Hp.
  split; [| split; [| split; [| split; [| split; [| split]]]]].
  - change (fw (steady_cycled e i w)) with (fw w1).
    apply (go_to_slot_run_fw (prompted i w) e Hc He).
  - unfold pulses at 1. rewrite Htrace. cbn [filter is_pulse].
    rewrite filter_app, scan_events_no_pulse. cbn [app].
    fold (pulses w1). rewrite Hp. change (pulses (prompted i w)) with (pulses w).
    unfold k. lia.
  - unfold persisted at 1. rewrite Htrace. cbn [filter is_save].
    rewrite filter_app, scan_events_no_save. cbn [app]. f_equal.
    fold (persisted w1). unfold w1.
    rewrite (iter_pulsed_field persisted k (prompted i w)) by reflexivity.
    reflexivity.
  - change (scans (steady_cycled e i w)) with (S (scans w1)). unfold w1.
    rewrite (iter_pulsed_field scans k (prompted i w)) by reflexivity. reflexivity.
  - change (device_spectrum (steady_cycled e i w)) with (device_spectrum w1). unfold w1.
    rewrite (iter_pulsed_field device_spectrum k (prompted i w)) by reflexivity.
    reflexivity.
  - change (spec (steady_cycled e i w)) with (spec w1). unfold w1.
    rewrite (iter_pulsed_field spec k (prompted i w)) by reflexivity. reflexivity.
  - change (faulty (steady_cycled e i w)) with (faulty w1). unfold w1.
    rewrite (iter_pulsed_field faulty k (prompted i w)) by reflexivity. reflexivity.
Qed.

Lemma steady_cycled_ready (i : Z) (w : World) :
  ready_for_samples e w -> ready_for_samples e (steady_cycled e i w).
Proof.
  intros (Hg & Hs & Hwf & Hc & He).
  destruct (steady_cycled_facts i w Hc He) as (Hfw & _ & _ & _ & Hds & Hsp & Hf).
  unfold ready_for_samples, gen_healthy, spec_healthy, well_formed_scans, slot_in_range.
  rewrite Hfw, Hds, Hsp, Hf. cbn [slot_count current_slot].
  repeat split; try apply Hg; try apply Hwf; try lia. exact Hs.
Qed.

Lemma steady_sample_run (i : Z) (background : option (list Q)) (w : World) :
  ready_for_samples e w ->
  experiment.steady_state_sample self i background w
  = (Ret background, steady_cycled e i w).
Proof.
  intros (Hg & Hs & Hwf & Hc & He). destruct (Hwf (scans w)) as [Hlen Hne].
  set (k := Z.to_nat (distance (slot_count (fw w)) (current_slot (fw w)) e)).
  set (w1 := Nat.iter k pulsed (prompted i w)).
  assert (Hs1 : spec_healthy (slept (1 # 2) w1)).
  { unfold spec_healthy.
    change (spec (slept (1 # 2) w1)) with (spec w1).
    change (faulty (slept (1 # 2) w1)) with (faulty w1). unfold w1.
    rewrite (iter_pulsed_field spec k (prompted i w)) by reflexivity.
    rewrite (iter_pulsed_field faulty k (prompted i w)) by reflexivity.
    exact Hs. }
  assert (Hraw : device_spectrum (slept (1 # 2) w1) (scans (slept (1 # 2) w1))
                 = device_spectrum w (scans w)).
  { change (device_spectrum (slept (1 # 2) w1)) with (device_spectrum w1).
    change (scans (slept (1 # 2) w1)) with (scans w1). unfold w1.
    rewrite (iter_pulsed_field device_spectrum k (prompted i w)) by reflexivity.
    rewrite (iter_pulsed_field scans k (prompted i w)) by reflexivity.
    reflexivity. }
  unfold experiment.steady_state_sample. rewrite Hbg. cbn [andb].
  unfold bind at 1. unfold emit at 1, modify at 1.
  change (set_trace (Prompt i :: trace w) w) with (prompted i w).
  unfold bind at 1. unfold ret at 1.
  unfold bind at 1. unfold experiment.go_to_named_slot. rewrite Hempty.
  unfold bind at 1. unfold dict_item, ret at 1.
  rewrite (go_to_slot_run (prompted i w) e Hg Hc He).
  change (Nat.iter (Z.to_nat (distance (slot_count (fw (prompted i w)))
                                       (current_slot (fw (prompted i w))) e))
                   pulsed (prompted i w)) with w1.
  unfold bind at 1. rewrite sleep_nonneg by discriminate.
  change (set_clock (clock w1 + (1 # 2))%Q w1) with (slept (1 # 2) w1).
  unfold bind at 1. unfold experiment.capture. rewrite Havg.
  rewrite (get_raw_spectrum_healthy _ Hs1), Hraw. cbn [fst snd].
  unfold bind at 1. unfold ret at 1.
  unfold bind at 1. rewrite (save_csv_spectrum_defined _ _ _ Hlen).
  unfold bind at 1. rewrite (plot_spectrum_single_defined _ _ _ Hlen Hne).
  destruct (peak_defined _ _ Hlen Hne) as (p & Hp).
  unfold bind at 1. rewrite Hp.
  reflexivity.
Qed.

Lemma steady_samples_run (indices : list Z) :
  forall (background : option (list Q)) (w : World),
    ready_for_samples e w ->
    exists w',
      experiment.steady_state_samples self indices background w = (Ret tt, w')
      /\ persisted w' = saved_scans w (scans w) (List.length indices) ++ persisted w
      /\ scans w' = (scans w + List.length indices)%nat
      /\ pulses w'
         = pulses w + match indices with
                      | [] => 0
                      | _ => distance (slot_count (fw w)) (current_slot (fw w)) e
                      end
      /\ fw w' = match indices with
                 | [] => fw w
                 | _ => mkFw (slot_count (fw w)) (slot_mapping (fw w)) e
                 end.
Proof.
  induction indices as [| i rest IH]; intros background w Hr.
  - exists w. cbn [experiment.steady_state_samples List.length].
    repeat split; [symmetry; apply Nat.add_0_r | lia].
  - pose proof (steady_cycled_ready i w Hr) as Hr1.
    destruct Hr as (Hg & Hs & Hwf & Hc & He).
    destruct (steady_cycled_facts i w Hc He) as (Hfw & Hp & Hper & Hsc & Hds & _ & _).
    destruct (IH background (steady_cycled e i w) Hr1)
      as (w' & Hrun & Hper' & Hsc' & Hp' & Hfw').
    exists w'. split; [| split; [| split; [| split]]].
    + cbn [experiment.steady_state_samples]. unfold bind at 1.
      rewrite (steady_sample_run i background w (conj Hg (conj Hs (conj Hwf (conj Hc He))))).
      exact Hrun.
    + rewrite Hper', Hper, Hsc. cbn [List.length]. rewrite saved_scans_cons.
      rewrite <- app_assoc. cbn [app]. f_equal.
      unfold saved_scans. rewrite Hds. reflexivity.
    + rewrite Hsc', Hsc. cbn [List.length]. lia.
    + rewrite Hp', Hp, Hfw. cbn [slot_count current_slot].
      rewrite distance_same. destruct rest; lia.
    + rewrite Hfw', Hfw. destruct rest; reflexivity.
Qed.
End UncorrectedSteadyState.

(** X20.  A steady-state run of [n >= 1] samples with background correction
    switched off and without averaging, on a healthy wheel and spectrometer
    with well-formed scans: the run returns, it takes one scan per sample
    and writes each to disk as it is, in order; the wheel is moved to the
    empty slot for the first sample and never again (the pulses sent are
    those from the starting position to the empty slot), and it is left
    there. *)
Theorem steady_state_without_correction_saves_raw_scans
    (self : PLExperiment) (w : World) (n e : Z) :
  enable_averaging self = false ->
  dict_get (background_correction (user_cfg self)) true = false ->
  sample_count (user_cfg self) = Some n ->
  assoc "empty" (slots self) = Some e ->
  1 <= e <= slot_count (fw w) ->
  slot_in_range w ->
  gen_healthy w ->
  spec_healthy w ->
  well_formed_scans w ->
  1 <= n ->
  exists w',
    experiment.run_steady_state self w = (Ret tt, w')
    /\ persisted w' = saved_scans w (scans w) (Z.to_nat n) ++ persisted w
    /\ scans w' = (scans w + Z.to_nat n)%nat
    /\ pulses w' = pulses w + distance (slot_count (fw w)) (current_slot (fw w)) e
    /\ fw w' = mkFw (slot_count (fw w)) (slot_mapping (fw w)) e.
Proof.
  intros Havg Hbg Hn Hempty He Hc Hg Hs Hwf H1.
  destruct (steady_samples_run self e Havg Hbg Hempty (experiment.range1 n) None w
              (conj Hg (conj Hs (conj Hwf (conj Hc He)))))
    as (w1 & Hrun & Hper & Hsc & Hp & Hfw).
  assert (Hlen : List.length (experiment.range1 n) = Z.to_nat n).
  { unfold experiment.range1. rewrite length_map, length_seq. reflexivity. }
  destruct (range1_head n H1) as (rest & Hrest).
  rewrite Hlen in Hper, Hsc. rewrite Hrest in Hp, Hfw.
  exists (set_trace (SavePlot :: trace w1) w1).
  split; [| split; [exact Hper | split; [exact Hsc | split; [exact Hp | exact Hfw]]]].
  unfold experiment.run_steady_state. rewrite Hbg, Hn. cbn [andb].
  unfold bind at 1, ret at 1. unfold bind at 1, dict_item, ret at 1.
  unfold bind at 1. rewrite Hrun. reflexivity.
Qed.

(** Two samples on the demo wheel parked at slot 5: three pulses bring the
    empty slot 2 into the beam, two scans are written. *)
Lemma steady_state_without_correction_saves_raw_scans_witness :
  exists w',
    experiment.run_steady_state (uncorrected_exp 2) (demo_world 5) = (Ret tt, w')
    /\ persisted w'
       = [SaveCsv [700; 800; 900]%Q [1 + 2; 40; 3 # 2]%Q;
          SaveCsv [700; 800; 900]%Q [0 + 2; 40; 3 # 2]%Q]
    /\ pulses w' = 3
    /\ fw w' = mkFw 6 demo_mapping 2.
Proof.
  destruct (steady_state_without_correction_saves_raw_scans
              (uncorrected_exp 2) (demo_world 5) 2 2)
    as (w' & Hrun & Hper & _ & Hp & Hfw).
  - reflexivity.
  - reflexivity.
  - reflexivity.
  - reflexivity.
  - simpl. lia.
  - unfold slot_in_range. simpl. lia.
  - repeat split.
  - right. repeat split.
  - intros k. split; [reflexivity | discriminate].
  - lia.
  - exists w'. split; [exact Hrun |]. split; [exact Hper |].
    split; [exact Hp | exact Hfw].
Defined.
